(** * A shallow embedding of the Mafia game orchestrator

    The development follows the Python sources [game_state.py],
    [game_orchestrator.py], [role_agents.py] and [llm_interface.py].  Python
    dictionaries are modelled as insertion-ordered association lists,
    exceptions as an explicit result type, and every call to an agent (the
    LLM-backed collaborator) as an oracle supplied by the caller; the last
    part of the model builds the agents' calls from the request to the
    language model. *)

From Stdlib Require Import List String Ascii Bool Arith Lia ZArith QArith Qminmax.
From Stdlib Require Import Sorting.Sorted DecimalString Lqa.
Import ListNotations.
Local Open Scope string_scope.
Local Open Scope nat_scope.

Set Implicit Arguments.

(** ** game_state.py *)

Inductive Role : Type := MAFIA | DOCTOR | DETECTIVE | VILLAGER.

Definition Role_eqb (a b : Role) : bool :=
  match a, b with
  | MAFIA, MAFIA | DOCTOR, DOCTOR | DETECTIVE, DETECTIVE | VILLAGER, VILLAGER => true
  | _, _ => false
  end.

(** [Role.value] *)
Definition Role_value (r : Role) : string :=
  match r with
  | MAFIA => "mafia"
  | DOCTOR => "doctor"
  | DETECTIVE => "detective"
  | VILLAGER => "villager"
  end.

Inductive GamePhase : Type :=
  | NIGHT | DAY_DISCUSSION | DAY_VOTING | DAY_DEFENSE | DAY_FINAL_VOTING | GAME_OVER.

Record Player : Type := mkPlayer {
  name : string;
  personality : string;
  role : Role;
  is_alive : bool;
  votes_received : nat
}.

Record GameAction : Type := mkGameAction {
  player_name : string;
  action_type : string;
  ga_target : option string;
  message : option string;
  ga_round_number : nat
}.

(** Python's truth value of a [str] and of an [Optional[str]]. *)
Definition str_truthy (s : string) : bool :=
  match s with EmptyString => false | String _ _ => true end.

Definition opt_truthy (o : option string) : bool :=
  match o with None => false | Some s => str_truthy s end.

(** *** Insertion-ordered dictionaries keyed by strings *)

Section Dict.
Variable V : Type.

Definition dict := list (string * V).

Fixpoint dict_get (d : dict) (k : string) : option V :=
  match d with
  | [] => None
  | (k', v) :: d' => if String.eqb k' k then Some v else dict_get d' k
  end.

(** [d[k] = v]: an existing key keeps its position, a new key goes last. *)
Fixpoint dict_set (d : dict) (k : string) (v : V) : dict :=
  match d with
  | [] => [(k, v)]
  | (k', v') :: d' =>
      if String.eqb k' k then (k', v) :: d' else (k', v') :: dict_set d' k v
  end.

Definition dict_get_default (d : dict) (k : string) (dflt : V) : V :=
  match dict_get d k with Some v => v | None => dflt end.

Definition dict_keys (d : dict) : list string := map fst d.
Definition dict_values (d : dict) : list V := map snd d.
End Dict.

(** One entry of [voting_history]; the keys a round never sets are [None]. *)
Record VoteRecord : Type := mkVoteRecord {
  vr_voter : string;
  vr_target : option string;
  vr_reason : string
}.

Record VotingRound : Type := mkVotingRound {
  vh_round : nat;
  vh_voting_round : nat;
  vh_votes : list VoteRecord;
  vh_final_votes : list VoteRecord;
  vh_trial_candidate : option string;
  vh_defense : option string;
  vh_tied_candidates : option (list string);
  vh_tie_votes : option nat;
  vh_eliminated : option string
}.

(** The values [json.loads] puts under the keys of a night decision, as far
    as they are modelled: a JSON string, or JSON null, which Python reads as
    [None].  A decision that holds a number, a boolean, an array or an object
    under one of its two keys, and a decision that is not a dictionary, are
    outside this model. *)
Inductive JsonValue : Type :=
  | JNull
  | JString (s : string).

Definition JsonValue_eqb (a b : JsonValue) : bool :=
  match a, b with
  | JNull, JNull => true
  | JString x, JString y => String.eqb x y
  | _, _ => false
  end.

(** [str(v)], as an f-string prints the value. *)
Definition str_of_json (v : JsonValue) : string :=
  match v with JNull => "None" | JString s => s end.

(** The value as a field of type [Optional[str]] holds it. *)
Definition json_to_optional (v : JsonValue) : option string :=
  match v with JNull => None | JString s => Some s end.

Record NightActionRecord : Type := mkNightActionRecord {
  na_round : nat;
  na_action_type : string;
  na_target : JsonValue;
  na_reason : JsonValue
}.

Record GameState : Type := mkGameState {
  players : list Player;
  phase : GamePhase;
  round_number : nat;
  alive_players : list string;
  dead_players : list string;
  mafia_members : list string;
  mafia_target : option string;
  doctor_save : option string;
  detective_check : option string;
  detective_results : dict string;
  discussion_messages : list GameAction;
  votes : dict string;
  vote_counts : dict nat;
  suspects_on_trial : list string;
  action_history : list GameAction;
  elimination_history : list string;
  player_night_actions : dict (list NightActionRecord);
  voting_history : list VotingRound;
  winner : option string
}.

Definition get_alive_players (gs : GameState) : list Player :=
  filter is_alive (players gs).

Definition get_player_by_name (gs : GameState) (n : string) : option Player :=
  find (fun p => String.eqb (name p) n) (players gs).

Definition get_mafia_players (gs : GameState) : list Player :=
  filter (fun p => Role_eqb (role p) MAFIA && is_alive p) (players gs).

Definition get_village_players (gs : GameState) : list Player :=
  filter (fun p => negb (Role_eqb (role p) MAFIA) && is_alive p) (players gs).

Definition check_win_condition (gs : GameState) : option string :=
  let mafia_alive := List.length (get_mafia_players gs) in
  let village_alive := List.length (get_village_players gs) in
  let total_alive := mafia_alive + village_alive in
  if mafia_alive =? 0 then Some "village"
  else if village_alive <? mafia_alive then Some "mafia"
  else if mafia_alive =? village_alive then
    if total_alive =? 2 then
      let village_players := get_village_players gs in
      match village_players with
      | [remaining_villager] =>
          if Role_eqb (role remaining_villager) DOCTOR then Some "tie"
          else Some "mafia"
      | _ => None
      end
    else if (total_alive =? 4) && (mafia_alive =? 2) then
      let village_players := get_village_players gs in
      let has_doctor := existsb (fun p => Role_eqb (role p) DOCTOR) village_players in
      if negb has_doctor then Some "mafia" else None
    else None
  else None.

(** Field assignments [gs.f = v]. *)

Definition set_players (gs : GameState) (v : list Player) : GameState :=
  mkGameState v (phase gs) (round_number gs) (alive_players gs) (dead_players gs) (mafia_members gs) (mafia_target gs) (doctor_save gs) (detective_check gs) (detective_results gs) (discussion_messages gs) (votes gs) (vote_counts gs) (suspects_on_trial gs) (action_history gs) (elimination_history gs) (player_night_actions gs) (voting_history gs) (winner gs).

Definition set_phase (gs : GameState) (v : GamePhase) : GameState :=
  mkGameState (players gs) v (round_number gs) (alive_players gs) (dead_players gs) (mafia_members gs) (mafia_target gs) (doctor_save gs) (detective_check gs) (detective_results gs) (discussion_messages gs) (votes gs) (vote_counts gs) (suspects_on_trial gs) (action_history gs) (elimination_history gs) (player_night_actions gs) (voting_history gs) (winner gs).

Definition set_alive_players (gs : GameState) (v : list string) : GameState :=
  mkGameState (players gs) (phase gs) (round_number gs) v (dead_players gs) (mafia_members gs) (mafia_target gs) (doctor_save gs) (detective_check gs) (detective_results gs) (discussion_messages gs) (votes gs) (vote_counts gs) (suspects_on_trial gs) (action_history gs) (elimination_history gs) (player_night_actions gs) (voting_history gs) (winner gs).

Definition set_dead_players (gs : GameState) (v : list string) : GameState :=
  mkGameState (players gs) (phase gs) (round_number gs) (alive_players gs) v (mafia_members gs) (mafia_target gs) (doctor_save gs) (detective_check gs) (detective_results gs) (discussion_messages gs) (votes gs) (vote_counts gs) (suspects_on_trial gs) (action_history gs) (elimination_history gs) (player_night_actions gs) (voting_history gs) (winner gs).

Definition set_mafia_target (gs : GameState) (v : option string) : GameState :=
  mkGameState (players gs) (phase gs) (round_number gs) (alive_players gs) (dead_players gs) (mafia_members gs) v (doctor_save gs) (detective_check gs) (detective_results gs) (discussion_messages gs) (votes gs) (vote_counts gs) (suspects_on_trial gs) (action_history gs) (elimination_history gs) (player_night_actions gs) (voting_history gs) (winner gs).

Definition set_doctor_save (gs : GameState) (v : option string) : GameState :=
  mkGameState (players gs) (phase gs) (round_number gs) (alive_players gs) (dead_players gs) (mafia_members gs) (mafia_target gs) v (detective_check gs) (detective_results gs) (discussion_messages gs) (votes gs) (vote_counts gs) (suspects_on_trial gs) (action_history gs) (elimination_history gs) (player_night_actions gs) (voting_history gs) (winner gs).

Definition set_detective_check (gs : GameState) (v : option string) : GameState :=
  mkGameState (players gs) (phase gs) (round_number gs) (alive_players gs) (dead_players gs) (mafia_members gs) (mafia_target gs) (doctor_save gs) v (detective_results gs) (discussion_messages gs) (votes gs) (vote_counts gs) (suspects_on_trial gs) (action_history gs) (elimination_history gs) (player_night_actions gs) (voting_history gs) (winner gs).

Definition set_detective_results (gs : GameState) (v : dict string) : GameState :=
  mkGameState (players gs) (phase gs) (round_number gs) (alive_players gs) (dead_players gs) (mafia_members gs) (mafia_target gs) (doctor_save gs) (detective_check gs) v (discussion_messages gs) (votes gs) (vote_counts gs) (suspects_on_trial gs) (action_history gs) (elimination_history gs) (player_night_actions gs) (voting_history gs) (winner gs).

Definition set_discussion_messages (gs : GameState) (v : list GameAction) : GameState :=
  mkGameState (players gs) (phase gs) (round_number gs) (alive_players gs) (dead_players gs) (mafia_members gs) (mafia_target gs) (doctor_save gs) (detective_check gs) (detective_results gs) v (votes gs) (vote_counts gs) (suspects_on_trial gs) (action_history gs) (elimination_history gs) (player_night_actions gs) (voting_history gs) (winner gs).

Definition set_votes (gs : GameState) (v : dict string) : GameState :=
  mkGameState (players gs) (phase gs) (round_number gs) (alive_players gs) (dead_players gs) (mafia_members gs) (mafia_target gs) (doctor_save gs) (detective_check gs) (detective_results gs) (discussion_messages gs) v (vote_counts gs) (suspects_on_trial gs) (action_history gs) (elimination_history gs) (player_night_actions gs) (voting_history gs) (winner gs).

Definition set_vote_counts (gs : GameState) (v : dict nat) : GameState :=
  mkGameState (players gs) (phase gs) (round_number gs) (alive_players gs) (dead_players gs) (mafia_members gs) (mafia_target gs) (doctor_save gs) (detective_check gs) (detective_results gs) (discussion_messages gs) (votes gs) v (suspects_on_trial gs) (action_history gs) (elimination_history gs) (player_night_actions gs) (voting_history gs) (winner gs).

Definition set_suspects_on_trial (gs : GameState) (v : list string) : GameState :=
  mkGameState (players gs) (phase gs) (round_number gs) (alive_players gs) (dead_players gs) (mafia_members gs) (mafia_target gs) (doctor_save gs) (detective_check gs) (detective_results gs) (discussion_messages gs) (votes gs) (vote_counts gs) v (action_history gs) (elimination_history gs) (player_night_actions gs) (voting_history gs) (winner gs).

Definition set_action_history (gs : GameState) (v : list GameAction) : GameState :=
  mkGameState (players gs) (phase gs) (round_number gs) (alive_players gs) (dead_players gs) (mafia_members gs) (mafia_target gs) (doctor_save gs) (detective_check gs) (detective_results gs) (discussion_messages gs) (votes gs) (vote_counts gs) (suspects_on_trial gs) v (elimination_history gs) (player_night_actions gs) (voting_history gs) (winner gs).

Definition set_elimination_history (gs : GameState) (v : list string) : GameState :=
  mkGameState (players gs) (phase gs) (round_number gs) (alive_players gs) (dead_players gs) (mafia_members gs) (mafia_target gs) (doctor_save gs) (detective_check gs) (detective_results gs) (discussion_messages gs) (votes gs) (vote_counts gs) (suspects_on_trial gs) (action_history gs) v (player_night_actions gs) (voting_history gs) (winner gs).

Definition set_player_night_actions (gs : GameState) (v : dict (list NightActionRecord)) : GameState :=
  mkGameState (players gs) (phase gs) (round_number gs) (alive_players gs) (dead_players gs) (mafia_members gs) (mafia_target gs) (doctor_save gs) (detective_check gs) (detective_results gs) (discussion_messages gs) (votes gs) (vote_counts gs) (suspects_on_trial gs) (action_history gs) (elimination_history gs) v (voting_history gs) (winner gs).

Definition set_voting_history (gs : GameState) (v : list VotingRound) : GameState :=
  mkGameState (players gs) (phase gs) (round_number gs) (alive_players gs) (dead_players gs) (mafia_members gs) (mafia_target gs) (doctor_save gs) (detective_check gs) (detective_results gs) (discussion_messages gs) (votes gs) (vote_counts gs) (suspects_on_trial gs) (action_history gs) (elimination_history gs) (player_night_actions gs) v (winner gs).

Definition set_winner (gs : GameState) (v : option string) : GameState :=
  mkGameState (players gs) (phase gs) (round_number gs) (alive_players gs) (dead_players gs) (mafia_members gs) (mafia_target gs) (doctor_save gs) (detective_check gs) (detective_results gs) (discussion_messages gs) (votes gs) (vote_counts gs) (suspects_on_trial gs) (action_history gs) (elimination_history gs) (player_night_actions gs) (voting_history gs) v.

Definition set_is_alive (p : Player) (v : bool) : Player :=
  mkPlayer (name p) (personality p) (role p) v (votes_received p).

Definition set_votes_received (p : Player) (v : nat) : Player :=
  mkPlayer (name p) (personality p) (role p) (is_alive p) v.

(** [reset_votes] *)
Definition reset_votes (gs : GameState) : GameState :=
  set_players (set_vote_counts (set_votes gs []) [])
    (map (fun player => set_votes_received player 0) (players gs)).

(** ** Python values the orchestrator handles *)

(** The outcome of a call that may raise. *)
Inductive result (A : Type) : Type :=
  | Ok (a : A)
  | Raise (exc : string).
Arguments Raise {A} exc.

Definition bind {A B : Type} (r : result A) (k : A -> result B) : result B :=
  match r with
  | Ok a => k a
  | Raise e => Raise e
  end.

Notation "x <- r ;; k" := (bind r (fun x => k))
  (at level 61, r at next level, right associativity).

Definition str_of_nat (n : nat) : string := NilZero.string_of_uint (Nat.to_uint n).

(** [sep.join(l)] *)
Fixpoint join (sep : string) (l : list string) : string :=
  match l with
  | [] => EmptyString
  | [x] => x
  | x :: l' => x ++ sep ++ join sep l'
  end.

(** [x in l] for a list of strings. *)
Definition str_in (x : string) (l : list string) : bool := existsb (String.eqb x) l.

(** [a == b] on [Optional[str]] values. *)
Definition opt_str_eqb (a b : option string) : bool :=
  match a, b with
  | None, None => true
  | Some x, Some y => String.eqb x y
  | _, _ => false
  end.

(** [l.remove(x)]: drops the first occurrence, [ValueError] when there is none. *)
Fixpoint list_remove (l : list string) (x : string) : option (list string) :=
  match l with
  | [] => None
  | y :: l' =>
      if String.eqb y x then Some l'
      else match list_remove l' x with
           | Some r => Some (y :: r)
           | None => None
           end
  end.

(** ** game_orchestrator.py *)

(** What [_player_announce] and [_observer_info] print, in the order printed. *)
Inductive LogEntry : Type :=
  | Announce (msg : string)
  | Observer (msg : string).

(** The fields of [GameOrchestrator] the phases read or write.  The files of the
    game log directory and [_log_agent_context], which only write to them, are
    left out. *)
Record GameOrchestrator : Type := mkGameOrchestrator {
  game_state : GameState;
  max_discussion_rounds : nat;
  observer_mode : bool;
  observer_only : bool;
  speaking_counts : dict nat;
  console : list LogEntry
}.

Definition with_game_state (o : GameOrchestrator) (gs : GameState) : GameOrchestrator :=
  mkGameOrchestrator gs (max_discussion_rounds o) (observer_mode o) (observer_only o)
    (speaking_counts o) (console o).

Definition with_speaking_counts (o : GameOrchestrator) (c : dict nat) : GameOrchestrator :=
  mkGameOrchestrator (game_state o) (max_discussion_rounds o) (observer_mode o)
    (observer_only o) c (console o).

Definition with_console (o : GameOrchestrator) (c : list LogEntry) : GameOrchestrator :=
  mkGameOrchestrator (game_state o) (max_discussion_rounds o) (observer_mode o)
    (observer_only o) (speaking_counts o) c.

Definition _player_announce (o : GameOrchestrator) (msg : string) : GameOrchestrator :=
  if negb (observer_only o) then with_console o (console o ++ [Announce msg]) else o.

Definition _observer_info (o : GameOrchestrator) (msg : string) : GameOrchestrator :=
  if observer_mode o then with_console o (console o ++ [Observer msg]) else o.

(** The announcements among the printed lines. *)
Definition announcements (c : list LogEntry) : list string :=
  flat_map (fun e => match e with Announce m => [m] | Observer _ => [] end) c.

(** [_add_action]; the timestamp of the action is not modelled. *)
Definition _add_action (o : GameOrchestrator) (action_type message : string)
  : GameOrchestrator :=
  let gs := game_state o in
  let action := mkGameAction "Game" action_type None (Some message) (round_number gs) in
  with_game_state o (set_action_history gs (action_history gs ++ [action])).

(** [player.is_alive = False] on the player [get_player_by_name] returns. *)
Fixpoint mark_dead (ps : list Player) (n : string) : list Player :=
  match ps with
  | [] => []
  | p :: ps' =>
      if String.eqb (name p) n then set_is_alive p false :: ps'
      else p :: mark_dead ps' n
  end.

Definition _eliminate_player (o : GameOrchestrator) (player_name : string)
  : result GameOrchestrator :=
  let gs := game_state o in
  match get_player_by_name gs player_name with
  | Some _ =>
      let gs := set_players gs (mark_dead (players gs) player_name) in
      match list_remove (alive_players gs) player_name with
      | None => Raise "ValueError"
      | Some alive =>
          let gs := set_alive_players gs alive in
          let gs := set_dead_players gs (dead_players gs ++ [player_name]) in
          let gs := set_elimination_history gs (elimination_history gs ++ [player_name]) in
          Ok (_add_action (with_game_state o gs) "elimination"
                (player_name ++ " was eliminated"))
      end
  | None => Ok o
  end.

Definition _track_player_night_action (o : GameOrchestrator)
    (player_name action_type : string) (target reason : JsonValue) : GameOrchestrator :=
  let gs := game_state o in
  let earlier := dict_get_default (player_night_actions gs) player_name [] in
  let action_record := mkNightActionRecord (round_number gs) action_type target reason in
  with_game_state o
    (set_player_night_actions gs
       (dict_set (player_night_actions gs) player_name (earlier ++ [action_record])%list)).

(** The dictionary [make_night_decision] returns, read through the two keys the
    orchestrator looks up; a key that is absent is [None].  The agents return
    what [json.loads] made of the answer of the language model, so a key may
    hold null as well as a string. *)
Record NightDict : Type := mkNightDict {
  nd_target : option JsonValue;
  nd_reason : option JsonValue
}.

(** [Counter(l)]: counts in the order the elements are first met. *)
Definition counter_add (c : dict nat) (x : string) : dict nat :=
  dict_set c x (dict_get_default c x 0 + 1).

Section Counting.

(** The keys of the counter, with their [==]. *)
Variable K : Type.
Variable K_eqb : K -> K -> bool.

Fixpoint count_of (c : list (K * nat)) (k : K) : nat :=
  match c with
  | [] => 0
  | (k', n) :: c' => if K_eqb k' k then n else count_of c' k
  end.

(** [c[k] = n]: an existing key keeps its position, a new key goes last. *)
Fixpoint set_count (c : list (K * nat)) (k : K) (n : nat) : list (K * nat) :=
  match c with
  | [] => [(k, n)]
  | (k', n') :: c' =>
      if K_eqb k' k then (k', n) :: c' else (k', n') :: set_count c' k n
  end.

(** [Counter(l)] *)
Definition Counter (l : list K) : list (K * nat) :=
  fold_left (fun c x => set_count c x (count_of c x + 1)) l [].

(** [max(items, key=count)]: the first item among those of the largest count. *)
Fixpoint max_by_count (best : K * nat) (rest : list (K * nat)) : K * nat :=
  match rest with
  | [] => best
  | item :: rest' =>
      if snd best <? snd item then max_by_count item rest'
      else max_by_count best rest'
  end.

(** [most_common(1)] *)
Definition most_common_1 (c : list (K * nat)) : list (K * nat) :=
  match c with
  | [] => []
  | item :: rest => [max_by_count item rest]
  end.

End Counting.

Section NightPhase.

(** [agent.make_night_decision(game_state)] of the agent of that name: what
    the collaborator answers, or the exception it raises. *)
Variable make_night_decision : string -> GameState -> result (option NightDict).

Definition proposals_t : Type := dict (JsonValue * JsonValue).

(** [decision.get('reason', 'No reason given')] *)
Definition reason_or_default (d : NightDict) : JsonValue :=
  match nd_reason d with Some r => r | None => JString "No reason given" end.

Fixpoint collect_proposals (mafia_agents : list string) (o : GameOrchestrator)
    (proposals : proposals_t) : result (GameOrchestrator * proposals_t) :=
  match mafia_agents with
  | [] => Ok (o, proposals)
  | agent :: rest =>
      decision <- make_night_decision agent (game_state o) ;;
      match decision with
      | Some d =>
          match nd_target d with
          | Some target =>
              let reason := reason_or_default d in
              let proposals := dict_set proposals agent (target, reason) in
              let o := _observer_info o
                ("  " ++ agent ++ " proposes: " ++ str_of_json target
                   ++ " (" ++ str_of_json reason ++ ")") in
              let o := _track_player_night_action o agent "mafia_propose" target reason in
              collect_proposals rest o proposals
          | None => collect_proposals rest o proposals
          end
      | None => collect_proposals rest o proposals
      end
  end.

Definition proposed_targets (proposals : proposals_t) : list JsonValue :=
  map (fun p => fst (snd p)) proposals.

Definition _mafia_night_action (o : GameOrchestrator) : result GameOrchestrator :=
  let gs := game_state o in
  let mafia_agents :=
    filter (fun n => str_in n (alive_players gs)) (mafia_members gs) in
  match mafia_agents with
  | [] => Ok o
  | _ :: _ =>
      let o := _observer_info o "🔪 Mafia discussing elimination..." in
      collected <- collect_proposals mafia_agents o [] ;;
      let (o, proposals) := collected in
      match proposals with
      | [] => Ok o
      | _ :: _ =>
          let target_votes := Counter JsonValue_eqb (proposed_targets proposals) in
          match most_common_1 target_votes with
          | (target, _) :: _ =>
              let o := with_game_state o
                (set_mafia_target (game_state o) (json_to_optional target)) in
              Ok (_observer_info o
                    ("  🎯 Mafia consensus: Eliminate " ++ str_of_json target))
          | [] => Ok o
          end
      end
  end.

(** The agents of a role whose names are in [alive_players], in the order of
    [agents], which is the order of [players]. *)
Definition alive_agents_of_role (gs : GameState) (r : Role) : list Player :=
  filter (fun p => Role_eqb (role p) r && str_in (name p) (alive_players gs)) (players gs).

Definition _doctor_night_action (o : GameOrchestrator) : result GameOrchestrator :=
  match alive_agents_of_role (game_state o) DOCTOR with
  | [] => Ok o
  | doctor :: _ =>
      decision <- make_night_decision (name doctor) (game_state o) ;;
      match decision with
      | Some d =>
          match nd_target d with
          | Some target =>
              let o := with_game_state o
                (set_doctor_save (game_state o) (json_to_optional target)) in
              let reason := reason_or_default d in
              let o := _observer_info o
                ("🏥 Doctor saves: " ++ str_of_json target
                   ++ " (" ++ str_of_json reason ++ ")") in
              Ok (_track_player_night_action o (name doctor) "doctor_save" target reason)
          | None => Ok o
          end
      | None => Ok o
      end
  end.

Definition _detective_night_action (o : GameOrchestrator) : result GameOrchestrator :=
  match alive_agents_of_role (game_state o) DETECTIVE with
  | [] => Ok o
  | detective :: _ =>
      decision <- make_night_decision (name detective) (game_state o) ;;
      match decision with
      | Some d =>
          match nd_target d with
          | Some target =>
              let gs := set_detective_check (game_state o) (json_to_optional target) in
              let o := with_game_state o gs in
              match target with
              | JString target_name =>
                  match get_player_by_name gs target_name with
                  | Some target_player =>
                      let found := Role_value (role target_player) in
                      let gs := set_detective_results gs
                                  (dict_set (detective_results gs) target_name found) in
                      let o := with_game_state o gs in
                      let o := _observer_info o
                        ("🔍 Detective investigates: " ++ target_name
                           ++ " (Role: " ++ found ++ ")") in
                      let reason := reason_or_default d in
                      Ok (_track_player_night_action o (name detective)
                            "detective_investigate" target
                            (JString (str_of_json reason ++ " (found: " ++ found ++ ")")))
                  | None => Ok o
                  end
              | JNull => Ok o  (* [get_player_by_name(None)] finds nobody *)
              end
          | None => Ok o
          end
      | None => Ok o
      end
  end.

Definition _resolve_night_actions (o : GameOrchestrator) : result GameOrchestrator :=
  let gs := game_state o in
  resolved <-
    (if opt_truthy (mafia_target gs) then
       match mafia_target gs with
       | Some target =>
           if opt_str_eqb (mafia_target gs) (doctor_save gs) then
             let o := _player_announce o "🌅 No one was eliminated during the night" in
             let o := _observer_info o
               ("Doctor's save prevented " ++ target ++ " from being eliminated") in
             Ok (_add_action o "night_save" (target ++ " was saved from elimination"), None)
           else
             let eliminated := target in
             o <- _eliminate_player o eliminated ;;
             let o := _player_announce o
               ("💀 " ++ eliminated ++ " was eliminated during the night") in
             let o := _observer_info o ("Mafia successfully eliminated " ++ eliminated) in
             Ok (o, Some eliminated)
       | None => Ok (o, None)
       end
     else Ok (o, None)) ;;
  let (o, eliminated) := resolved : GameOrchestrator * option string in
  Ok (_add_action o "night_summary"
        ("Night " ++ str_of_nat (round_number (game_state o)) ++ " completed. " ++
         (if opt_truthy eliminated
          then match eliminated with Some e => e | None => EmptyString end ++ " eliminated"
          else "No one eliminated"))).

Definition _run_night_phase (o : GameOrchestrator) : result GameOrchestrator :=
  let gs := set_phase (game_state o) NIGHT in
  let gs := set_mafia_target gs None in
  let gs := set_doctor_save gs None in
  let gs := set_detective_check gs None in
  let o := with_game_state o gs in
  o <- _mafia_night_action o ;;
  o <- _doctor_night_action o ;;
  o <- _detective_night_action o ;;
  _resolve_night_actions o.

End NightPhase.

(** ** role_agents.py: [vote]

    The four agent classes share the body of [vote]; only the prompt differs. *)

Record VoteDecision : Type := mkVoteDecision {
  vd_target : string;
  vd_reason : string
}.

(** [str.lower()] on the ASCII letters; other bytes are kept. *)
Definition ascii_lower (c : ascii) : ascii :=
  let n := nat_of_ascii c in
  if (65 <=? n) && (n <=? 90) then ascii_of_nat (n + 32) else c.

Fixpoint lower (s : string) : string :=
  match s with
  | EmptyString => EmptyString
  | String c s' => String (ascii_lower c) (lower s')
  end.

(** [needle in hay] on strings. *)
Fixpoint str_contains (needle hay : string) : bool :=
  if String.prefix needle hay then true
  else match hay with
       | EmptyString => false
       | String _ hay' => str_contains needle hay'
       end.

(** The loop [for candidate in candidates: if candidate.lower() in
    target.lower(): target = candidate; break], started from [fallback]. *)
Fixpoint closest_match (candidates : list string) (returned fallback : string) : string :=
  match candidates with
  | [] => fallback
  | candidate :: rest =>
      if str_contains (lower candidate) (lower returned) then candidate
      else closest_match rest returned fallback
  end.

(** What [vote] returns for the decision the language model gave:
    [candidates[0]] raises [IndexError] on an empty list. *)
Definition agent_vote (vote_decision : VoteDecision) (candidates : list string)
  : result VoteDecision :=
  if negb (str_in (vd_target vote_decision) candidates) then
    match candidates with
    | [] => Raise "IndexError"
    | first :: _ =>
        Ok (mkVoteDecision (closest_match candidates (vd_target vote_decision) first)
              (vd_reason vote_decision))
    end
  else Ok vote_decision.

(** ** game_orchestrator.py: the voting phase *)

(** What [agent.vote] hands to the orchestrator: a dictionary, or in the old
    format the bare target. *)
Inductive VoteResult : Type :=
  | VoteDict (target reason : string)
  | VoteStr (target : string).

(** [vote] of a role agent, from what the language model answers to its
    prompt: the dictionary [{"target": ..., "reason": ...}] it returns. *)
Definition role_agent_vote
    (generate : string -> GameState -> list string -> VoteDecision)
    (agent_name : string) (gs : GameState) (candidates : list string)
  : result VoteResult :=
  d <- agent_vote (generate agent_name gs candidates) candidates ;;
  Ok (VoteDict (vd_target d) (vd_reason d)).

(** [agent.role.value] for the agent of that name.  Agents are looked up by
    the names of players only, so the lookup cannot miss; the empty string
    stands for the [KeyError] that cannot happen. *)
Definition agent_role_value (gs : GameState) (n : string) : string :=
  match get_player_by_name gs n with
  | Some p => Role_value (role p)
  | None => EmptyString
  end.

(** [repr] of a list of names as an f-string prints it (quotes inside a name
    are not escaped here). *)
Definition list_repr (l : list string) : string :=
  "[" ++ join ", " (map (fun s => "'" ++ s ++ "'") l) ++ "]".

(** [votes[voter] = target] with the tally and the reason of the vote. *)
Definition tally_vote (o : GameOrchestrator) (voter target : string) : GameOrchestrator :=
  let gs := game_state o in
  let gs := set_votes gs (dict_set (votes gs) voter target) in
  let gs := set_vote_counts gs (counter_add (vote_counts gs) target) in
  with_game_state o gs.

(** The names with the most votes, in the order of [vote_counts]. *)
Definition max_votes_of (vote_counts : dict nat) : nat :=
  fold_right Nat.max 0 (dict_values vote_counts).

Definition suspects_of (vote_counts : dict nat) : list string :=
  map fst (filter (fun item => snd item =? max_votes_of vote_counts) vote_counts).

(** [player.votes_received += 1] on the player [get_player_by_name] returns. *)
Fixpoint bump_votes_received (ps : list Player) (n : string) : list Player :=
  match ps with
  | [] => []
  | p :: ps' =>
      if String.eqb (name p) n then set_votes_received p (votes_received p + 1) :: ps'
      else p :: bump_votes_received ps' n
  end.

(** How one voting round ends: with the player [_run_final_voting] returned
    when [if eliminated:] holds, with what it returned when not, with the tie of
    the initial vote, or with no vote cast. *)
Inductive RoundOutcome : Type :=
  | Eliminated (player : string)
  | NotEliminated (returned : option string)
  | InitialTie (suspects : list string)
  | NoVotes.

Section VotingPhase.

(** [agent.vote(game_state, candidates)] of the agent of that name. *)
Variable vote : string -> GameState -> list string -> result VoteResult.

(** [agent.defend_self(game_state)]. *)
Variable defend_self : string -> GameState -> result string.

(** [agent.llm.generate_structured_response(prompt, VoteDecision)] in the final
    vote: the prompt is built from the agent, the state, the suspect and the
    candidates. *)
Variable final_vote_decision :
  string -> GameState -> string -> list string -> result VoteDecision.

Definition candidates_of (alive_players : list string) (agent_name : string) : list string :=
  filter (fun p => negb (String.eqb p agent_name)) alive_players.

(** The state carried through the [for] loop of a voting round. *)
Record Ballot : Type := mkBallot {
  b_orch : GameOrchestrator;
  b_vote_reasons : dict string;
  b_records : list VoteRecord
}.

Definition record_initial_vote (b : Ballot) (agent_name vote_target vote_reason : string)
  : Ballot :=
  let o := tally_vote (b_orch b) agent_name vote_target in
  let o := _player_announce o
    ("  " ++ agent_name ++ " votes for " ++ vote_target ++ ": " ++ vote_reason) in
  let o := _observer_info o
    (agent_name ++ " (" ++ agent_role_value (game_state o) agent_name ++ ") votes for "
       ++ vote_target ++ ": " ++ vote_reason) in
  mkBallot o (dict_set (b_vote_reasons b) agent_name vote_reason)
    (b_records b ++ [mkVoteRecord agent_name (Some vote_target) vote_reason]).

(** The body of the loop over the voters of an initial vote. *)
Definition cast_initial_vote (alive_players : list string) (b : Ballot)
    (agent_name : string) : result Ballot :=
  let candidates := candidates_of alive_players agent_name in
  vote_result <- vote agent_name (game_state (b_orch b)) candidates ;;
  let (vote_target, vote_reason) :=
    match vote_result with
    | VoteDict target reason => (target, reason)
    | VoteStr target => (target, "No reason given")
    end in
  if str_in vote_target candidates then
    Ok (record_initial_vote b agent_name vote_target vote_reason)
  else if String.eqb vote_target agent_name then
    match candidates with
    | fallback_target :: _ =>
        if str_truthy fallback_target then
          Ok (record_initial_vote b agent_name fallback_target
                ("Cannot vote for self, voting " ++ fallback_target ++ " instead"))
        else Ok b
    | [] => Ok b
    end
  else Ok b.

Fixpoint cast_initial_votes (alive_players voters : list string) (b : Ballot)
  : result Ballot :=
  match voters with
  | [] => Ok b
  | agent_name :: rest =>
      b <- cast_initial_vote alive_players b agent_name ;;
      cast_initial_votes alive_players rest b
  end.

Definition _run_defense_phase (o : GameOrchestrator) (suspect : string)
  : result (GameOrchestrator * string) :=
  let o := with_game_state o (set_phase (game_state o) DAY_DEFENSE) in
  let o := _player_announce o
    (String (ascii_of_nat 10) "🛡️ Defense Phase - " ++ suspect ++ " defends themselves:") in
  let o := _observer_info o EmptyString in
  let o := _observer_info o (suspect ++ " defense phase starting") in
  defense <- defend_self suspect (game_state o) ;;
  let o := _player_announce o ("  " ++ suspect ++ ": " ++ defense) in
  let o := _observer_info o
    (suspect ++ " (" ++ agent_role_value (game_state o) suspect ++ ") defense: " ++ defense) in
  Ok (_add_action o "defense" (suspect ++ " defended: " ++ defense), defense).

(** [str(vote_target)] in an f-string. *)
Definition str_of_target (t : option string) : string :=
  match t with Some s => s | None => "None" end.

(** The body of the loop over the voters of the final vote. *)
Definition cast_final_vote (suspect : string) (alive_players : list string) (b : Ballot)
    (agent_name : string) : result Ballot :=
  let candidates := candidates_of alive_players agent_name in
  vote_decision <-
    final_vote_decision agent_name (game_state (b_orch b)) suspect candidates ;;
  let (vote_target, reason) :=
    if str_in (vd_target vote_decision) candidates then
      (Some (vd_target vote_decision), vd_reason vote_decision)
    else if String.eqb (vd_target vote_decision) agent_name then
      let vote_target := hd_error candidates in
      (vote_target, "Cannot vote for self, voting " ++ str_of_target vote_target ++ " instead")
    else
      (match candidates with
       | [] => None
       | first :: _ => Some (closest_match candidates (vd_target vote_decision) first)
       end, vd_reason vote_decision) in
  let o := b_orch b in
  let (o, vote_reasons) :=
    if opt_truthy vote_target then
      match vote_target with
      | Some t => (tally_vote o agent_name t, dict_set (b_vote_reasons b) agent_name reason)
      | None => (o, b_vote_reasons b)
      end
    else (o, b_vote_reasons b) in
  let o :=
    match vote_target with
    | Some t =>
        match get_player_by_name (game_state o) t with
        | Some _ =>
            with_game_state o
              (set_players (game_state o) (bump_votes_received (players (game_state o)) t))
        | None => o
        end
    | None => o
    end in
  let o := _player_announce o
    ("  " ++ agent_name ++ " votes for " ++ str_of_target vote_target ++ ": " ++ reason) in
  let o := _observer_info o
    (agent_name ++ " (" ++ agent_role_value (game_state o) agent_name ++ ") votes for "
       ++ str_of_target vote_target ++ ": " ++ reason) in
  Ok (mkBallot o vote_reasons (b_records b ++ [mkVoteRecord agent_name vote_target reason])).

Fixpoint cast_final_votes (suspect : string) (alive_players voters : list string)
    (b : Ballot) : result Ballot :=
  match voters with
  | [] => Ok b
  | agent_name :: rest =>
      b <- cast_final_vote suspect alive_players b agent_name ;;
      cast_final_votes suspect alive_players rest b
  end.

(** [_run_final_voting]: the orchestrator after it, the final votes it appended
    to the round's record, and the player it returns. *)
Definition _run_final_voting (o : GameOrchestrator) (suspect : string)
    (alive_players : list string)
  : result (GameOrchestrator * list VoteRecord * option string) :=
  let nl := String (ascii_of_nat 10) EmptyString in
  let o := with_game_state o (set_phase (game_state o) DAY_FINAL_VOTING) in
  let o := _player_announce o
    (nl ++ "🗳️ Final Vote - After hearing " ++ suspect ++ "'s defense") in
  let o := _player_announce o
    "You may vote for the same person or change your vote based on the defense." in
  let o := _observer_info o EmptyString in
  let o := _observer_info o ("Final voting phase after " ++ suspect ++ "'s defense") in
  let o := with_game_state o (reset_votes (game_state o)) in
  b <- cast_final_votes suspect alive_players alive_players (mkBallot o [] []) ;;
  let o := b_orch b in
  let vote_counts := vote_counts (game_state o) in
  match vote_counts with
  | _ :: _ =>
      let max_votes := max_votes_of vote_counts in
      let suspects := suspects_of vote_counts in
      match suspects with
      | [eliminated_player] =>
          o <- _eliminate_player o eliminated_player ;;
          let o := _player_announce o
            (nl ++ "💀 " ++ eliminated_player ++ " is eliminated with "
               ++ str_of_nat max_votes ++ " votes!") in
          let o := _observer_info o
            (eliminated_player ++ " eliminated in final vote ("
               ++ agent_role_value (game_state o) eliminated_player ++ ")") in
          Ok (o, b_records b, Some eliminated_player)
      | _ =>
          let o := _player_announce o
            (nl ++ "🤝 Final vote tied between: " ++ join ", " suspects ++ " with "
               ++ str_of_nat max_votes ++ " votes each") in
          let o := _player_announce o "No one is eliminated due to the tie." in
          let o := _observer_info o
            ("Final vote tied: " ++ list_repr suspects ++ " with "
               ++ str_of_nat max_votes ++ " votes each - no elimination") in
          Ok (o, b_records b, None)
      end
  | [] =>
      let o := _player_announce o (nl ++ "No votes cast in final round - no elimination.") in
      let o := _observer_info o "No votes in final round" in
      Ok (o, b_records b, None)
  end.

(** The lines shown to the suspect: the reasons of those who voted for them. *)
Definition reasons_for_suspect (gs : GameState) (vote_reasons : dict string)
    (suspect : string) : list string :=
  map (fun item => fst item ++ ": " ++ snd item)
    (filter (fun item => opt_str_eqb (dict_get (votes gs) (fst item)) (Some suspect))
       vote_reasons).

(** One pass through the body of [while voting_round <= 3], up to the point
    where the loop returns or goes on to [voting_round += 1]. *)
Definition voting_round_body (o : GameOrchestrator) (alive_players : list string)
    (voting_round : nat) : result (GameOrchestrator * RoundOutcome) :=
  let nl := String (ascii_of_nat 10) EmptyString in
  let round := round_number (game_state o) in
  let o := _player_announce o
    (nl ++ "--- Voting Round " ++ str_of_nat voting_round ++ " ---") in
  let o := _observer_info o EmptyString in
  let o := _observer_info o ("Voting round " ++ str_of_nat voting_round ++ " starting") in
  let o := with_game_state o (reset_votes (game_state o)) in
  b <- cast_initial_votes alive_players alive_players (mkBallot o [] []) ;;
  let o := b_orch b in
  let vote_reasons := b_vote_reasons b in
  let vote_counts := vote_counts (game_state o) in
  match vote_counts with
  | _ :: _ =>
      let max_votes := max_votes_of vote_counts in
      let suspects := suspects_of vote_counts in
      let o := with_game_state o (set_suspects_on_trial (game_state o) suspects) in
      match suspects with
      | [suspect] =>
          let o := _player_announce o
            (nl ++ "⚖️ " ++ suspect ++ " receives the most votes ("
               ++ str_of_nat max_votes ++ ") and is on trial!") in
          let o := _observer_info o
            (suspect ++ " on trial with " ++ str_of_nat max_votes ++ " votes ("
               ++ agent_role_value (game_state o) suspect ++ ")") in
          let reasons := reasons_for_suspect (game_state o) vote_reasons suspect in
          let o :=
            match reasons with
            | [] => o
            | _ :: _ =>
                fold_left (fun o reason => _player_announce o ("  - " ++ reason)) reasons
                  (_player_announce o (nl ++ "Reasons for voting " ++ suspect ++ ":"))
            end in
          defended <- _run_defense_phase o suspect ;;
          let (o, defense) := defended : GameOrchestrator * string in
          final <- _run_final_voting o suspect alive_players ;;
          let '(o, final_votes, eliminated) :=
            final : GameOrchestrator * list VoteRecord * option string in
          if opt_truthy eliminated then
            let current_voting_round :=
              mkVotingRound round voting_round (b_records b) final_votes
                (Some suspect) (Some defense) None None eliminated in
            let gs := game_state o in
            Ok (with_game_state o
                  (set_voting_history gs (voting_history gs ++ [current_voting_round])),
                Eliminated (str_of_target eliminated))
          else Ok (o, NotEliminated eliminated)
      | _ =>
          let o := _player_announce o
            (nl ++ "🤝 Tie between: " ++ join ", " suspects ++ " with "
               ++ str_of_nat max_votes ++ " votes each") in
          let o := _observer_info o
            ("Tie in round " ++ str_of_nat voting_round ++ ": " ++ list_repr suspects
               ++ " with " ++ str_of_nat max_votes ++ " votes each") in
          let current_voting_round :=
            mkVotingRound round voting_round (b_records b) []
              None None (Some suspects) (Some max_votes) None in
          let gs := game_state o in
          let o := with_game_state o
            (set_voting_history gs (voting_history gs ++ [current_voting_round])) in
          if voting_round =? 3 then
            let o := _player_announce o
              "After 3 rounds of voting, still tied. No one is eliminated." in
            Ok (_observer_info o "No elimination due to 3-round tie", InitialTie suspects)
          else
            Ok (_player_announce o
                  ("Proceeding to voting round " ++ str_of_nat (voting_round + 1)),
                InitialTie suspects)
      end
  | [] => Ok (o, NoVotes)
  end.

(** [while voting_round <= 3], entered with [voting_round = 1]: [remaining] is
    [4 - voting_round], the number of passes still allowed. *)
Fixpoint voting_rounds (remaining voting_round : nat) (o : GameOrchestrator)
    (alive_players : list string) : result GameOrchestrator :=
  match remaining with
  | 0 =>
      let o := _player_announce o "No votes cast - no elimination." in
      Ok (_observer_info o "No votes cast in voting phase")
  | S remaining' =>
      pass <- voting_round_body o alive_players voting_round ;;
      let (o, outcome) := pass : GameOrchestrator * RoundOutcome in
      match outcome with
      | Eliminated _ => Ok o
      | InitialTie _ =>
          if voting_round =? 3 then Ok o
          else voting_rounds remaining' (voting_round + 1) o alive_players
      | NotEliminated _ | NoVotes =>
          voting_rounds remaining' (voting_round + 1) o alive_players
      end
  end.

Definition _run_voting_phase (o : GameOrchestrator) : result GameOrchestrator :=
  let nl := String (ascii_of_nat 10) EmptyString in
  let o := with_game_state o (set_phase (game_state o) DAY_VOTING) in
  let o := with_game_state o (reset_votes (game_state o)) in
  let o := _player_announce o (nl ++ "🗳️ Voting Phase") in
  let o := _observer_info o EmptyString in
  let o := _observer_info o "Starting voting phase" in
  let alive_players := map name (get_alive_players (game_state o)) in
  voting_rounds 3 1 o alive_players.

End VotingPhase.

(** ** game_orchestrator.py: the discussion phase *)

(** [structured_responses.DiscussionResponse]; the urgency is whatever integer
    the language model wrote. *)
Record DiscussionResponse : Type := mkDiscussionResponse {
  speak : bool;
  comment : string;
  urgency : Z
}.

(** What [participate_in_discussion] returns: [None], a [DiscussionResponse],
    or in the old format the comment itself. *)
Inductive Reply : Type :=
  | NoReply
  | Structured (response : DiscussionResponse)
  | Legacy (text : string).

(** A speaker of a round with the urgency after the frequency penalty. *)
Record SpeakingAgent : Type := mkSpeakingAgent {
  sa_agent : string;
  sa_response : DiscussionResponse;
  sa_adjusted : Q
}.

(** *** Python floats

    A Python float is an IEEE 754 binary64 number: a significand of 53 bits
    times a power of two.  [round_to_53_bits m] is the integer that the
    conversion of the integer [m] to a float gives before the range is
    checked: the bits below the 53 leading ones are dropped and the
    significand is rounded to the nearest, a tie to the even one. *)
Definition round_to_53_bits (m : Z) : Z :=
  (let a := Z.abs m in
   let dropped := Z.log2 a - 52 in
   if dropped <=? 0 then m
   else
     let significand := a / 2 ^ dropped in
     let rest := a mod 2 ^ dropped in
     let half := 2 ^ (dropped - 1) in
     let significand :=
       if (half <? rest) || ((rest =? half) && Z.odd significand)
       then significand + 1 else significand in
     Z.sgn m * (significand * 2 ^ dropped))%Z.

(** The conversion of an [int] operand of float arithmetic
    ([PyLong_AsDouble]): the rounded value, which is an integer, or
    [OverflowError] when it is not below [2 ** 1024]. *)
Definition float_of_int (n : Z) : result Z :=
  let x := round_to_53_bits n in
  if (2 ^ 1024 <=? Z.abs x)%Z
  then Raise "OverflowError"
  else Ok x.

(** [max(1, resp.urgency - speak_count * 0.5)].

    [speak_count * 0.5] converts the count to a float [c] and halves it, which
    is exact; [resp.urgency - frequency_penalty] converts the urgency to a
    float [u] and subtracts.  The exact difference is [(2 * u - c) / 2], and
    the float difference is that number rounded to 53 bits; rounding is the
    same at every power of two, so it is [round_to_53_bits (2 * u - c) / 2].
    The count is not negative, so the difference is not above [u]; a
    difference that is negative beyond the range of floats is minus infinity
    in Python and a large negative number here, and [max] gives 1 for
    both. *)
Definition adjusted_urgency (raw : Z) (speak_count : nat) : result Q :=
  c <- float_of_int (Z.of_nat speak_count) ;;
  u <- float_of_int raw ;;
  Ok (Qmax 1 (round_to_53_bits (2 * u - c)%Z # 2)).

(** [(x[2], random.random())] compared as Python compares tuples: [k1 >= k2]. *)
Definition key_geb (k1 k2 : Q * Q) : bool :=
  negb (Qle_bool (fst k1) (fst k2))
  || (Qeq_bool (fst k1) (fst k2) && Qle_bool (snd k2) (snd k1)).

(** [sort(key=..., reverse=True)]: descending, and items of equal keys keep
    the order they had. *)
Fixpoint insert_desc (x : SpeakingAgent * Q) (l : list (SpeakingAgent * Q))
  : list (SpeakingAgent * Q) :=
  match l with
  | [] => [x]
  | y :: l' =>
      if key_geb (sa_adjusted (fst x), snd x) (sa_adjusted (fst y), snd y)
      then x :: y :: l'
      else y :: insert_desc x l'
  end.

Definition sort_desc (l : list (SpeakingAgent * Q)) : list (SpeakingAgent * Q) :=
  fold_right insert_desc [] l.

(** The state of the [while] loop; [d_iterations] counts its passes. *)
Record Discussion : Type := mkDiscussion {
  d_orch : GameOrchestrator;
  total_rounds : nat;
  consecutive_silent_rounds : nat;
  d_iterations : nat
}.

Section DiscussionPhase.

(** [agent.participate_in_discussion(game_state)] in the given pass of the loop. *)
Variable participate_in_discussion : nat -> string -> GameState -> result Reply.

(** The order in which the futures of a pass complete. *)
Variable as_completed : nat -> list (string * Reply) -> list (string * Reply).

(** [random.random()]: the value drawn for the item at a position, in a pass. *)
Variable random : nat -> nat -> Q.

(** [get_agent_response] for each agent: an exception is logged and the
    response is [None]. *)
Fixpoint get_agent_responses (iteration : nat) (agents : list string) (gs : GameState)
    (o : GameOrchestrator) : GameOrchestrator * list (string * Reply) :=
  match agents with
  | [] => (o, [])
  | agent :: rest =>
      let (o, response) :=
        match participate_in_discussion iteration agent gs with
        | Ok response => (o, response)
        | Raise e =>
            (_observer_info o ("Error getting response from " ++ agent ++ ": " ++ e),
             NoReply)
        end in
      let (o, responses) := get_agent_responses iteration rest gs o in
      (o, (agent, response) :: responses)
  end.

(** The responses kept in [agent_responses]. *)
Definition accepted (completed : list (string * Reply))
  : list (string * DiscussionResponse) :=
  flat_map (fun item =>
    match snd item with
    | Structured response => [(fst item, response)]
    | Legacy text =>
        if str_truthy text then [(fst item, mkDiscussionResponse true text 3)] else []
    | NoReply => []
    end) completed.

(** The loop that fills [speaking_agents]; the float arithmetic of a speaking
    response may raise. *)
Fixpoint speaking_agents_of (speaking_counts : dict nat)
    (agent_responses : list (string * DiscussionResponse))
  : result (list SpeakingAgent) :=
  match agent_responses with
  | [] => Ok []
  | (agent, resp) :: rest =>
      if speak resp then
        let speak_count := dict_get_default speaking_counts agent 0 in
        adjusted <- adjusted_urgency (urgency resp) speak_count ;;
        speaking_agents <- speaking_agents_of speaking_counts rest ;;
        Ok (mkSpeakingAgent agent resp adjusted :: speaking_agents)
      else speaking_agents_of speaking_counts rest
  end.

(** The speakers with the value drawn for each, in list order. *)
Fixpoint with_draws (iteration position : nat) (l : list SpeakingAgent)
  : list (SpeakingAgent * Q) :=
  match l with
  | [] => []
  | x :: l' => (x, random iteration position) :: with_draws iteration (S position) l'
  end.

Definition ranked (iteration : nat) (speaking_agents : list SpeakingAgent)
  : list SpeakingAgent :=
  map fst (sort_desc (with_draws iteration 0 speaking_agents)).

(** One pass through the body of the [while] loop.  The exception of the
    float arithmetic is raised outside the [try] of [get_agent_response]. *)
Definition discussion_round (alive_agents : list string) (st : Discussion)
  : result Discussion :=
  let iteration := d_iterations st in
  let o := d_orch st in
  let (o, responses) := get_agent_responses iteration alive_agents (game_state o) o in
  let agent_responses := accepted (as_completed iteration responses) in
  speaking_agents <- speaking_agents_of (speaking_counts o) agent_responses ;;
  match ranked iteration speaking_agents with
  | [] =>
      let silent := consecutive_silent_rounds st + 1 in
      let o := if silent <? 3 then _player_announce o "..." else o in
      let o := _observer_info o
        ("No one chose to speak this round (silence #" ++ str_of_nat silent ++ ")") in
      Ok (mkDiscussion o (total_rounds st) silent (S iteration))
  | top :: _ =>
      let agent := sa_agent top in
      let response := sa_response top in
      let o := with_speaking_counts o (counter_add (speaking_counts o) agent) in
      let o := _player_announce o (agent ++ ": " ++ comment response) in
      let o := _observer_info o
        (agent ++ " (" ++ agent_role_value (game_state o) agent ++ "): " ++ comment response) in
      let gs := game_state o in
      let action := mkGameAction agent "discussion" None (Some (comment response))
                      (round_number gs) in
      let o := with_game_state o
        (set_discussion_messages gs (discussion_messages gs ++ [action])) in
      Ok (mkDiscussion o (total_rounds st + 1) 0 (S iteration))
  end.

(** [while total_rounds < max_total_rounds and consecutive_silent_rounds < 3];
    [None] when the fuel runs out before the loop ends, and the exception when
    a pass raises. *)
Fixpoint discussion_loop (fuel max_total_rounds : nat) (alive_agents : list string)
    (st : Discussion) : option (result Discussion) :=
  if (total_rounds st <? max_total_rounds) && (consecutive_silent_rounds st <? 3) then
    match fuel with
    | 0 => None
    | S fuel' =>
        match discussion_round alive_agents st with
        | Ok st => discussion_loop fuel' max_total_rounds alive_agents st
        | Raise e => Some (Raise e)
        end
    end
  else Some (Ok st).

Definition discussion_agents (gs : GameState) : list string :=
  filter (fun n => str_in n (alive_players gs)) (map name (players gs)).

(** The state in which [_run_discussion_phase] enters its loop. *)
Definition discussion_start (o : GameOrchestrator) : Discussion :=
  let o := _player_announce o (String (ascii_of_nat 10) EmptyString ++ "💬 Discussion Phase") in
  let counts := fold_left (fun d n => dict_set d n 0) (alive_players (game_state o)) [] in
  mkDiscussion (with_speaking_counts o counts) 0 0 0.

Definition _run_discussion_phase (fuel : nat) (o : GameOrchestrator)
  : option (result Discussion) :=
  let st := discussion_start o in
  let alive_agents := discussion_agents (game_state (d_orch st)) in
  let max_total_rounds := max_discussion_rounds o * List.length alive_agents in
  discussion_loop fuel max_total_rounds alive_agents st.

End DiscussionPhase.

(** ** llm_interface.py

    The texts of the interface are modelled on ASCII characters. *)

Definition newline : string := String (ascii_of_nat 10) EmptyString.

(** [c.isspace()] of an ASCII character: tab to carriage return, the four
    separators and the space. *)
Definition is_space (c : ascii) : bool :=
  let n := nat_of_ascii c in
  ((9 <=? n) && (n <=? 13)) || ((28 <=? n) && (n <=? 32)).

Fixpoint lstrip (s : string) : string :=
  match s with
  | EmptyString => EmptyString
  | String c s' => if is_space c then lstrip s' else s
  end.

Fixpoint rstrip (s : string) : string :=
  match s with
  | EmptyString => EmptyString
  | String c s' =>
      match rstrip s' with
      | EmptyString => if is_space c then EmptyString else String c EmptyString
      | String _ _ as kept => String c kept
      end
  end.

(** [s.strip()] *)
Definition strip (s : string) : string := rstrip (lstrip s).

(** [s.find(sub)]: the index of the first occurrence, [None] for -1. *)
Fixpoint str_find (sub s : string) : option nat :=
  if String.prefix sub s then Some 0
  else match s with
       | EmptyString => None
       | String _ s' => option_map S (str_find sub s')
       end.

(** [s[n:]] and [s[:n]] *)
Fixpoint drop (n : nat) (s : string) : string :=
  match n, s with
  | S n', String _ s' => drop n' s'
  | _, _ => s
  end.

Fixpoint take (n : nat) (s : string) : string :=
  match n, s with
  | S n', String c s' => String c (take n' s')
  | _, _ => EmptyString
  end.

(** The text that [generate_json_response] hands to [json.loads]: what stands
    between the fence [```json] and the next fence, stripped, when the answer
    has such a fence, and the whole answer otherwise.  Without a closing fence
    [find] gives -1, and the slice [json_start:-1] stops before the last
    character. *)
Definition json_text_of (response_text : string) : string :=
  match str_find "```json" response_text with
  | Some i =>
      let json_start := i + 7 in
      let rest := drop json_start response_text in
      match str_find "```" rest with
      | Some j => strip (take j rest)
      | None => strip (take (String.length rest - 1) rest)
      end
  | None => response_text
  end.

(** The characters before the first line feed. *)
Fixpoint until_newline (s : string) : string :=
  match s with
  | EmptyString => EmptyString
  | String c s' =>
      if Ascii.eqb c (ascii_of_nat 10) then EmptyString else String c (until_newline s')
  end.

Fixpoint last_character (s : string) : string :=
  match s with
  | EmptyString => EmptyString
  | String c EmptyString => String c EmptyString
  | String _ s' => last_character s'
  end.

(** [re.search(rf"- {field}:\s*(.+?)(?=\n-|\n$|$)", text, re.MULTILINE |
    re.DOTALL)]: group 1 of the leftmost match, [None] when there is none.

    With [re.MULTILINE] the last alternative of the lookahead, [$], holds at
    the end of the text and before every line feed, and the other two
    alternatives hold only before a line feed: the lookahead holds exactly
    there.  After the literal [- field:] the greedy [\s*] runs over all the
    white space that follows.  When a character is left, the lazy [(.+?)]
    takes it and goes on to the first place where the lookahead holds.  When
    the white space runs to the end of the text, [\s*] gives back its last
    character and the group is that character.  When the text ends with the
    literal, the match fails there, and no later place has room for the
    literal. *)
Definition group_after (rest : string) : option string :=
  match rest with
  | EmptyString => None
  | String _ _ =>
      match lstrip rest with
      | String c s' => Some (String c (until_newline s'))
      | EmptyString => Some (last_character rest)
      end
  end.

Fixpoint search_from (literal text : string) : option string :=
  if String.prefix literal text then group_after (drop (String.length literal) text)
  else match text with
       | EmptyString => None
       | String _ text' => search_from literal text'
       end.

Definition search_field (field text : string) : option string :=
  search_from ("- " ++ field ++ ":") text.

(** The types of the fields of the response classes. *)
Inductive FieldType : Type := FieldStr | FieldBool | FieldInt.

Definition type_hint (t : FieldType) : string :=
  match t with
  | FieldStr => " (string)"
  | FieldBool => " (true/false)"
  | FieldInt => " (number)"
  end.

(** The prompt that [generate_structured_response] sends for a response class
    with these fields. *)
Definition structured_prompt (prompt : string) (fields : list (string * FieldType))
  : string :=
  prompt ++ newline ++ newline
    ++ "IMPORTANT: Respond ONLY with the following format (no extra text, no markdown, no explanations):"
    ++ newline
    ++ join newline (map (fun f => "- " ++ fst f ++ type_hint (snd f)) fields)
    ++ newline ++ newline
    ++ "Example format:" ++ newline
    ++ join newline (map (fun f => "- " ++ fst f ++ ": [your response here]") fields).

(** The fields of [DiscussionResponse] and of [VoteDecision]. *)
Definition DiscussionResponse_fields : list (string * FieldType) :=
  [("speak", FieldBool); ("comment", FieldStr); ("urgency", FieldInt)].

Definition VoteDecision_fields : list (string * FieldType) :=
  [("target", FieldStr); ("reason", FieldStr)].

Section LLMInterface.

(** The request to the language model for a prompt:
    [self.client.chat.completions.create(...)] and the content of the first
    choice, or the exception raised on the way. *)
Variable chat_completion : string -> result string.

(** [json.loads] on a text: the decision it gives, read as the orchestrator
    reads it, or the exception it raises, [JSONDecodeError] for a text that is
    not JSON. *)
Variable json_loads : string -> result (option NightDict).

(** [int(value)], [None] for [ValueError]. *)
Variable int_of_str : string -> option Z.

(** [generate_response]: the lines it prints and the text it returns.  Every
    exception of the request is caught, printed and replaced by a fixed
    text. *)
Definition generate_response (prompt : string) : list string * string :=
  match chat_completion prompt with
  | Ok content => ([], strip content)
  | Raise e => (["Error generating response: " ++ e], "ERROR: Could not generate response")
  end.

(** [generate_json_response]: for a text that is not JSON the dictionary
    [{"error": ..., "raw_response": ...}], which has neither a target nor a
    reason. *)
Definition generate_json_response (prompt : string)
  : list string * result (option NightDict) :=
  let (printed, response_text) := generate_response prompt in
  match json_loads (json_text_of response_text) with
  | Ok decision => (printed, Ok decision)
  | Raise e =>
      if String.eqb e "JSONDecodeError"
      then (List.app printed ["Failed to parse JSON response: " ++ response_text],
            Ok (Some (mkNightDict None None)))
      else (printed, Raise e)
  end.

(** The value of a field in the answer, converted as its type asks, and the
    default value of the type when the answer does not have the field. *)
Definition str_field (response_text field : string) : string :=
  match search_field field response_text with
  | Some group => strip group
  | None => EmptyString
  end.

Definition bool_field (response_text field : string) : bool :=
  match search_field field response_text with
  | Some group => str_in (lower (strip group)) ["true"; "yes"; "1"]
  | None => false
  end.

Definition int_field (response_text field : string) : Z :=
  match search_field field response_text with
  | Some group =>
      match int_of_str (strip group) with
      | Some n => n
      | None => 0%Z
      end
  | None => 0%Z
  end.

(** [generate_structured_response(prompt, DiscussionResponse)].  Every field
    gets a value, so the response class is always built. *)
Definition generate_discussion_response (prompt : string)
  : list string * DiscussionResponse :=
  let (printed, response_text) :=
    generate_response (structured_prompt prompt DiscussionResponse_fields) in
  (printed,
   mkDiscussionResponse (bool_field response_text "speak")
     (str_field response_text "comment") (int_field response_text "urgency")).

(** [generate_structured_response(prompt, VoteDecision)] *)
Definition generate_vote_decision (prompt : string) : list string * VoteDecision :=
  let (printed, response_text) :=
    generate_response (structured_prompt prompt VoteDecision_fields) in
  (printed,
   mkVoteDecision (str_field response_text "target") (str_field response_text "reason")).

(** ** role_agents.py: the requests of the agents

    The prompts are texts that an agent builds from its name and what it is
    given; they are not modelled further.  What the interface prints goes to
    the standard output and is not part of what an agent returns. *)

Variable night_prompt : string -> GameState -> string.
Variable discussion_prompt : string -> GameState -> string.
Variable vote_prompt : string -> GameState -> list string -> string.

Variable defense_prompt : string -> GameState -> string.

(** The prompt of the final vote, which the orchestrator builds from the
    agent, the state, the suspect and the candidates. *)
Variable final_vote_prompt : string -> GameState -> string -> list string -> string.

(** The names among which the agent of a role chooses at night. *)
Definition night_choices (r : Role) (agent : string) (gs : GameState) : list string :=
  match r with
  | MAFIA =>
      map name (filter (fun p => negb (Role_eqb (role p) MAFIA)) (get_alive_players gs))
  | DOCTOR =>
      filter (fun n => negb (String.eqb n agent)) (map name (get_alive_players gs))
  | DETECTIVE =>
      filter (fun n => negb (str_in n (dict_keys (detective_results gs))))
        (filter (fun n => negb (String.eqb n agent)) (map name (get_alive_players gs)))
  | VILLAGER => []
  end.

(** [make_night_decision] of the agent of that name, whose class is the one
    of the role of the player: [None] without asking when there is nobody to
    choose, and otherwise the answer of the language model as JSON.  The
    orchestrator keeps one agent for every player and asks no other name;
    [KeyError] is what [self.agents[name]] would raise for one. *)
Definition agent_make_night_decision (agent : string) (gs : GameState)
  : result (option NightDict) :=
  match get_player_by_name gs agent with
  | Some p =>
      match night_choices (role p) agent gs with
      | [] => Ok None
      | _ :: _ => snd (generate_json_response (night_prompt agent gs))
      end
  | None => Raise "KeyError"
  end.

(** [participate_in_discussion], the same in the four classes but for the
    prompt: [None] outside the discussion phase. *)
Definition agent_participate_in_discussion (agent : string) (gs : GameState)
  : result Reply :=
  match phase gs with
  | DAY_DISCUSSION =>
      Ok (Structured (snd (generate_discussion_response (discussion_prompt agent gs))))
  | _ => Ok NoReply
  end.

(** [vote] of the four classes. *)
Definition agent_vote_result (agent : string) (gs : GameState) (candidates : list string)
  : result VoteResult :=
  role_agent_vote
    (fun agent gs candidates =>
       snd (generate_vote_decision (vote_prompt agent gs candidates)))
    agent gs candidates.

(** [defend_self] of the four classes: the text of the interface as it
    comes. *)
Definition agent_defend_self (agent : string) (gs : GameState) : result string :=
  Ok (snd (generate_response (defense_prompt agent gs))).

(** The structured response that the orchestrator asks for in the final
    vote. *)
Definition agent_final_vote_decision (agent : string) (gs : GameState) (suspect : string)
    (candidates : list string) : result VoteDecision :=
  Ok (snd (generate_vote_decision (final_vote_prompt agent gs suspect candidates))).

End LLMInterface.

(** * Properties *)

(** ** Basic facts *)

Lemma Role_eqb_spec (a b : Role) : reflect (a = b) (Role_eqb a b).
Proof. destruct a, b; simpl; constructor; congruence. Qed.

Lemma str_in_iff (x : string) (l : list string) : str_in x l = true <-> In x l.
Proof.
  unfold str_in. rewrite existsb_exists. split.
  - intros [y [Hy He]]. apply String.eqb_eq in He. subst. exact Hy.
  - intros H. exists x. split; [exact H|apply String.eqb_refl].
Qed.

(** ** The win evaluator *)

Module WinCondition.

(** The counts of the claim, taken from the players one by one: a player is
    counted when the alive flag is set, as a killer when the role is mafia and
    as one of the others when it is not. *)
Fixpoint killers_alive (ps : list Player) : nat :=
  match ps with
  | [] => 0
  | p :: ps' =>
      match role p, is_alive p with
      | MAFIA, true => S (killers_alive ps')
      | _, _ => killers_alive ps'
      end
  end.

Fixpoint others_alive (ps : list Player) : nat :=
  match ps with
  | [] => 0
  | p :: ps' =>
      match role p, is_alive p with
      | MAFIA, _ => others_alive ps'
      | _, true => S (others_alive ps')
      | _, false => others_alive ps'
      end
  end.

Definition mafia_alive (gs : GameState) : nat := killers_alive (players gs).
Definition village_alive (gs : GameState) : nat := others_alive (players gs).

(** An alive player who is not of the mafia. *)
Definition alive_other (gs : GameState) (p : Player) : Prop :=
  In p (players gs) /\ is_alive p = true /\ role p <> MAFIA.

(** A doctor is among the alive players. *)
Definition doctor_remains (gs : GameState) : Prop :=
  exists p, In p (players gs) /\ is_alive p = true /\ role p = DOCTOR.

Lemma existsb_doctor_iff (l : list Player) :
  existsb (fun p => Role_eqb (role p) DOCTOR) l = true <->
  exists p, In p l /\ role p = DOCTOR.
Proof.
  rewrite existsb_exists. split; intros [p [Hin Hp]]; exists p; split; auto.
  - destruct (Role_eqb_spec (role p) DOCTOR); congruence.
  - destruct (Role_eqb_spec (role p) DOCTOR); congruence.
Qed.

(** The two helpers of the evaluator count what the claim counts. *)
Lemma get_mafia_players_count (gs : GameState) :
  List.length (get_mafia_players gs) = mafia_alive gs.
Proof.
  unfold get_mafia_players, mafia_alive.
  induction (players gs) as [|p ps IH]; simpl; [reflexivity|].
  destruct (role p), (is_alive p); simpl; rewrite IH; reflexivity.
Qed.

Lemma get_village_players_count (gs : GameState) :
  List.length (get_village_players gs) = village_alive gs.
Proof.
  unfold get_village_players, village_alive.
  induction (players gs) as [|p ps IH]; simpl; [reflexivity|].
  destruct (role p), (is_alive p); simpl; rewrite IH; reflexivity.
Qed.

Lemma get_village_players_in (gs : GameState) (p : Player) :
  In p (get_village_players gs) <-> alive_other gs p.
Proof.
  unfold get_village_players, alive_other. rewrite filter_In, andb_true_iff, negb_true_iff.
  destruct (Role_eqb_spec (role p) MAFIA) as [E|E]; split.
  - intros (_ & Hf & _). discriminate Hf.
  - intros (_ & _ & Hn). contradiction.
  - intros (Hin & _ & Ha). auto.
  - intros (Hin & Ha & _). auto.
Qed.

Lemma doctor_among_village (gs : GameState) :
  (exists p, In p (get_village_players gs) /\ role p = DOCTOR) <-> doctor_remains gs.
Proof.
  unfold doctor_remains. split.
  - intros (p & Hin & Hd). apply get_village_players_in in Hin.
    destruct Hin as (Hin & Ha & _). exists p. auto.
  - intros (p & Hin & Ha & Hd). exists p. split; [|exact Hd].
    apply get_village_players_in. unfold alive_other. rewrite Hd.
    repeat split; auto. discriminate.
Qed.

Definition example_player (n : string) (r : Role) (alive : bool) : Player :=
  mkPlayer n "quiet" r alive 0.

Definition example_state (ps : list Player) : GameState :=
  mkGameState ps NIGHT 1
    (map name (filter is_alive ps)) (map name (filter (fun p => negb (is_alive p)) ps))
    (map name (filter (fun p => Role_eqb (role p) MAFIA) ps))
    None None None [] [] [] [] [] [] [] [] [] None.

(** C1: the verdict of [check_win_condition] on every game state, by the
    numbers K of alive mafia players and O of alive players of another role,
    counted over the players by their alive flags: "village" when K = 0;
    "mafia" when K > O; when K = O and two are alive, "tie" if the one alive
    player who is not of the mafia is the doctor and "mafia" if not; when
    K = O and four are alive, "mafia" if no doctor is alive and no verdict if
    one is; and no verdict in every remaining case. *)
Theorem check_win_condition_cases (gs : GameState) :
  (mafia_alive gs = 0 -> check_win_condition gs = Some "village") /\
  (mafia_alive gs > village_alive gs -> check_win_condition gs = Some "mafia") /\
  (mafia_alive gs = village_alive gs -> mafia_alive gs + village_alive gs = 2 ->
     (exists p, alive_other gs p) /\
     forall p, alive_other gs p ->
       (role p = DOCTOR -> check_win_condition gs = Some "tie") /\
       (role p <> DOCTOR -> check_win_condition gs = Some "mafia")) /\
  (mafia_alive gs = village_alive gs -> mafia_alive gs + village_alive gs = 4 ->
     mafia_alive gs = 2 /\
     (~ doctor_remains gs -> check_win_condition gs = Some "mafia") /\
     (doctor_remains gs -> check_win_condition gs = None)) /\
  (mafia_alive gs <> 0 -> mafia_alive gs <= village_alive gs ->
     ~ (mafia_alive gs = village_alive gs /\
        (mafia_alive gs + village_alive gs = 2 \/
         mafia_alive gs + village_alive gs = 4)) ->
     check_win_condition gs = None).
Proof.
  rewrite <- (doctor_among_village gs).
  pose proof (get_village_players_in gs) as Hin.
  rewrite <- (get_mafia_players_count gs), <- (get_village_players_count gs).
  unfold check_win_condition.
  set (K := List.length (get_mafia_players gs)).
  set (O := List.length (get_village_players gs)).
  assert (HO : O = List.length (get_village_players gs)) by reflexivity.
  repeat split.
  - intros ->. reflexivity.
  - intros Hgt.
    destruct (Nat.eqb_spec K 0); [lia|].
    destruct (Nat.ltb_spec O K); [reflexivity|lia].
  - assert (K = 1 /\ O = 1) as [HK1 HO1] by lia.
    destruct (get_village_players gs) as [|p [|q l]] eqn:Hv; simpl in HO; try lia.
    exists p. apply Hin. left. reflexivity.
  - assert (K = 1 /\ O = 1) as [HK1 HO1] by lia.
    destruct (get_village_players gs) as [|q [|q' l]] eqn:Hv; simpl in HO; try lia.
    apply Hin in H1. destruct H1 as [<-|[]].
    rewrite HK1, HO1. simpl. intros Hd.
    destruct (Role_eqb_spec (role q) DOCTOR); congruence.
  - assert (K = 1 /\ O = 1) as [HK1 HO1] by lia.
    destruct (get_village_players gs) as [|q [|q' l]] eqn:Hv; simpl in HO; try lia.
    apply Hin in H1. destruct H1 as [<-|[]].
    rewrite HK1, HO1. simpl. intros Hd.
    destruct (Role_eqb_spec (role q) DOCTOR); congruence.
  - lia.
  - intros Hno.
    assert (K = 2 /\ O = 2) as [HK2 HO2] by lia.
    rewrite HK2, HO2. simpl.
    destruct (existsb _ _) eqn:He; [|reflexivity].
    apply existsb_doctor_iff in He. contradiction.
  - intros Hdoc.
    assert (K = 2 /\ O = 2) as [HK2 HO2] by lia.
    rewrite HK2, HO2. simpl.
    apply existsb_doctor_iff in Hdoc. rewrite Hdoc. reflexivity.
  - intros HK Hle Hother.
    destruct (Nat.eqb_spec K 0); [lia|].
    destruct (Nat.ltb_spec O K); [lia|].
    destruct (Nat.eqb_spec K O); [|reflexivity].
    destruct (Nat.eqb_spec (K + O) 2); [exfalso; apply Hother; lia|].
    destruct (Nat.eqb_spec (K + O) 4); [exfalso; apply Hother; lia|].
    reflexivity.
Qed.

(** States of a game under way: in each some of the mafia were eliminated. *)
Definition mafia_all_out : GameState :=
  example_state [example_player "Victor" MAFIA false; example_player "Zoe" MAFIA false;
                 example_player "Sam" VILLAGER true; example_player "Elena" DOCTOR false].

Definition mafia_outnumber : GameState :=
  example_state [example_player "Victor" MAFIA true; example_player "Zoe" MAFIA true;
                 example_player "Boris" MAFIA false;
                 example_player "Sam" VILLAGER true; example_player "Elena" DOCTOR false].

Definition one_on_one_doctor : GameState :=
  example_state [example_player "Victor" MAFIA true; example_player "Zoe" MAFIA false;
                 example_player "Elena" DOCTOR true; example_player "Sam" VILLAGER false].

Definition two_on_two_no_doctor : GameState :=
  example_state [example_player "Victor" MAFIA true; example_player "Zoe" MAFIA true;
                 example_player "Boris" MAFIA false;
                 example_player "Sam" VILLAGER true; example_player "Rosa" DETECTIVE true;
                 example_player "Elena" DOCTOR false].

Definition two_on_three : GameState :=
  example_state [example_player "Victor" MAFIA true; example_player "Zoe" MAFIA true;
                 example_player "Boris" MAFIA false;
                 example_player "Sam" VILLAGER true; example_player "Rosa" DETECTIVE true;
                 example_player "Elena" VILLAGER true].

Lemma check_win_condition_cases_witness :
  check_win_condition mafia_all_out = Some "village" /\
  check_win_condition mafia_outnumber = Some "mafia" /\
  check_win_condition one_on_one_doctor = Some "tie" /\
  check_win_condition two_on_two_no_doctor = Some "mafia" /\
  check_win_condition two_on_three = None.
Proof.
  split; [|split; [|split; [|split]]].
  - destruct (check_win_condition_cases mafia_all_out) as (H & _).
    apply H. reflexivity.
  - destruct (check_win_condition_cases mafia_outnumber) as (_ & H & _).
    apply H. vm_compute. lia.
  - destruct (check_win_condition_cases one_on_one_doctor) as (_ & _ & H & _).
    destruct (H eq_refl eq_refl) as (_ & Hsole).
    apply (Hsole (example_player "Elena" DOCTOR true)); [|reflexivity].
    unfold alive_other. simpl. repeat split; auto. discriminate.
  - destruct (check_win_condition_cases two_on_two_no_doctor) as (_ & _ & _ & H & _).
    destruct (H eq_refl eq_refl) as (_ & Hm & _).
    apply Hm. intros (p & Hin & Ha & Hr). simpl in Hin.
    destruct Hin as [<-|[<-|[<-|[<-|[<-|[<-|[]]]]]]]; discriminate.
  - destruct (check_win_condition_cases two_on_three) as (_ & _ & _ & _ & H).
    apply H; vm_compute; [discriminate | lia | ].
    intros [Hq _]; discriminate Hq.
Defined.

End WinCondition.

(** ** Printing and state *)

Lemma game_state_player_announce (o : GameOrchestrator) (m : string) :
  game_state (_player_announce o m) = game_state o.
Proof. unfold _player_announce. destruct (observer_only o); reflexivity. Qed.

Lemma game_state_observer_info (o : GameOrchestrator) (m : string) :
  game_state (_observer_info o m) = game_state o.
Proof. unfold _observer_info. destruct (observer_mode o); reflexivity. Qed.

Lemma announcements_app (a b : list LogEntry) :
  announcements (a ++ b) = (announcements a ++ announcements b)%list.
Proof. unfold announcements. apply flat_map_app. Qed.

Lemma announcements_observer_info (o : GameOrchestrator) (m : string) :
  announcements (console (_observer_info o m)) = announcements (console o).
Proof.
  unfold _observer_info. destruct (observer_mode o); [|reflexivity].
  simpl. rewrite announcements_app. simpl. apply app_nil_r.
Qed.

Lemma announcements_player_announce (o : GameOrchestrator) (m : string) :
  announcements (console (_player_announce o m)) =
  (announcements (console o) ++ (if observer_only o then [] else [m]))%list.
Proof.
  unfold _player_announce. destruct (observer_only o); simpl.
  - symmetry. apply app_nil_r.
  - rewrite announcements_app. reflexivity.
Qed.

Lemma observer_only_observer_info (o : GameOrchestrator) (m : string) :
  observer_only (_observer_info o m) = observer_only o.
Proof. unfold _observer_info. destruct (observer_mode o); reflexivity. Qed.

Lemma observer_only_player_announce (o : GameOrchestrator) (m : string) :
  observer_only (_player_announce o m) = observer_only o.
Proof. unfold _player_announce. destruct (negb (observer_only o)); reflexivity. Qed.

(** ** Night resolution *)

Module NightResolution.

(** The part of the state an elimination touches. *)
Definition roster (o : GameOrchestrator) : list Player * list string * list string * list string :=
  let gs := game_state o in
  (players gs, alive_players gs, dead_players gs, elimination_history gs).

Lemma find_mark_dead_same (ps : list Player) (n : string) (p : Player) :
  find (fun q => String.eqb (name q) n) ps = Some p ->
  find (fun q => String.eqb (name q) n) (mark_dead ps n) = Some (set_is_alive p false).
Proof.
  induction ps as [|q ps IH]; simpl; [discriminate|].
  destruct (String.eqb (name q) n) eqn:E; simpl.
  - intros [= <-]. rewrite E. reflexivity.
  - intros H. rewrite E. auto.
Qed.

Lemma find_mark_dead_other (ps : list Player) (n m : string) :
  m <> n ->
  find (fun q => String.eqb (name q) m) (mark_dead ps n) =
  find (fun q => String.eqb (name q) m) ps.
Proof.
  intros Hne. induction ps as [|q ps IH]; simpl; [reflexivity|].
  destruct (String.eqb (name q) n) eqn:E; simpl.
  - apply String.eqb_eq in E.
    destruct (String.eqb_spec (name q) m); [congruence|reflexivity].
  - rewrite IH. reflexivity.
Qed.

Lemma list_remove_in (l : list string) (x : string) :
  In x l -> exists r, list_remove l x = Some r /\ List.length l = S (List.length r).
Proof.
  induction l as [|y l IH]; simpl; [contradiction|].
  intros Hin. destruct (String.eqb_spec y x) as [->|Hne].
  - eexists. split; reflexivity.
  - destruct Hin as [->|Hin]; [contradiction|].
    destruct (IH Hin) as (r & -> & Hlen). eexists. split; [reflexivity|].
    simpl. rewrite Hlen. reflexivity.
Qed.

Definition saved_announcement : string := "🌅 No one was eliminated during the night".

(** The sentence of the claim that fails: whenever the consensus target differs
    from the save target, that target ends the night on the eliminated list. *)
Definition kills_whenever_not_saved (o : GameOrchestrator) : Prop :=
  forall t,
    mafia_target (game_state o) = Some t ->
    doctor_save (game_state o) <> Some t ->
    exists o', _resolve_night_actions o = Ok o' /\
      elimination_history (game_state o') =
      (elimination_history (game_state o) ++ [t])%list.

Definition quiet_state (ps : list Player) (target save : option string) : GameState :=
  mkGameState ps NIGHT 1
    (map name (filter is_alive ps)) (map name (filter (fun p => negb (is_alive p)) ps))
    (map name (filter (fun p => Role_eqb (role p) MAFIA) ps))
    target save None [] [] [] [] [] [] [] [] [] None.

Definition four_players : list Player :=
  [mkPlayer "Ann" "calm" VILLAGER true 0; mkPlayer "Ben" "loud" DOCTOR true 0;
   mkPlayer "Cat" "sly" MAFIA true 0; mkPlayer "Dan" "shy" DETECTIVE true 0].

Definition orchestrator_of (gs : GameState) : GameOrchestrator :=
  mkGameOrchestrator gs 2 true false [] [].

(** The consensus target names nobody in the game. *)
Definition night_unknown_target : GameOrchestrator :=
  orchestrator_of (quiet_state four_players (Some "Zed") (Some "Ben")).

Lemma unknown_target_kills_nobody :
  ~ kills_whenever_not_saved night_unknown_target /\
  (exists o', _resolve_night_actions night_unknown_target = Ok o' /\
     roster o' = roster night_unknown_target /\
     announcements (console o') = ["💀 Zed was eliminated during the night"]).
Proof.
  split.
  - intros H. destruct (H "Zed" eq_refl) as (o' & Hrun & Hhist).
    + discriminate.
    + vm_compute in Hrun. injection Hrun as <-. discriminate Hhist.
  - eexists. split; [vm_compute; reflexivity|]. split; reflexivity.
Qed.

Section Resolve.
(** Opens [_resolve_night_actions] on a target the doctor did not save. *)
Ltac not_saved Ht Htruthy Hs :=
  unfold _resolve_night_actions; rewrite Ht;
  cbn [opt_truthy]; rewrite Htruthy;
  match goal with
  | |- context [opt_str_eqb (Some ?t) ?d] =>
      let s := fresh "s" in
      destruct d as [s|]; cbn [opt_str_eqb];
      [destruct (String.eqb_spec t s); [subst; contradiction|]|]
  end.

Lemma roster_add_action (o : GameOrchestrator) (a m : string) :
  roster (_add_action o a m) = roster o.
Proof. reflexivity. Qed.

Lemma roster_observer_info (o : GameOrchestrator) (m : string) :
  roster (_observer_info o m) = roster o.
Proof. unfold roster. rewrite game_state_observer_info. reflexivity. Qed.

Lemma roster_player_announce (o : GameOrchestrator) (m : string) :
  roster (_player_announce o m) = roster o.
Proof. unfold roster. rewrite game_state_player_announce. reflexivity. Qed.

Lemma resolve_saved (o : GameOrchestrator) (t : string) :
  mafia_target (game_state o) = Some t -> str_truthy t = true ->
  doctor_save (game_state o) = Some t ->
  exists o', _resolve_night_actions o = Ok o' /\ roster o' = roster o /\
    announcements (console o') =
    (announcements (console o) ++
     (if observer_only o then [] else [saved_announcement]))%list.
Proof.
  intros Ht Htruthy Hs. unfold _resolve_night_actions.
  rewrite Ht, Hs. simpl. rewrite Htruthy, String.eqb_refl. simpl.
  eexists. split; [reflexivity|]. split.
  - rewrite roster_add_action, roster_add_action, roster_observer_info,
      roster_player_announce. reflexivity.
  - simpl. rewrite announcements_observer_info, announcements_player_announce.
    reflexivity.
Qed.

Lemma resolve_no_target (o : GameOrchestrator) :
  opt_truthy (mafia_target (game_state o)) = false ->
  exists o', _resolve_night_actions o = Ok o' /\ roster o' = roster o /\
    announcements (console o') = announcements (console o).
Proof.
  intros Hf. unfold _resolve_night_actions. rewrite Hf. simpl.
  eexists. split; [reflexivity|]. split; reflexivity.
Qed.

Lemma resolve_unknown (o : GameOrchestrator) (t : string) :
  mafia_target (game_state o) = Some t -> str_truthy t = true ->
  doctor_save (game_state o) <> Some t ->
  get_player_by_name (game_state o) t = None ->
  exists o', _resolve_night_actions o = Ok o' /\ roster o' = roster o.
Proof.
  intros Ht Htruthy Hs Hnone.
  not_saved Ht Htruthy Hs; unfold _eliminate_player; rewrite Hnone; simpl;
    (eexists; split; [reflexivity|]);
    rewrite roster_add_action, roster_observer_info, roster_player_announce;
    reflexivity.
Qed.

Lemma resolve_killed (o : GameOrchestrator) (t : string) (p : Player) :
  mafia_target (game_state o) = Some t -> str_truthy t = true ->
  doctor_save (game_state o) <> Some t ->
  get_player_by_name (game_state o) t = Some p ->
  In t (alive_players (game_state o)) ->
  exists o' alive, _resolve_night_actions o = Ok o' /\
    list_remove (alive_players (game_state o)) t = Some alive /\
    roster o' = (mark_dead (players (game_state o)) t, alive,
                 (dead_players (game_state o) ++ [t])%list,
                 (elimination_history (game_state o) ++ [t])%list) /\
    announcements (console o') =
    (announcements (console o) ++
     (if observer_only o then []
      else [("💀 " ++ t ++ " was eliminated during the night")%string]))%list.
Proof.
  intros Ht Htruthy Hs Hp Hin.
  destruct (list_remove_in _ _ Hin) as (alive & Hrem & _).
  not_saved Ht Htruthy Hs; unfold _eliminate_player; rewrite Hp; simpl;
    rewrite Hrem; simpl;
    (eexists; exists alive; split; [reflexivity|]; split; [reflexivity|]; split;
     [ rewrite roster_add_action, roster_observer_info, roster_player_announce;
       reflexivity
     | simpl; rewrite announcements_observer_info, announcements_player_announce;
       reflexivity ]).
Qed.
End Resolve.

End NightResolution.

(** C2 (as amended): after night resolution, a non-empty consensus target equal
    to the save target eliminates no one, leaves the player lists unchanged
    and announces only the fixed text "No one was eliminated during the night";
    a target that differs from the save target and names a participant of the
    alive list is the one player eliminated (flag flipped, removed from the alive
    list, appended to the dead list and the elimination history); a target that
    names no participant eliminates no one; and with no consensus target (or an
    empty one) the night produces no death and no announcement. *)
Theorem night_resolution_outcomes (o : GameOrchestrator) :
  (forall t, mafia_target (game_state o) = Some t -> str_truthy t = true ->
     doctor_save (game_state o) = Some t ->
     exists o', _resolve_night_actions o = Ok o' /\
       NightResolution.roster o' = NightResolution.roster o /\
       announcements (console o') =
       (announcements (console o) ++
        (if observer_only o then [] else [NightResolution.saved_announcement]))%list) /\
  (forall t p, mafia_target (game_state o) = Some t -> str_truthy t = true ->
     doctor_save (game_state o) <> Some t ->
     get_player_by_name (game_state o) t = Some p ->
     In t (alive_players (game_state o)) ->
     exists o' alive, _resolve_night_actions o = Ok o' /\
       list_remove (alive_players (game_state o)) t = Some alive /\
       alive_players (game_state o') = alive /\
       dead_players (game_state o') = (dead_players (game_state o) ++ [t])%list /\
       elimination_history (game_state o') =
         (elimination_history (game_state o) ++ [t])%list /\
       get_player_by_name (game_state o') t = Some (set_is_alive p false) /\
       (forall n, n <> t ->
          get_player_by_name (game_state o') n = get_player_by_name (game_state o) n)) /\
  (forall t, mafia_target (game_state o) = Some t -> str_truthy t = true ->
     doctor_save (game_state o) <> Some t ->
     get_player_by_name (game_state o) t = None ->
     exists o', _resolve_night_actions o = Ok o' /\
       NightResolution.roster o' = NightResolution.roster o) /\
  (opt_truthy (mafia_target (game_state o)) = false ->
     exists o', _resolve_night_actions o = Ok o' /\
       NightResolution.roster o' = NightResolution.roster o /\
       announcements (console o') = announcements (console o)).
Proof.
  split; [|split; [|split]].
  - intros t. apply NightResolution.resolve_saved.
  - intros t p Ht Htruthy Hs Hp Hin.
    destruct (NightResolution.resolve_killed o Ht Htruthy Hs Hp Hin)
      as (o' & alive & Hrun & Hrem & Hroster & _).
    exists o', alive. unfold NightResolution.roster in Hroster.
    injection Hroster as Hps Hal Hdead Hhist.
    repeat split; try assumption.
    + unfold get_player_by_name. rewrite Hps.
      apply NightResolution.find_mark_dead_same. exact Hp.
    + intros n Hn. unfold get_player_by_name. rewrite Hps.
      apply NightResolution.find_mark_dead_other. exact Hn.
  - intros t. apply NightResolution.resolve_unknown.
  - apply NightResolution.resolve_no_target.
Qed.

Definition night_ann_targeted : GameOrchestrator :=
  NightResolution.orchestrator_of
    (NightResolution.quiet_state NightResolution.four_players (Some "Ann") (Some "Ben")).

Lemma night_resolution_outcomes_witness :
  exists o', _resolve_night_actions night_ann_targeted = Ok o' /\
    elimination_history (game_state o') = ["Ann"] /\
    alive_players (game_state o') = ["Ben"; "Cat"; "Dan"].
Proof.
  destruct (night_resolution_outcomes night_ann_targeted) as (_ & Hkill & _).
  destruct (Hkill "Ann" (mkPlayer "Ann" "calm" VILLAGER true 0)
              eq_refl eq_refl) as (o' & alive & Hrun & Hrem & Hal & _ & Hhist & _).
  - discriminate.
  - reflexivity.
  - simpl. left. reflexivity.
  - exists o'. split; [exact Hrun|]. split; [exact Hhist|].
    rewrite Hal. vm_compute in Hrem. injection Hrem as <-. reflexivity.
Defined.

(** ** Counting proposals *)

Module Plurality.

Lemma JsonValue_eqb_spec (a b : JsonValue) : reflect (a = b) (JsonValue_eqb a b).
Proof.
  destruct a as [|x], b as [|y]; simpl; try (constructor; congruence).
  destruct (String.eqb_spec x y); constructor; congruence.
Qed.

Lemma JsonValue_dec (a b : JsonValue) : {a = b} + {a <> b}.
Proof. decide equality. apply string_dec. Defined.

(** The counter of the killers' targets. *)
Definition counts : Type := list (JsonValue * nat).
Definition get : counts -> JsonValue -> nat := count_of JsonValue_eqb.
Definition set : counts -> JsonValue -> nat -> counts := set_count JsonValue_eqb.
Definition tally : list JsonValue -> counts := Counter JsonValue_eqb.

Definition count : list JsonValue -> JsonValue -> nat := count_occ JsonValue_dec.

(** Some occurrence of [a] in [l] has no [b] before it. *)
Definition first_before (l : list JsonValue) (a b : JsonValue) : Prop :=
  exists l1 l2, l = (l1 ++ a :: l2)%list /\ ~ In b l1.

(** The keys of a counter stand in the order they were first met. *)
Definition order_ok (l ks : list JsonValue) : Prop :=
  forall i j a b, nth_error ks i = Some a -> nth_error ks j = Some b -> i < j ->
    first_before l a b.

Definition counted (l : list JsonValue) (k : JsonValue) : JsonValue * nat := (k, count l k).

Lemma get_map_in (f : JsonValue -> nat) (ks : list JsonValue) (x : JsonValue) :
  In x ks -> get (map (fun k => (k, f k)) ks) x = f x.
Proof.
  unfold get. induction ks as [|k ks IH]; simpl; [contradiction|].
  intros Hin. destruct (JsonValue_eqb_spec k x) as [->|Hne]; [reflexivity|].
  destruct Hin as [->|Hin]; [contradiction|auto].
Qed.

Lemma get_map_notin (f : JsonValue -> nat) (ks : list JsonValue) (x : JsonValue) :
  ~ In x ks -> get (map (fun k => (k, f k)) ks) x = 0.
Proof.
  unfold get. induction ks as [|k ks IH]; simpl; [reflexivity|].
  intros Hnin. destruct (JsonValue_eqb_spec k x) as [->|Hne]; [tauto|].
  apply IH. tauto.
Qed.

Lemma set_map_notin (f : JsonValue -> nat) (ks : list JsonValue) (x : JsonValue) (v : nat) :
  ~ In x ks ->
  set (map (fun k => (k, f k)) ks) x v = (map (fun k => (k, f k)) ks ++ [(x, v)])%list.
Proof.
  unfold set. induction ks as [|k ks IH]; simpl; [reflexivity|].
  intros Hnin. destruct (JsonValue_eqb_spec k x) as [->|Hne]; [tauto|].
  rewrite IH by tauto. reflexivity.
Qed.

Lemma set_map_in (f g : JsonValue -> nat) (ks : list JsonValue) (x : JsonValue) (v : nat) :
  In x ks -> NoDup ks -> g x = v -> (forall k, k <> x -> g k = f k) ->
  set (map (fun k => (k, f k)) ks) x v = map (fun k => (k, g k)) ks.
Proof.
  unfold set. intros Hin Hnd Hx Hother. induction ks as [|k ks IH]; simpl; [contradiction|].
  apply NoDup_cons_iff in Hnd as [Hk Hnd'].
  destruct (JsonValue_eqb_spec k x) as [->|Hne].
  - rewrite <- Hx. f_equal. apply map_ext_in. intros k Hin'.
    rewrite Hother; [reflexivity|]. intros ->. contradiction.
  - rewrite Hother by assumption. f_equal. destruct Hin as [->|Hin]; [contradiction|auto].
Qed.

Lemma count_snoc_same (l : list JsonValue) (x : JsonValue) :
  count (l ++ [x]) x = count l x + 1.
Proof.
  unfold count. rewrite count_occ_app. simpl.
  destruct (JsonValue_dec x x); [reflexivity|contradiction].
Qed.

Lemma count_snoc_other (l : list JsonValue) (x k : JsonValue) :
  k <> x -> count (l ++ [x]) k = count l k.
Proof.
  intros Hne. unfold count. rewrite count_occ_app. simpl.
  destruct (JsonValue_dec x k); [congruence|lia].
Qed.

Lemma Counter_snoc (l : list JsonValue) (x : JsonValue) :
  tally (l ++ [x]) = set (tally l) x (get (tally l) x + 1).
Proof. unfold tally, Counter. rewrite fold_left_app. reflexivity. Qed.

Lemma order_ok_snoc_old (l ks : list JsonValue) (x : JsonValue) :
  order_ok l ks -> order_ok (l ++ [x]) ks.
Proof.
  intros H i j a b Ha Hb Hlt.
  destruct (H i j a b Ha Hb Hlt) as (l1 & l2 & -> & Hn).
  exists l1, (l2 ++ [x])%list. split; [|exact Hn].
  rewrite <- app_assoc. reflexivity.
Qed.

Lemma order_ok_snoc_new (l ks : list JsonValue) (x : JsonValue) :
  order_ok l ks -> (forall k, In k ks -> In k l) -> ~ In x l ->
  order_ok (l ++ [x]) (ks ++ [x]).
Proof.
  intros H Hsub Hx i j a b Ha Hb Hlt.
  assert (Hj : j < List.length (ks ++ [x])) by (apply nth_error_Some; congruence).
  rewrite length_app in Hj. simpl in Hj.
  assert (Hi : i < List.length ks) by lia.
  rewrite nth_error_app1 in Ha by exact Hi.
  destruct (Nat.lt_ge_cases j (List.length ks)) as [Hjl|Hjl].
  - rewrite nth_error_app1 in Hb by exact Hjl.
    eapply order_ok_snoc_old; eauto.
  - rewrite nth_error_app2 in Hb by exact Hjl.
    replace (j - List.length ks) with 0 in Hb by lia. simpl in Hb.
    injection Hb as <-.
    apply nth_error_In in Ha. apply Hsub in Ha.
    destruct (in_split _ _ Ha) as (l1 & l2 & ->).
    exists l1, (l2 ++ [x])%list. split.
    + rewrite <- app_assoc. reflexivity.
    + intros Hin. apply Hx. apply in_or_app. left. exact Hin.
Qed.

(** [Counter l] lists every element of [l] once, with its number of
    occurrences, in the order of first occurrence. *)
Lemma Counter_spec (l : list JsonValue) :
  exists ks, tally l = map (counted l) ks /\ NoDup ks /\
    (forall k, In k ks <-> In k l) /\ order_ok l ks.
Proof.
  induction l as [|x l IH] using rev_ind.
  - exists []. repeat split; try constructor; try contradiction.
    intros i j a b Ha. destruct i; discriminate Ha.
  - destruct IH as (ks & Hc & Hnd & Hiff & Hord).
    rewrite Counter_snoc, Hc. unfold counted.
    destruct (in_dec JsonValue_dec x ks) as [Hin|Hnin].
    + exists ks. rewrite (get_map_in (count l) ks x Hin).
      split; [|split; [exact Hnd|split]].
      * apply set_map_in; try assumption.
        -- apply count_snoc_same.
        -- intros k Hk. apply count_snoc_other. exact Hk.
      * intros k. rewrite Hiff, in_app_iff. simpl.
        split; [tauto|]. intros [H|[<-|[]]]; [exact H|]. apply Hiff. exact Hin.
      * apply order_ok_snoc_old. exact Hord.
    + exists (ks ++ [x])%list. rewrite (get_map_notin (count l) ks x Hnin).
      assert (Hxl : ~ In x l) by (rewrite <- Hiff; exact Hnin).
      split; [|split; [|split]].
      * rewrite set_map_notin by exact Hnin.
        rewrite map_app. simpl. f_equal.
        -- apply map_ext_in. intros k Hk. f_equal. symmetry.
           apply count_snoc_other. intros ->. contradiction.
        -- rewrite count_snoc_same.
           unfold count. rewrite (proj1 (count_occ_not_In JsonValue_dec l x) Hxl). reflexivity.
      * apply NoDup_app; [exact Hnd|repeat constructor; simpl; tauto|].
        intros k Hk [<-|[]]. contradiction.
      * intros k. rewrite !in_app_iff, Hiff. reflexivity.
      * apply order_ok_snoc_new; try assumption. intros k. apply Hiff.
Qed.

Lemma max_by_count_split (rest : counts) :
  forall (pre mid : counts) (best : JsonValue * nat),
    (forall e, In e pre -> snd e < snd best) ->
    (forall e, In e mid -> snd e <= snd best) ->
    exists pre' post,
      (pre ++ best :: mid ++ rest)%list = (pre' ++ max_by_count best rest :: post)%list /\
      (forall e, In e pre' -> snd e < snd (max_by_count best rest)) /\
      (forall e, In e post -> snd e <= snd (max_by_count best rest)).
Proof.
  induction rest as [|item rest IH]; intros pre mid best Hpre Hmid; simpl.
  - exists pre, mid. rewrite app_nil_r. auto.
  - destruct (Nat.ltb_spec (snd best) (snd item)) as [Hlt|Hge].
    + destruct (IH (pre ++ best :: mid)%list [] item) as (pre' & post & Heq & H1 & H2).
      * intros e He. apply in_app_or in He. destruct He as [He|[<-|He]].
        -- specialize (Hpre e He). lia.
        -- exact Hlt.
        -- specialize (Hmid e He). lia.
      * intros e [].
      * exists pre', post. split; [|auto].
        rewrite <- Heq. simpl. rewrite <- app_assoc. reflexivity.
    + destruct (IH pre (mid ++ [item])%list best Hpre) as (pre' & post & Heq & H1 & H2).
      * intros e He. apply in_app_or in He. destruct He as [He|[<-|[]]]; auto.
      * exists pre', post. split; [|auto].
        rewrite <- Heq. rewrite <- app_assoc. reflexivity.
Qed.

Lemma in_split_first (l : list JsonValue) (t : JsonValue) :
  In t l -> exists l1 l2, l = (l1 ++ t :: l2)%list /\ ~ In t l1.
Proof.
  induction l as [|x l IH]; simpl; [contradiction|].
  intros Hin. destruct (JsonValue_dec x t) as [->|Hne].
  - exists [], l. split; [reflexivity|]. intros [].
  - destruct Hin as [->|Hin]; [contradiction|].
    destruct (IH Hin) as (l1 & l2 & -> & Hn).
    exists (x :: l1), l2. split; [reflexivity|].
    intros [H|H]; auto.
Qed.

Lemma first_split_prefix (l1 : list JsonValue) :
  forall (l2 m1 m2 : list JsonValue) (t : JsonValue),
    (l1 ++ t :: l2)%list = (m1 ++ t :: m2)%list -> ~ In t l1 ->
    exists r, m1 = (l1 ++ r)%list.
Proof.
  induction l1 as [|a l1 IH]; intros l2 m1 m2 t Heq Hn.
  - exists m1. reflexivity.
  - destruct m1 as [|b m1]; simpl in Heq.
    + injection Heq as Hat _. exfalso. apply Hn. left. exact Hat.
    + injection Heq as <- Heq.
      destruct (IH l2 m1 m2 t Heq) as (r & ->).
      * intros H. apply Hn. right. exact H.
      * exists r. reflexivity.
Qed.

(** [t] has the most occurrences in [l], and every element met before the
    first [t] has strictly fewer. *)
Definition first_plurality (l : list JsonValue) (t : JsonValue) : Prop :=
  (forall t', count l t' <= count l t) /\
  exists l1 l2, l = (l1 ++ t :: l2)%list /\
    forall t', In t' l1 -> count l t' < count l t.

Lemma most_common_first_plurality (l : list JsonValue) :
  l <> [] ->
  exists t, most_common_1 (tally l) = [(t, count l t)] /\ first_plurality l t.
Proof.
  intros Hne.
  destruct (Counter_spec l) as (ks & Hc & Hnd & Hiff & Hord).
  destruct ks as [|k0 ks'].
  { destruct l as [|x l']; [contradiction|].
    exfalso. apply (proj2 (Hiff x)). left. reflexivity. }
  rewrite Hc. simpl.
  destruct (@max_by_count_split (map (counted l) ks') [] [] (counted l k0))
    as (pre & post & Heq & Hpre & Hpost); [intros e []|intros e []|].
  simpl in Heq. set (r := max_by_count (counted l k0) (map (counted l) ks')) in *.
  change (counted l k0 :: map (counted l) ks') with (map (counted l) (k0 :: ks')) in Heq.
  apply map_eq_app in Heq. destruct Heq as (ks1 & ks2' & Hks & Hm1 & Hm2).
  apply map_eq_cons in Hm2. destruct Hm2 as (t & ks2 & -> & Hr & Hm2).
  exists t. rewrite <- Hr in *. unfold counted at 1. split; [reflexivity|].
  assert (Hlow : forall k, In k ks1 -> count l k < count l t).
  { intros k Hk. apply (Hpre (counted l k)). rewrite <- Hm1. apply in_map. exact Hk. }
  assert (Hhigh : forall k, In k ks2 -> count l k <= count l t).
  { intros k Hk. apply (Hpost (counted l k)). rewrite <- Hm2. apply in_map. exact Hk. }
  assert (Hkeys : forall k, In k l -> In k ks1 \/ k = t \/ In k ks2).
  { intros k Hk. apply Hiff in Hk. rewrite Hks in Hk.
    apply in_app_or in Hk. destruct Hk as [Hk|[Hk|Hk]]; auto. }
  split.
  - intros t'. destruct (in_dec JsonValue_dec t' l) as [Hin|Hnin].
    + destruct (Hkeys t' Hin) as [H|[->|H]]; [specialize (Hlow _ H); lia|lia|auto].
    + unfold count at 1. rewrite (proj1 (count_occ_not_In JsonValue_dec l t') Hnin). lia.
  - assert (Htl : In t l).
    { apply Hiff. rewrite Hks. apply in_or_app. right. left. reflexivity. }
    destruct (in_split_first l t Htl) as (l1 & l2 & Hl & Hn1).
    exists l1, l2. split; [exact Hl|].
    intros t' Ht'.
    assert (Hin' : In t' l) by (rewrite Hl; apply in_or_app; left; exact Ht').
    destruct (Hkeys t' Hin') as [H|[->|H]]; [auto|contradiction|].
    exfalso.
    destruct (In_nth_error ks2 t' H) as (n & Hn).
    assert (Hi : nth_error (k0 :: ks') (List.length ks1) = Some t).
    { rewrite Hks, nth_error_app2 by lia. rewrite Nat.sub_diag. reflexivity. }
    assert (Hj : nth_error (k0 :: ks') (List.length ks1 + S n) = Some t').
    { rewrite Hks, nth_error_app2 by lia.
      replace (List.length ks1 + S n - List.length ks1) with (S n) by lia. exact Hn. }
    destruct (Hord _ _ _ _ Hi Hj) as (m1 & m2 & Hm & Hnm); [lia|].
    rewrite Hl in Hm.
    destruct (@first_split_prefix l1 l2 m1 m2 t Hm Hn1) as (r' & ->).
    apply Hnm. apply in_or_app. left. exact Ht'.
Qed.

(** Two splits of a list at [a] and at [b]: [a] comes before that [b], or [b]
    before that [a], or they are the same place. *)
Lemma two_splits (l1 : list JsonValue) :
  forall (l2 m1 m2 : list JsonValue) (a b : JsonValue),
    (l1 ++ a :: l2)%list = (m1 ++ b :: m2)%list ->
    In a m1 \/ In b l1 \/ a = b.
Proof.
  induction l1 as [|x l1 IH]; intros l2 m1 m2 a b Heq.
  - destruct m1 as [|y m1]; simpl in Heq.
    + injection Heq as -> _. right. right. reflexivity.
    + injection Heq as -> _. left. left. reflexivity.
  - destruct m1 as [|y m1]; simpl in Heq.
    + injection Heq as -> _. right. left. left. reflexivity.
    + injection Heq as -> Heq. destruct (IH l2 m1 m2 a b Heq) as [H|[H|H]].
      * left. right. exact H.
      * right. left. right. exact H.
      * right. right. exact H.
Qed.

Lemma first_plurality_unique (l : list JsonValue) (t t' : JsonValue) :
  first_plurality l t -> first_plurality l t' -> t = t'.
Proof.
  intros (Hmax & l1 & l2 & Hl & Hlow) (Hmax' & m1 & m2 & Hm & Hlow').
  rewrite Hl in Hm at 1.
  destruct (two_splits l1 l2 m1 m2 t t' Hm) as [H|[H|H]].
  - specialize (Hlow' t H). specialize (Hmax t'). lia.
  - specialize (Hlow t' H). specialize (Hmax' t). lia.
  - exact H.
Qed.

End Plurality.

(** ** Night actions *)

Module NightActions.

Lemma dict_get_set (V : Type) (d : dict V) (k k' : string) (v : V) :
  dict_get (dict_set d k v) k' = if String.eqb k k' then Some v else dict_get d k'.
Proof.
  induction d as [|[k0 v0] d IH]; simpl.
  - reflexivity.
  - destruct (String.eqb_spec k0 k) as [->|Hne]; simpl.
    + destruct (String.eqb k k'); reflexivity.
    + rewrite IH. destruct (String.eqb_spec k0 k') as [->|Hne'].
      * destruct (String.eqb_spec k k'); [congruence|reflexivity].
      * reflexivity.
Qed.

Lemma dict_set_values (V : Type) (d : dict V) (k : string) (v w : V) :
  In w (dict_values (dict_set d k v)) -> w = v \/ In w (dict_values d).
Proof.
  induction d as [|[k0 v0] d IH]; simpl.
  - intros [<-|[]]. left. reflexivity.
  - destruct (String.eqb k0 k); simpl.
    + intros [<-|H]; auto.
    + intros [<-|H]; auto. destruct (IH H); auto.
Qed.

Lemma dict_set_nonempty (V : Type) (d : dict V) (k : string) (v : V) :
  dict_set d k v <> [].
Proof. destruct d as [|[k0 v0] d]; simpl; [|destruct (String.eqb k0 k)]; discriminate. Qed.

(** A key that is new goes last. *)
Lemma dict_set_new (V : Type) (d : dict V) (k : string) (v : V) :
  ~ In k (dict_keys d) -> dict_set d k v = (d ++ [(k, v)])%list.
Proof.
  induction d as [|[k0 v0] d IH]; simpl; intros Hn; [reflexivity|].
  destruct (String.eqb_spec k0 k) as [->|Hne]; [exfalso; apply Hn; left; reflexivity|].
  rewrite IH; [reflexivity|]. intros Hin. apply Hn. right. exact Hin.
Qed.

(** What the killers' proposals leave alone. *)
Definition night_frame (o : GameOrchestrator) :=
  let gs := game_state o in
  (players gs, alive_players gs, mafia_members gs, mafia_target gs, doctor_save gs,
   detective_results gs).

Lemma night_frame_observer_info (o : GameOrchestrator) (m : string) :
  night_frame (_observer_info o m) = night_frame o.
Proof. unfold night_frame. rewrite game_state_observer_info. reflexivity. Qed.

(** The game state after the proposal of an answer was noted in the night
    actions of the agent; an answer without a target leaves no note. *)
Definition noted (gs : GameState) (agent : string) (answer : option NightDict) : GameState :=
  match answer with
  | Some d =>
      match nd_target d with
      | Some target =>
          let earlier := dict_get_default (player_night_actions gs) agent [] in
          let note :=
            mkNightActionRecord (round_number gs) "mafia_propose" target (reason_or_default d) in
          set_player_night_actions gs
            (dict_set (player_night_actions gs) agent (earlier ++ [note])%list)
      | None => gs
      end
  | None => gs
  end.

(** The target an answer holds, if it holds one. *)
Definition target_of (answer : option NightDict) : list JsonValue :=
  match answer with
  | Some d => match nd_target d with Some target => [target] | None => [] end
  | None => []
  end.

(** The targets of the answers, in the order of the answers. *)
Definition targets_of (answers : list (string * option NightDict)) : list JsonValue :=
  flat_map (fun a => target_of (snd a)) answers.

Section Collect.
Variable make_night_decision : string -> GameState -> result (option NightDict).

(** Some agent of the list answered with this target. *)
Definition proposed_by (agents : list string) (t : JsonValue) : Prop :=
  exists agent gs d, In agent agents /\
    make_night_decision agent gs = Ok (Some d) /\ nd_target d = Some t.

(** The agents of the list were asked one after the other, each in the state
    that holds the notes of the proposals before, and gave these answers. *)
Inductive answered : list string -> GameState -> list (string * option NightDict) -> Prop :=
  | answered_none (gs : GameState) : answered [] gs []
  | answered_next (agent : string) (rest : list string) (gs : GameState)
      (answer : option NightDict) (answers : list (string * option NightDict)) :
      make_night_decision agent gs = Ok answer ->
      answered rest (noted gs agent answer) answers ->
      answered (agent :: rest) gs ((agent, answer) :: answers).

Lemma collect_proposals_spec (agents : list string) :
  forall o proposals o' proposals',
    collect_proposals make_night_decision agents o proposals = Ok (o', proposals') ->
    night_frame o' = night_frame o /\
    (proposals <> [] -> proposals' <> []) /\
    (forall t, In t (proposed_targets proposals') ->
       In t (proposed_targets proposals) \/ proposed_by agents t).
Proof.
  induction agents as [|agent rest IH]; intros o proposals o' proposals' Hrun;
    simpl in Hrun.
  - injection Hrun as <- <-. repeat split; auto.
  - destruct (make_night_decision agent (game_state o)) as [[d|]|e] eqn:Hd;
      simpl in Hrun; [| |discriminate].
    + destruct (nd_target d) as [target|] eqn:Ht.
      * apply IH in Hrun. destruct Hrun as (Hf & Hne & Hin).
        split; [|split].
        -- rewrite Hf. unfold night_frame, _track_player_night_action.
           simpl. rewrite game_state_observer_info. reflexivity.
        -- intros _. apply Hne. apply dict_set_nonempty.
        -- intros t Hin'. destruct (Hin t Hin') as [H|(a & gs & d' & Ha & Hq & Hq')].
           ++ unfold proposed_targets in H. apply in_map_iff in H.
              destruct H as ([k [t0 r0]] & <- & H).
              apply (in_map snd) in H.
              apply (@dict_set_values (JsonValue * JsonValue)) in H.
              destruct H as [H|H].
              ** right. exists agent, (game_state o), d. simpl in H.
                 injection H as -> _. split; [left; reflexivity|auto].
              ** left. unfold proposed_targets. apply in_map_iff in H.
                 destruct H as (kv & Hkv & H). apply in_map_iff.
                 exists kv. split; [rewrite Hkv; reflexivity|exact H].
           ++ right. exists a, gs, d'. split; [right; exact Ha|auto].
      * apply IH in Hrun. destruct Hrun as (Hf & Hne & Hin).
        split; [exact Hf|split; [exact Hne|]].
        intros t Hin'. destruct (Hin t Hin') as [H|(a & gs & d' & Ha & Hq)]; auto.
        right. exists a, gs, d'. split; [right; exact Ha|exact Hq].
    + apply IH in Hrun. destruct Hrun as (Hf & Hne & Hin).
      split; [exact Hf|split; [exact Hne|]].
      intros t Hin'. destruct (Hin t Hin') as [H|(a & gs & d' & Ha & Hq)]; auto.
      right. exists a, gs, d'. split; [right; exact Ha|exact Hq].
Qed.

(** The proposals collected are the targets of the answers, one for each
    agent that gave one, in the order the agents were asked. *)
Lemma collect_proposals_answered (agents : list string) :
  forall o proposals answers,
    NoDup agents ->
    (forall a, In a agents -> ~ In a (dict_keys proposals)) ->
    answered agents (game_state o) answers ->
    exists o' proposals',
      collect_proposals make_night_decision agents o proposals = Ok (o', proposals') /\
      proposed_targets proposals' = (proposed_targets proposals ++ targets_of answers)%list.
Proof.
  induction agents as [|agent rest IH]; intros o proposals answers Hnd Hfresh Hans;
    inversion Hans as [|? ? ? answer answers' Hdec Hrest]; subst; simpl.
  - exists o, proposals. rewrite app_nil_r. auto.
  - apply NoDup_cons_iff in Hnd. destruct Hnd as [Hagent Hnd].
    rewrite Hdec. cbn [bind].
    assert (Hskip : forall a, In a rest -> ~ In a (dict_keys proposals)).
    { intros a Ha. apply Hfresh. right. exact Ha. }
    destruct answer as [d|]; [destruct (nd_target d) as [target|] eqn:Ht|].
    + set (o1 := _track_player_night_action _ agent "mafia_propose" target
                   (reason_or_default d)).
      assert (Hgs : game_state o1 = noted (game_state o) agent (Some d)).
      { unfold o1, _track_player_night_action, noted. rewrite Ht. simpl.
        rewrite game_state_observer_info. reflexivity. }
      rewrite <- Hgs in Hrest.
      destruct (IH o1 (dict_set proposals agent (target, reason_or_default d)) answers'
                  Hnd) as (o' & proposals' & Hrun & Htargets); [|exact Hrest|].
      * intros a Ha Hin. rewrite dict_set_new in Hin by (apply Hfresh; left; reflexivity).
        unfold dict_keys in Hin. rewrite map_app in Hin. apply in_app_or in Hin.
        destruct Hin as [Hin|[<-|[]]]; [exact (Hskip a Ha Hin)|contradiction].
      * exists o', proposals'. split; [exact Hrun|]. rewrite Htargets.
        rewrite dict_set_new by (apply Hfresh; left; reflexivity).
        unfold proposed_targets, targets_of. simpl. rewrite Ht, map_app, <- app_assoc.
        reflexivity.
    + simpl in Hrest.
      destruct (IH o proposals answers' Hnd Hskip) as (o' & proposals' & Hrun & Htargets).
      * unfold noted in Hrest. rewrite Ht in Hrest. exact Hrest.
      * exists o', proposals'. split; [exact Hrun|]. rewrite Htargets.
        unfold targets_of. simpl. rewrite Ht. reflexivity.
    + destruct (IH o proposals answers' Hnd Hskip Hrest)
        as (o' & proposals' & Hrun & Htargets).
      exists o', proposals'. split; [exact Hrun|]. rewrite Htargets. reflexivity.
Qed.

Definition alive_mafia (o : GameOrchestrator) : list string :=
  filter (fun n => str_in n (alive_players (game_state o))) (mafia_members (game_state o)).

Definition mafia_banner : string := "🔪 Mafia discussing elimination...".

(** The verdict of [_mafia_night_action], from the proposals it collected. *)
Lemma mafia_night_action_spec (o o1 : GameOrchestrator) (proposals : proposals_t) :
  collect_proposals make_night_decision (alive_mafia o) (_observer_info o mafia_banner) []
    = Ok (o1, proposals) ->
  exists o', _mafia_night_action make_night_decision o = Ok o' /\
    players (game_state o') = players (game_state o) /\
    (proposals = [] -> mafia_target (game_state o') = mafia_target (game_state o)) /\
    (proposals <> [] ->
       exists t, mafia_target (game_state o') = json_to_optional t /\
         Plurality.first_plurality (proposed_targets proposals) t).
Proof.
  intros Hrun. unfold _mafia_night_action. fold (alive_mafia o).
  destruct (alive_mafia o) as [|a rest] eqn:Hagents.
  - simpl in Hrun. injection Hrun as <- <-. exists o.
    repeat split; auto. intros H. contradiction.
  - fold mafia_banner. rewrite Hrun. simpl.
    apply collect_proposals_spec in Hrun. destruct Hrun as (Hf & _ & _).
    rewrite night_frame_observer_info in Hf. unfold night_frame in Hf.
    injection Hf as Hps _ _ Hmt _ _.
    destruct proposals as [|p ps] eqn:Hprops.
    + exists o1. repeat split; auto. intros H. contradiction.
    + rewrite <- Hprops.
      assert (Hne : proposed_targets proposals <> []) by (rewrite Hprops; discriminate).
      destruct (Plurality.most_common_first_plurality Hne) as (t & Hmc & Hfp).
      unfold Plurality.tally in Hmc. rewrite Hmc. eexists. split; [reflexivity|].
      rewrite game_state_observer_info. simpl.
      split; [exact Hps|]. split; [intros H; rewrite Hprops in H; discriminate|].
      intros _. exists t. split; [reflexivity|exact Hfp].
Qed.
End Collect.

End NightActions.

(** C10 (as amended): the alive members of the mafia, when they are distinct,
    are asked one after the other, and the targets of their answers are the
    proposals collected, in that order.  When there is one, the consensus
    target is set to the value of a proposed target with the largest number of
    proposals, and among the targets of that number the one proposed first;
    with no proposal the target stays as the night began.  So after the reset
    at the start of the night the resolution finds no target exactly when no
    proposal was collected, or the target so chosen is null or the empty
    string. *)
Theorem mafia_consensus_first_plurality
    (make_night_decision : string -> GameState -> result (option NightDict))
    (o : GameOrchestrator) (answers : list (string * option NightDict)) :
  NoDup (NightActions.alive_mafia o) ->
  NightActions.answered make_night_decision (NightActions.alive_mafia o) (game_state o)
    answers ->
  let targets := NightActions.targets_of answers in
  exists o', _mafia_night_action make_night_decision o = Ok o' /\
    (targets <> [] ->
       exists t, mafia_target (game_state o') = json_to_optional t /\
         In t targets /\
         (forall t', Plurality.count targets t' <= Plurality.count targets t) /\
         exists earlier later,
           targets = (earlier ++ t :: later)%list /\
           forall t', In t' earlier ->
             Plurality.count targets t' < Plurality.count targets t) /\
    (targets = [] -> mafia_target (game_state o') = mafia_target (game_state o)) /\
    (mafia_target (game_state o) = None ->
       (opt_truthy (mafia_target (game_state o')) = false <->
        targets = [] \/ Plurality.first_plurality targets JNull \/
        Plurality.first_plurality targets (JString EmptyString))).
Proof.
  intros Hnd Hans targets.
  destruct (@NightActions.collect_proposals_answered make_night_decision
              (NightActions.alive_mafia o) (_observer_info o NightActions.mafia_banner)
              [] answers Hnd) as (o1 & proposals & Hrun & Htargets).
  { intros a _ []. }
  { rewrite game_state_observer_info. exact Hans. }
  simpl in Htargets. fold targets in Htargets.
  destruct (@NightActions.mafia_night_action_spec make_night_decision o o1 proposals Hrun)
    as (o' & Hact & _ & Hnone & Hsome).
  rewrite Htargets in Hsome.
  assert (Hempty : targets = [] -> proposals = []).
  { intros H. rewrite H in Htargets. unfold proposed_targets in Htargets.
    destruct proposals; [reflexivity|discriminate Htargets]. }
  assert (Hfull : targets <> [] -> proposals <> []).
  { intros H Hp. apply H. rewrite <- Htargets, Hp. reflexivity. }
  exists o'. split; [exact Hact|]. split; [|split].
  - intros Hne. destruct (Hsome (Hfull Hne)) as (t & Ht & Hmax & l1 & l2 & Hl & Hfirst).
    exists t. split; [exact Ht|]. split; [|split; [exact Hmax|]].
    + rewrite Hl. apply in_or_app. right. left. reflexivity.
    + exists l1, l2. split; assumption.
  - intros H. apply Hnone. apply Hempty. exact H.
  - intros Hreset. split.
    + intros Hfalsy. destruct targets as [|t0 ts] eqn:Hts; [left; reflexivity|].
      right. destruct Hsome as (t & Ht & Hfp); [apply Hfull; discriminate|].
      rewrite Ht in Hfalsy. destruct t as [|s]; [left; exact Hfp|].
      right. simpl in Hfalsy. unfold str_truthy in Hfalsy.
      destruct s; [exact Hfp|discriminate Hfalsy].
    + intros [H|H].
      * rewrite (Hnone (Hempty H)), Hreset. reflexivity.
      * assert (Hne : targets <> []).
        { destruct H as [(_ & l1 & l2 & Hl & _)|(_ & l1 & l2 & Hl & _)];
            rewrite Hl; destruct l1; discriminate. }
        destruct (Hsome (Hfull Hne)) as (t & Ht & Hfp). rewrite Ht.
        destruct H as [H|H]; rewrite (Plurality.first_plurality_unique Hfp H); reflexivity.
Qed.

Module ConsensusExample.

Definition six_players : list Player :=
  [mkPlayer "Ann" "calm" VILLAGER true 0; mkPlayer "Ben" "loud" DOCTOR true 0;
   mkPlayer "Cat" "sly" MAFIA true 0; mkPlayer "Dan" "shy" DETECTIVE true 0;
   mkPlayer "Eve" "bold" MAFIA true 0; mkPlayer "Fay" "wry" MAFIA true 0;
   mkPlayer "Gus" "dry" MAFIA true 0].

Definition night_start : GameOrchestrator :=
  NightResolution.orchestrator_of (NightResolution.quiet_state six_players None None).

Definition ben : NightDict :=
  mkNightDict (Some (JString "Ben")) (Some (JString "the doctor, I think")).

Definition ann : NightDict := mkNightDict (Some (JString "Ann")) None.

(** Cat and Fay propose Ben, Eve and Gus propose Ann: two proposals each, Ben
    proposed first and Ann last. *)
Definition split_vote (agent : string) (_ : GameState) : result (option NightDict) :=
  if str_in agent ["Cat"; "Fay"] then Ok (Some ben) else Ok (Some ann).

(** Cat proposes Ann, Eve has no answer, Fay and Gus propose Ben. *)
Definition late_majority (agent : string) (_ : GameState) : result (option NightDict) :=
  if String.eqb agent "Cat" then Ok (Some ann)
  else if String.eqb agent "Eve" then Ok None
  else Ok (Some ben).

(** The answer of the language model was [{"target": null, "reason": "..."}]. *)
Definition no_idea : NightDict := mkNightDict (Some JNull) (Some (JString "no idea")).

Definition undecided (_ : string) (_ : GameState) : result (option NightDict) :=
  Ok (Some no_idea).

(** The sentence of the claim that fails: the night has no target only when no
    proposal was collected. *)
Definition no_target_without_proposal_only : Prop :=
  forall make_night_decision o o1 proposals o',
    mafia_target (game_state o) = None ->
    collect_proposals make_night_decision (NightActions.alive_mafia o)
      (_observer_info o NightActions.mafia_banner) [] = Ok (o1, proposals) ->
    _mafia_night_action make_night_decision o = Ok o' ->
    opt_truthy (mafia_target (game_state o')) = false ->
    proposals = [].

Lemma null_target_is_a_proposal :
  ~ no_target_without_proposal_only /\
  exists o1 o',
    collect_proposals undecided (NightActions.alive_mafia night_start)
      (_observer_info night_start NightActions.mafia_banner) []
      = Ok (o1, [("Cat", (JNull, JString "no idea")); ("Eve", (JNull, JString "no idea"));
                 ("Fay", (JNull, JString "no idea")); ("Gus", (JNull, JString "no idea"))]) /\
    _mafia_night_action undecided night_start = Ok o' /\
    mafia_target (game_state o') = None.
Proof.
  assert (Hrun : exists o1 o',
    collect_proposals undecided (NightActions.alive_mafia night_start)
      (_observer_info night_start NightActions.mafia_banner) []
      = Ok (o1, [("Cat", (JNull, JString "no idea")); ("Eve", (JNull, JString "no idea"));
                 ("Fay", (JNull, JString "no idea")); ("Gus", (JNull, JString "no idea"))]) /\
    _mafia_night_action undecided night_start = Ok o' /\
    mafia_target (game_state o') = None).
  { eexists. eexists. split; [vm_compute; reflexivity|].
    split; [vm_compute; reflexivity|reflexivity]. }
  split; [|exact Hrun].
  intros Hclaim. destruct Hrun as (o1 & o' & Hc & Ha & Ht).
  assert (Hno := Hclaim undecided night_start o1 _ o' eq_refl Hc Ha).
  rewrite Ht in Hno. specialize (Hno eq_refl). discriminate Hno.
Qed.

End ConsensusExample.

Lemma mafia_consensus_first_plurality_witness :
  (exists o', _mafia_night_action ConsensusExample.split_vote ConsensusExample.night_start
              = Ok o' /\
     mafia_target (game_state o') = Some "Ben") /\
  (exists o', _mafia_night_action ConsensusExample.late_majority ConsensusExample.night_start
              = Ok o' /\
     mafia_target (game_state o') = Some "Ben").
Proof.
  assert (Hnd : NoDup (NightActions.alive_mafia ConsensusExample.night_start)).
  { vm_compute. repeat constructor; simpl; intuition discriminate. }
  split.
  - destruct (@mafia_consensus_first_plurality ConsensusExample.split_vote
                ConsensusExample.night_start
                [("Cat", Some ConsensusExample.ben); ("Eve", Some ConsensusExample.ann);
                 ("Fay", Some ConsensusExample.ben); ("Gus", Some ConsensusExample.ann)] Hnd)
      as (o' & Hact & Hsome & _).
    + repeat (econstructor; [reflexivity|]). constructor.
    + exists o'. split; [exact Hact|].
      vm_compute in Hact. injection Hact as <-. reflexivity.
  - destruct (@mafia_consensus_first_plurality ConsensusExample.late_majority
                ConsensusExample.night_start
                [("Cat", Some ConsensusExample.ann); ("Eve", None);
                 ("Fay", Some ConsensusExample.ben); ("Gus", Some ConsensusExample.ben)] Hnd)
      as (o' & Hact & Hsome & _).
    + repeat (econstructor; [reflexivity|]). constructor.
    + exists o'. split; [exact Hact|].
      vm_compute in Hact. injection Hact as <-. reflexivity.
Defined.

(** ** Are night targets checked? *)

Module NightTargets.

(** The first half of the claim: the consensus target of a night is an alive
    player who is not of the mafia. *)
Definition consensus_is_alive_villager : Prop :=
  forall make_night_decision o o' t,
    mafia_target (game_state o) = None ->
    _mafia_night_action make_night_decision o = Ok o' ->
    mafia_target (game_state o') = Some t ->
    exists p, In p (get_alive_players (game_state o)) /\ name p = t /\ role p <> MAFIA.

(** The second half: a target that enters the detective's findings is alive
    and was not in the findings before. *)
Definition finding_is_fresh_and_alive : Prop :=
  forall make_night_decision o o' t,
    _detective_night_action make_night_decision o = Ok o' ->
    detective_check (game_state o') = Some t ->
    dict_get (detective_results (game_state o')) t <> None ->
    dict_get (detective_results (game_state o)) t = None /\
    exists p, In p (get_alive_players (game_state o)) /\ name p = t.

(** Every agent names Cat, who is of the mafia. *)
Definition name_cat (_ : string) (_ : GameState) : result (option NightDict) :=
  Ok (Some (mkNightDict (Some (JString "Cat")) (Some (JString "why not")))).

Definition all_alive : GameOrchestrator :=
  NightResolution.orchestrator_of
    (NightResolution.quiet_state NightResolution.four_players None None).

(** Ann was eliminated earlier; every agent names her. *)
Definition name_ann (_ : string) (_ : GameState) : result (option NightDict) :=
  Ok (Some (mkNightDict (Some (JString "Ann")) None)).

Definition ann_dead : GameOrchestrator :=
  NightResolution.orchestrator_of
    (NightResolution.quiet_state
       [mkPlayer "Ann" "calm" VILLAGER false 0; mkPlayer "Ben" "loud" DOCTOR true 0;
        mkPlayer "Cat" "sly" MAFIA true 0; mkPlayer "Dan" "shy" DETECTIVE true 0]
       None None).

Lemma night_targets_unchecked :
  ~ consensus_is_alive_villager /\ ~ finding_is_fresh_and_alive.
Proof.
  split.
  - intros H.
    destruct (H name_cat all_alive _ "Cat" eq_refl eq_refl eq_refl)
      as (p & Hin & Hname & Hrole).
    simpl in Hin.
    destruct Hin as [<-|[<-|[<-|[<-|[]]]]]; try discriminate Hname.
    apply Hrole. reflexivity.
  - intros H.
    destruct (H name_ann ann_dead _ "Ann" eq_refl eq_refl) as (_ & p & Hin & Hname).
    + vm_compute. discriminate.
    + simpl in Hin. destruct Hin as [<-|[<-|[<-|[]]]]; discriminate Hname.
Qed.

Section Detective.
Variable make_night_decision : string -> GameState -> result (option NightDict).

Lemma detective_findings (o o' : GameOrchestrator) :
  _detective_night_action make_night_decision o = Ok o' ->
  players (game_state o') = players (game_state o) /\
  forall k v, dict_get (detective_results (game_state o')) k = Some v ->
    (exists p, get_player_by_name (game_state o) k = Some p /\ v = Role_value (role p)) \/
    dict_get (detective_results (game_state o)) k = Some v.
Proof.
  unfold _detective_night_action.
  destruct (alive_agents_of_role (game_state o) DETECTIVE) as [|detective rest].
  { intros [= <-]. split; auto. }
  destruct (make_night_decision (name detective) (game_state o)) as [[d|]|e];
    simpl; [| |discriminate].
  2:{ intros [= <-]. split; auto. }
  destruct (nd_target d) as [[|target]|].
  1, 3: intros [= <-]; split; auto.
  unfold get_player_by_name at 1. simpl.
  destruct (find _ (players (game_state o))) as [p|] eqn:Hp.
  - intros [= <-]. unfold _track_player_night_action. simpl.
    rewrite game_state_observer_info. simpl. split; [reflexivity|].
    intros k v. rewrite NightActions.dict_get_set.
    destruct (String.eqb_spec target k) as [<-|Hne]; [|auto].
    intros [= <-]. left. exists p. split; [exact Hp|reflexivity].
  - intros [= <-]. simpl. split; auto.
Qed.
End Detective.

End NightTargets.

(** C9 (as amended): the core accepts night targets without checking them
    against a candidate set.  The consensus target is one of the targets that
    an alive member of the mafia proposed, whoever that names; and the detective's
    target enters the findings only when it names a participant of the game,
    alive or not and investigated before or not, always with that participant's
    true role. *)
Theorem night_targets_accepted
    (make_night_decision : string -> GameState -> result (option NightDict))
    (o : GameOrchestrator) :
  (forall o1 proposals o' t,
     collect_proposals make_night_decision (NightActions.alive_mafia o)
       (_observer_info o NightActions.mafia_banner) [] = Ok (o1, proposals) ->
     mafia_target (game_state o) = None ->
     _mafia_night_action make_night_decision o = Ok o' ->
     mafia_target (game_state o') = Some t ->
     In (JString t) (proposed_targets proposals) /\
     NightActions.proposed_by make_night_decision (NightActions.alive_mafia o) (JString t)) /\
  (forall o' k v,
     _detective_night_action make_night_decision o = Ok o' ->
     dict_get (detective_results (game_state o')) k = Some v ->
     (exists p, get_player_by_name (game_state o) k = Some p /\ v = Role_value (role p)) \/
     dict_get (detective_results (game_state o)) k = Some v).
Proof.
  split.
  - intros o1 proposals o' t Hrun Hreset Hact Ht.
    destruct (@NightActions.mafia_night_action_spec make_night_decision o o1 proposals Hrun)
      as (o2 & Hact2 & _ & Hnone & Hsome).
    rewrite Hact in Hact2. injection Hact2 as <-.
    assert (Hin : In (JString t) (proposed_targets proposals)).
    { destruct proposals as [|p ps].
      - rewrite Hnone in Ht by reflexivity. congruence.
      - destruct Hsome as (t0 & Ht0 & _ & l1 & l2 & Hl & _); [discriminate|].
        rewrite Ht in Ht0. destruct t0 as [|s]; [discriminate Ht0|].
        injection Ht0 as <-.
        rewrite Hl. apply in_or_app. right. left. reflexivity. }
    split; [exact Hin|].
    apply NightActions.collect_proposals_spec in Hrun.
    destruct Hrun as (_ & _ & Hsrc).
    destruct (Hsrc (JString t) Hin) as [[]|H]. exact H.
  - intros o' k v Hrun. apply (@NightTargets.detective_findings make_night_decision o o' Hrun).
Qed.

Lemma night_targets_accepted_witness :
  exists o', _mafia_night_action NightTargets.name_cat NightTargets.all_alive = Ok o' /\
    mafia_target (game_state o') = Some "Cat" /\
    In "Cat" (NightActions.alive_mafia NightTargets.all_alive).
Proof.
  eexists. split; [vm_compute; reflexivity|]. split; [reflexivity|].
  destruct (@night_targets_accepted NightTargets.name_cat NightTargets.all_alive)
    as (Hm & _).
  destruct (Hm _ _ _ "Cat" eq_refl eq_refl eq_refl eq_refl) as (_ & a & gs & d & Ha & _).
  vm_compute in Ha. destruct Ha as [<-|[]]. left. reflexivity.
Defined.

(** ** Casting votes *)

Unset Implicit Arguments.

Module Votes.

(** No entry of a vote map has the voter as its target. *)
Definition no_self_vote (votes : dict string) : Prop :=
  forall voter target, In (voter, target) votes -> voter <> target.

Lemma dict_set_in (V : Type) (d : dict V) (k : string) (v : V) (a : string) (b : V) :
  In (a, b) (dict_set d k v) -> (a, b) = (k, v) \/ In (a, b) d.
Proof.
  induction d as [|[k0 v0] d IH]; simpl.
  - intros [H|[]]. left. symmetry. exact H.
  - destruct (String.eqb_spec k0 k) as [->|Hne]; simpl.
    + intros [H|H]; [left; symmetry; exact H|right; right; exact H].
    + intros [H|H]; [right; left; exact H|]. destruct (IH H); auto.
Qed.

Lemma dict_get_set_same (V : Type) (d : dict V) (k : string) (v : V) :
  dict_get (dict_set d k v) k = Some v.
Proof. rewrite NightActions.dict_get_set, String.eqb_refl. reflexivity. Qed.

Lemma no_self_vote_set (votes : dict string) (voter target : string) :
  no_self_vote votes -> voter <> target -> no_self_vote (dict_set votes voter target).
Proof.
  intros H Hne a b Hin. apply dict_set_in in Hin.
  destruct Hin as [[= -> ->]|Hin]; [exact Hne|exact (H a b Hin)].
Qed.

Lemma candidates_not_self (alive_players : list string) (agent_name t : string) :
  In t (candidates_of alive_players agent_name) -> t <> agent_name.
Proof.
  unfold candidates_of. intros Hin. apply filter_In in Hin. destruct Hin as [_ Hneq].
  intros ->. rewrite String.eqb_refl in Hneq. discriminate.
Qed.

Lemma closest_match_in (candidates : list string) (returned fallback : string) :
  In fallback candidates -> In (closest_match candidates returned fallback) candidates.
Proof.
  intros Hf. assert (H : closest_match candidates returned fallback = fallback \/
                         In (closest_match candidates returned fallback) candidates).
  { clear Hf. induction candidates as [|c cs IH]; simpl; [left; reflexivity|].
    destruct (str_contains (lower c) (lower returned)); [right; left; reflexivity|].
    destruct IH as [->|IH]; auto. }
  destruct H as [->|H]; assumption.
Qed.

(** [closest_match] picks the first candidate whose lower-cased name occurs in
    the lower-cased returned target, and the fallback when none does. *)
Lemma closest_match_first (candidates : list string) (returned fallback : string) :
  (exists before after,
     candidates = (before ++ closest_match candidates returned fallback :: after)%list /\
     str_contains (lower (closest_match candidates returned fallback)) (lower returned) = true /\
     forall c, In c before -> str_contains (lower c) (lower returned) = false) \/
  (closest_match candidates returned fallback = fallback /\
   forall c, In c candidates -> str_contains (lower c) (lower returned) = false).
Proof.
  induction candidates as [|c cs IH]; simpl.
  - right. split; [reflexivity|]. intros c [].
  - destruct (str_contains (lower c) (lower returned)) eqn:Hc.
    + left. exists [], cs. split; [reflexivity|]. split; [exact Hc|]. intros x [].
    + destruct IH as [(before & after & Heq & Hm & Hb)|(Hfb & Hnone)].
      * left. exists (c :: before), after. split; [simpl; f_equal; exact Heq|].
        split; [exact Hm|]. intros x [<-|Hx]; auto.
      * right. split; [exact Hfb|]. intros x [<-|Hx]; auto.
Qed.

Section Casting.
Variable vote : string -> GameState -> list string -> result VoteResult.
Variable final_vote_decision :
  string -> GameState -> string -> list string -> result VoteDecision.

Lemma game_state_record_initial_vote (b : Ballot) (a t r : string) :
  game_state (b_orch (record_initial_vote b a t r)) =
  game_state (tally_vote (b_orch b) a t).
Proof.
  unfold record_initial_vote. simpl.
  rewrite game_state_observer_info, game_state_player_announce. reflexivity.
Qed.

Lemma votes_record_initial_vote (b : Ballot) (a t r : string) :
  votes (game_state (b_orch (record_initial_vote b a t r))) =
  dict_set (votes (game_state (b_orch b))) a t.
Proof. rewrite game_state_record_initial_vote. reflexivity. Qed.

(** The three ways the body of the initial vote ends for one voter. *)
Lemma cast_initial_vote_cases (alive_players : list string) (b b' : Ballot)
    (agent_name : string) :
  cast_initial_vote vote alive_players b agent_name = Ok b' ->
  b' = b \/
  exists t r, In t (candidates_of alive_players agent_name) /\
    b' = record_initial_vote b agent_name t r.
Proof.
  unfold cast_initial_vote.
  destruct (vote agent_name _ _) as [vr|e]; simpl; [|discriminate].
  set (tr := match vr with VoteDict t r => (t, r) | VoteStr t => (t, "No reason given") end).
  destruct tr as [vote_target vote_reason].
  destruct (str_in vote_target _) eqn:Hin.
  - intros [= <-]. right. exists vote_target, vote_reason.
    split; [apply str_in_iff; exact Hin|reflexivity].
  - destruct (String.eqb vote_target agent_name).
    + destruct (candidates_of alive_players agent_name) as [|first rest] eqn:Hc.
      * intros [= <-]. left. reflexivity.
      * destruct (str_truthy first).
        -- intros [= <-]. right. eexists first, _. split; [left; reflexivity|reflexivity].
        -- intros [= <-]. left. reflexivity.
    + intros [= <-]. left. reflexivity.
Qed.

Lemma cast_initial_votes_no_self_vote (alive_players voters : list string) :
  forall b b', cast_initial_votes vote alive_players voters b = Ok b' ->
    no_self_vote (votes (game_state (b_orch b))) ->
    no_self_vote (votes (game_state (b_orch b'))).
Proof.
  induction voters as [|a rest IH]; intros b b' Hrun Hinv; simpl in Hrun.
  - injection Hrun as <-. exact Hinv.
  - destruct (cast_initial_vote vote alive_players b a) as [b1|e] eqn:Hstep;
      simpl in Hrun; [|discriminate].
    apply (IH _ _ Hrun).
    destruct (cast_initial_vote_cases _ _ _ _ Hstep) as [->|(t & r & Hin & ->)];
      [exact Hinv|].
    rewrite votes_record_initial_vote. apply no_self_vote_set; [exact Hinv|].
    intros ->. exact (@candidates_not_self _ _ _ Hin eq_refl).
Qed.

(** The target the final vote settles on for one voter. *)
Definition final_target (agent_name : string) (candidates : list string)
    (vote_decision : VoteDecision) : option string :=
  if str_in (vd_target vote_decision) candidates then Some (vd_target vote_decision)
  else if String.eqb (vd_target vote_decision) agent_name then hd_error candidates
  else match candidates with
       | [] => None
       | first :: _ => Some (closest_match candidates (vd_target vote_decision) first)
       end.

Lemma final_target_in (agent_name : string) (candidates : list string)
    (d : VoteDecision) (t : string) :
  final_target agent_name candidates d = Some t -> In t candidates.
Proof.
  unfold final_target. destruct (str_in (vd_target d) candidates) eqn:Hin.
  - intros [= <-]. apply str_in_iff. exact Hin.
  - destruct (String.eqb (vd_target d) agent_name).
    + destruct candidates; simpl; [discriminate|]. intros [= <-]. left. reflexivity.
    + destruct candidates as [|first rest]; [discriminate|].
      intros H. injection H as <-.
      apply (closest_match_in (first :: rest)). left. reflexivity.
Qed.

Lemma cast_final_vote_votes (suspect : string) (alive_players : list string)
    (b b' : Ballot) (agent_name : string) (d : VoteDecision) :
  final_vote_decision agent_name (game_state (b_orch b)) suspect
    (candidates_of alive_players agent_name) = Ok d ->
  cast_final_vote final_vote_decision suspect alive_players b agent_name = Ok b' ->
  let target := final_target agent_name (candidates_of alive_players agent_name) d in
  (votes (game_state (b_orch b')), vote_counts (game_state (b_orch b'))) =
  match target with
  | Some t =>
      if str_truthy t
      then (dict_set (votes (game_state (b_orch b))) agent_name t,
            counter_add (vote_counts (game_state (b_orch b))) t)
      else (votes (game_state (b_orch b)), vote_counts (game_state (b_orch b)))
  | None => (votes (game_state (b_orch b)), vote_counts (game_state (b_orch b)))
  end.
Proof.
  intros Hd. unfold cast_final_vote, final_target. rewrite Hd. simpl.
  set (cands := candidates_of alive_players agent_name).
  destruct (str_in (vd_target d) cands).
  - simpl. destruct (str_truthy (vd_target d)); intros [= <-]; simpl;
      rewrite game_state_observer_info, game_state_player_announce;
      destruct (get_player_by_name _ _); reflexivity.
  - destruct (String.eqb (vd_target d) agent_name).
    + destruct cands as [|first rest]; simpl.
      * intros [= <-]; simpl.
        rewrite game_state_observer_info, game_state_player_announce. reflexivity.
      * destruct (str_truthy first); intros [= <-]; simpl;
          rewrite game_state_observer_info, game_state_player_announce;
          destruct (get_player_by_name _ _); reflexivity.
    + destruct cands as [|first rest].
      * simpl. intros [= <-]; simpl.
        rewrite game_state_observer_info, game_state_player_announce. reflexivity.
      * remember (closest_match (first :: rest) (vd_target d) first) as m.
        simpl. destruct (str_truthy m); intros [= <-]; simpl;
          rewrite game_state_observer_info, game_state_player_announce;
          destruct (get_player_by_name _ _); reflexivity.
Qed.

Lemma cast_final_votes_no_self_vote (suspect : string) (alive_players voters : list string) :
  forall b b', cast_final_votes final_vote_decision suspect alive_players voters b = Ok b' ->
    no_self_vote (votes (game_state (b_orch b))) ->
    no_self_vote (votes (game_state (b_orch b'))).
Proof.
  induction voters as [|a rest IH]; intros b b' Hrun Hinv; simpl in Hrun.
  - injection Hrun as <-. exact Hinv.
  - destruct (cast_final_vote final_vote_decision suspect alive_players b a)
      as [b1|e] eqn:Hstep; simpl in Hrun; [|discriminate].
    apply (IH _ _ Hrun).
    destruct (final_vote_decision a (game_state (b_orch b)) suspect
                (candidates_of alive_players a)) as [d|e] eqn:Hd.
    2:{ unfold cast_final_vote in Hstep. rewrite Hd in Hstep. discriminate. }
    pose proof (cast_final_vote_votes _ _ _ _ _ _ Hd Hstep) as Hv. simpl in Hv.
    destruct (final_target a (candidates_of alive_players a) d) as [t|] eqn:Ht.
    + destruct (str_truthy t); injection Hv as -> _; [|exact Hinv].
      apply no_self_vote_set; [exact Hinv|].
      intros ->. apply final_target_in in Ht.
      exact (@candidates_not_self _ _ _ Ht eq_refl).
    + injection Hv as -> _. exact Hinv.
Qed.

End Casting.

End Votes.

(** ** No self-vote *)

Module SelfVote.

Definition synthetic_reason (fallback : string) : string :=
  "Cannot vote for self, voting " ++ fallback ++ " instead".

Definition target_of (r : VoteResult) : string :=
  match r with VoteDict t _ => t | VoteStr t => t end.

Lemma self_not_candidate (alive_players : list string) (agent_name : string) :
  str_in agent_name (candidates_of alive_players agent_name) = false.
Proof.
  destruct (str_in _ _) eqn:H; [|reflexivity].
  apply str_in_iff in H. exfalso. exact (Votes.candidates_not_self _ _ _ H eq_refl).
Qed.

Section Substitution.
Variable vote : string -> GameState -> list string -> result VoteResult.
Variable final_vote_decision :
  string -> GameState -> string -> list string -> result VoteDecision.

Lemma initial_self_vote_replaced (alive_players : list string) (b : Ballot)
    (agent_name first : string) (rest : list string) (r : VoteResult) :
  vote agent_name (game_state (b_orch b)) (candidates_of alive_players agent_name) = Ok r ->
  target_of r = agent_name ->
  candidates_of alive_players agent_name = first :: rest ->
  str_truthy first = true ->
  cast_initial_vote vote alive_players b agent_name =
  Ok (record_initial_vote b agent_name first (synthetic_reason first)).
Proof.
  intros Hr Ht Hc Hf. unfold cast_initial_vote. rewrite Hr. simpl.
  assert (Hpair : exists reason,
            match r with
            | VoteDict target reason => (target, reason)
            | VoteStr target => (target, "No reason given")
            end = (agent_name, reason)).
  { destruct r; simpl in Ht; subst; eexists; reflexivity. }
  destruct Hpair as (reason & ->).
  rewrite self_not_candidate, String.eqb_refl, Hc, Hf. reflexivity.
Qed.

Lemma final_self_vote_replaced (suspect : string) (alive_players : list string)
    (b : Ballot) (agent_name first : string) (rest : list string) (d : VoteDecision) :
  final_vote_decision agent_name (game_state (b_orch b)) suspect
    (candidates_of alive_players agent_name) = Ok d ->
  vd_target d = agent_name ->
  candidates_of alive_players agent_name = first :: rest ->
  str_truthy first = true ->
  exists b', cast_final_vote final_vote_decision suspect alive_players b agent_name = Ok b' /\
    votes (game_state (b_orch b')) = dict_set (votes (game_state (b_orch b))) agent_name first /\
    b_records b' =
      (b_records b ++ [mkVoteRecord agent_name (Some first) (synthetic_reason first)])%list.
Proof.
  intros Hd Ht Hc Hf. unfold cast_final_vote. rewrite Hd. simpl.
  rewrite Ht, self_not_candidate, String.eqb_refl, Hc. simpl. rewrite Hf.
  eexists. split; [reflexivity|]. simpl.
  rewrite game_state_observer_info, game_state_player_announce.
  split; [|reflexivity].
  destruct (get_player_by_name _ first); reflexivity.
Qed.

End Substitution.

(** A round of four in which Ben names himself. *)
Definition four_alive : list string := ["Ann"; "Ben"; "Cat"; "Dan"].

Definition ben_votes_ben (agent_name : string) (_ : GameState) (_ : list string)
  : result VoteResult :=
  if String.eqb agent_name "Ben" then Ok (VoteDict "Ben" "I trust nobody")
  else Ok (VoteDict "Ben" "too quiet").

Definition ben_decides_ben (agent_name : string) (_ : GameState) (_ : string)
    (_ : list string) : result VoteDecision :=
  Ok (mkVoteDecision "Ben" "still him").

Definition fresh_ballot : Ballot :=
  mkBallot
    (with_game_state NightTargets.all_alive
       (reset_votes (game_state NightTargets.all_alive))) [] [].

End SelfVote.



(** ** Votes outside the candidate list *)

Module OutsideVotes.

Definition matches (returned candidate : string) : bool :=
  str_contains (lower candidate) (lower returned).

(** The rule of the claim: a returned target outside the list goes to the
    first candidate unless exactly one candidate matches it. *)
Definition unique_match_or_first : Prop :=
  forall candidates returned first rest,
    candidates = first :: rest -> ~ In returned candidates ->
    List.length (filter (matches returned) candidates) <> 1 ->
    closest_match candidates returned first = first.

Definition miranda_candidates : list string := ["Victor"; "Elena"; "Rosa"].

Definition undecided (_ : string) (_ : GameState) (_ : string) (_ : list string)
  : result VoteDecision :=
  Ok (mkVoteDecision "rosa or ELENA" "one of the two").

Definition miranda_ballot : Ballot :=
  mkBallot (NightResolution.orchestrator_of
              (NightResolution.quiet_state
                 [mkPlayer "Miranda" "wary" VILLAGER true 0;
                  mkPlayer "Victor" "smooth" MAFIA true 0;
                  mkPlayer "Elena" "logical" DOCTOR true 0;
                  mkPlayer "Rosa" "intuitive" DETECTIVE true 0] None None)) [] [].

Lemma two_matches_first_one_wins :
  ~ unique_match_or_first /\
  exists b', cast_final_vote undecided "Victor" ("Miranda" :: miranda_candidates)
               miranda_ballot "Miranda" = Ok b' /\
    votes (game_state (b_orch b')) = [("Miranda", "Elena")].
Proof.
  split.
  - intros H.
    specialize (H miranda_candidates "rosa or ELENA" "Victor" ["Elena"; "Rosa"] eq_refl).
    assert (Hbad : closest_match miranda_candidates "rosa or ELENA" "Victor" = "Victor").
    { apply H.
      - intros [E|[E|[E|[]]]]; discriminate E.
      - vm_compute. discriminate. }
    vm_compute in Hbad. discriminate Hbad.
  - eexists. split; [vm_compute; reflexivity|reflexivity].
Qed.

Section Matching.
Variable final_vote_decision :
  string -> GameState -> string -> list string -> result VoteDecision.

Lemma tally_vote_fields (o : GameOrchestrator) (a t : string) :
  votes (game_state (tally_vote o a t)) = dict_set (votes (game_state o)) a t /\
  vote_counts (game_state (tally_vote o a t)) = counter_add (vote_counts (game_state o)) t.
Proof. split; reflexivity. Qed.

Lemma agent_vote_outside (d : VoteDecision) (candidates : list string)
    (first : string) (rest : list string) :
  candidates = first :: rest ->
  str_in (vd_target d) candidates = false ->
  agent_vote d candidates =
  Ok (mkVoteDecision (closest_match candidates (vd_target d) first) (vd_reason d)).
Proof. intros -> Hout. unfold agent_vote. rewrite Hout. reflexivity. Qed.

Lemma initial_outside_vote (generate : string -> GameState -> list string -> VoteDecision)
    (alive_players : list string) (b : Ballot) (agent_name first : string)
    (rest : list string) :
  let candidates := candidates_of alive_players agent_name in
  let d := generate agent_name (game_state (b_orch b)) candidates in
  candidates = first :: rest ->
  str_in (vd_target d) candidates = false ->
  cast_initial_vote (role_agent_vote generate) alive_players b agent_name =
  Ok (record_initial_vote b agent_name (closest_match candidates (vd_target d) first)
        (vd_reason d)).
Proof.
  intros candidates d Hc Hout. unfold cast_initial_vote, role_agent_vote.
  fold candidates. fold d. rewrite (agent_vote_outside d candidates first rest Hc Hout).
  cbn [bind vd_target vd_reason].
  assert (Hin : str_in (closest_match candidates (vd_target d) first) candidates = true).
  { apply str_in_iff. apply Votes.closest_match_in. rewrite Hc. left. reflexivity. }
  rewrite Hin. reflexivity.
Qed.

Lemma final_outside_vote (suspect : string) (alive_players : list string) (b : Ballot)
    (agent_name first : string) (rest : list string) (d : VoteDecision) :
  let candidates := candidates_of alive_players agent_name in
  final_vote_decision agent_name (game_state (b_orch b)) suspect candidates = Ok d ->
  candidates = first :: rest ->
  str_in (vd_target d) candidates = false ->
  vd_target d <> agent_name ->
  str_truthy (closest_match candidates (vd_target d) first) = true ->
  exists b', cast_final_vote final_vote_decision suspect alive_players b agent_name = Ok b' /\
    votes (game_state (b_orch b')) =
      dict_set (votes (game_state (b_orch b))) agent_name
        (closest_match candidates (vd_target d) first) /\
    vote_counts (game_state (b_orch b')) =
      counter_add (vote_counts (game_state (b_orch b)))
        (closest_match candidates (vd_target d) first).
Proof.
  intros candidates Hd Hc Hout Hself Htruthy.
  destruct (cast_final_vote final_vote_decision suspect alive_players b agent_name)
    as [b'|e] eqn:Hrun.
  2:{ unfold cast_final_vote in Hrun. fold candidates in Hrun. rewrite Hd in Hrun.
      simpl in Hrun. repeat match type of Hrun with
        | context [let (_, _) := ?x in _] => destruct x
        end. discriminate Hrun. }
  exists b'. split; [reflexivity|].
  pose proof (Votes.cast_final_vote_votes final_vote_decision suspect alive_players b b'
                agent_name d Hd Hrun) as Hv.
  simpl in Hv. fold candidates in Hv. unfold Votes.final_target in Hv.
  rewrite Hout in Hv.
  destruct (String.eqb_spec (vd_target d) agent_name) as [E|_]; [contradiction|].
  rewrite Hc in Hv. rewrite <- Hc in Hv. rewrite Htruthy in Hv.
  injection Hv as Hv1 Hv2. split; assumption.
Qed.

End Matching.

End OutsideVotes.

(** C5 (as amended): a returned target outside the voter's candidate list is
    replaced by the first candidate, in list order, whose lower-cased name
    occurs in the lower-cased returned target, however many candidates match,
    and by the first candidate of the list when none does; with a candidate
    list that is not empty the vote tallied for the voter is for a candidate
    of the list, in the initial vote (through the agent's [vote]) and in the
    final vote (where the chosen name must not be empty). *)
Theorem outside_vote_goes_to_first_match
    (alive_players : list string) (agent_name first : string) (rest : list string)
    (returned : string) :
  let candidates := candidates_of alive_players agent_name in
  let chosen := closest_match candidates returned first in
  candidates = first :: rest ->
  str_in returned candidates = false ->
  In chosen candidates /\
  ((exists before after, candidates = (before ++ chosen :: after)%list /\
      OutsideVotes.matches returned chosen = true /\
      forall c, In c before -> OutsideVotes.matches returned c = false) \/
   (chosen = first /\ forall c, In c candidates -> OutsideVotes.matches returned c = false)) /\
  (forall generate b,
     vd_target (generate agent_name (game_state (b_orch b)) candidates) = returned ->
     exists b', cast_initial_vote (role_agent_vote generate) alive_players b agent_name = Ok b' /\
       votes (game_state (b_orch b')) =
         dict_set (votes (game_state (b_orch b))) agent_name chosen /\
       vote_counts (game_state (b_orch b')) =
         counter_add (vote_counts (game_state (b_orch b))) chosen) /\
  (forall final_vote_decision suspect b reason,
     final_vote_decision agent_name (game_state (b_orch b)) suspect candidates
       = Ok (mkVoteDecision returned reason) ->
     returned <> agent_name ->
     str_truthy chosen = true ->
     exists b', cast_final_vote final_vote_decision suspect alive_players b agent_name = Ok b' /\
       votes (game_state (b_orch b')) =
         dict_set (votes (game_state (b_orch b))) agent_name chosen /\
       vote_counts (game_state (b_orch b')) =
         counter_add (vote_counts (game_state (b_orch b))) chosen).
Proof.
  intros candidates chosen Hc Hout. split; [|split; [|split]].
  - apply Votes.closest_match_in. rewrite Hc. left. reflexivity.
  - apply Votes.closest_match_first.
  - intros generate b Hgen.
    pose proof (OutsideVotes.initial_outside_vote generate alive_players b agent_name
                  first rest) as H.
    simpl in H. fold candidates in H. rewrite Hgen in H. fold chosen in H.
    rewrite (H Hc Hout). eexists. split; [reflexivity|].
    rewrite Votes.game_state_record_initial_vote.
    apply OutsideVotes.tally_vote_fields.
  - intros final_vote_decision suspect b reason Hd Hself Htruthy.
    apply (OutsideVotes.final_outside_vote final_vote_decision suspect alive_players b
             agent_name first rest _ Hd Hc Hout Hself Htruthy).
Qed.

Lemma outside_vote_goes_to_first_match_witness :
  closest_match OutsideVotes.miranda_candidates "rosa or ELENA" "Victor" = "Elena" /\
  In "Elena" OutsideVotes.miranda_candidates.
Proof.
  split; [reflexivity|].
  exact (proj1 (outside_vote_goes_to_first_match
                  ("Miranda" :: OutsideVotes.miranda_candidates) "Miranda" "Victor"
                  ["Elena"; "Rosa"] "rosa or ELENA" eq_refl eq_refl)).
Defined.

(** ** The voting rounds of a day *)

Module VotingRounds.

(** Who is in the game and who was eliminated: names, roles, alive flags and
    the three lists of names. *)
Definition standing (o : GameOrchestrator) :=
  let gs := game_state o in
  (map (fun p => (name p, role p, is_alive p)) (players gs),
   alive_players gs, dead_players gs, elimination_history gs).

(** What casting votes leaves alone. *)
Definition day_frame (o : GameOrchestrator) :=
  (standing o, voting_history (game_state o), round_number (game_state o)).

Lemma day_frame_observer_info (o : GameOrchestrator) (m : string) :
  day_frame (_observer_info o m) = day_frame o.
Proof. unfold day_frame, standing. rewrite game_state_observer_info. reflexivity. Qed.

Lemma day_frame_player_announce (o : GameOrchestrator) (m : string) :
  day_frame (_player_announce o m) = day_frame o.
Proof. unfold day_frame, standing. rewrite game_state_player_announce. reflexivity. Qed.

Lemma day_frame_eq (o o' : GameOrchestrator) :
  map (fun p => (name p, role p, is_alive p)) (players (game_state o')) =
  map (fun p => (name p, role p, is_alive p)) (players (game_state o)) ->
  alive_players (game_state o') = alive_players (game_state o) ->
  dead_players (game_state o') = dead_players (game_state o) ->
  elimination_history (game_state o') = elimination_history (game_state o) ->
  voting_history (game_state o') = voting_history (game_state o) ->
  round_number (game_state o') = round_number (game_state o) ->
  day_frame o' = day_frame o.
Proof. unfold day_frame, standing. intros -> -> -> -> -> ->. reflexivity. Qed.

Lemma day_frame_reset_votes (o : GameOrchestrator) :
  day_frame (with_game_state o (reset_votes (game_state o))) = day_frame o.
Proof.
  apply day_frame_eq; try reflexivity. simpl. rewrite map_map. reflexivity.
Qed.

Lemma day_frame_set_phase (o : GameOrchestrator) (ph : GamePhase) :
  day_frame (with_game_state o (set_phase (game_state o) ph)) = day_frame o.
Proof. reflexivity. Qed.

Lemma day_frame_tally_vote (o : GameOrchestrator) (a t : string) :
  day_frame (tally_vote o a t) = day_frame o.
Proof. reflexivity. Qed.

Lemma day_frame_add_action (o : GameOrchestrator) (a m : string) :
  day_frame (_add_action o a m) = day_frame o.
Proof. reflexivity. Qed.

Lemma bump_votes_received_standing (ps : list Player) (n : string) :
  map (fun p => (name p, role p, is_alive p)) (bump_votes_received ps n) =
  map (fun p => (name p, role p, is_alive p)) ps.
Proof.
  induction ps as [|p ps IH]; simpl; [reflexivity|].
  destruct (String.eqb (name p) n); simpl; [reflexivity|]. rewrite IH. reflexivity.
Qed.

Lemma day_frame_bump (o : GameOrchestrator) (n : string) :
  day_frame (with_game_state o
               (set_players (game_state o) (bump_votes_received (players (game_state o)) n)))
  = day_frame o.
Proof.
  apply day_frame_eq; try reflexivity. simpl. apply bump_votes_received_standing.
Qed.

Lemma day_frame_record_initial_vote (b : Ballot) (a t r : string) :
  day_frame (b_orch (record_initial_vote b a t r)) = day_frame (b_orch b).
Proof.
  unfold record_initial_vote. simpl.
  rewrite day_frame_observer_info, day_frame_player_announce. reflexivity.
Qed.

Section Frames.
Variable vote : string -> GameState -> list string -> result VoteResult.
Variable defend_self : string -> GameState -> result string.
Variable final_vote_decision :
  string -> GameState -> string -> list string -> result VoteDecision.

Lemma cast_initial_votes_frame (alive_players voters : list string) :
  forall b b', cast_initial_votes vote alive_players voters b = Ok b' ->
    day_frame (b_orch b') = day_frame (b_orch b).
Proof.
  induction voters as [|a rest IH]; intros b b' Hrun; simpl in Hrun.
  - injection Hrun as <-. reflexivity.
  - destruct (cast_initial_vote vote alive_players b a) as [b1|e] eqn:Hstep;
      simpl in Hrun; [|discriminate].
    rewrite (IH _ _ Hrun).
    destruct (Votes.cast_initial_vote_cases vote alive_players b b1 a Hstep)
      as [->|(t & r & _ & ->)]; [reflexivity|].
    apply day_frame_record_initial_vote.
Qed.

Lemma cast_final_vote_frame (suspect : string) (alive_players : list string)
    (b b' : Ballot) (a : string) :
  cast_final_vote final_vote_decision suspect alive_players b a = Ok b' ->
  day_frame (b_orch b') = day_frame (b_orch b).
Proof.
  unfold cast_final_vote.
  destruct (final_vote_decision a _ suspect _) as [d|e]; [|discriminate].
  cbn [bind].
  set (choice := if str_in (vd_target d) (candidates_of alive_players a) then _ else _).
  destruct choice as [vote_target reason].
  set (tallied := if opt_truthy vote_target then _ else _).
  assert (Ht : day_frame (fst tallied) = day_frame (b_orch b)).
  { unfold tallied. destruct (opt_truthy vote_target); [|reflexivity].
    destruct vote_target; reflexivity. }
  destruct tallied as [o1 reasons]. simpl in Ht.
  intros [= <-]. cbn [b_orch].
  rewrite day_frame_observer_info, day_frame_player_announce.
  destruct vote_target as [t|]; [|exact Ht].
  destruct (get_player_by_name (game_state o1) t); [|exact Ht].
  rewrite day_frame_bump. exact Ht.
Qed.

Lemma cast_final_votes_frame (suspect : string) (alive_players voters : list string) :
  forall b b', cast_final_votes final_vote_decision suspect alive_players voters b = Ok b' ->
    day_frame (b_orch b') = day_frame (b_orch b).
Proof.
  induction voters as [|a rest IH]; intros b b' Hrun; simpl in Hrun.
  - injection Hrun as <-. reflexivity.
  - destruct (cast_final_vote final_vote_decision suspect alive_players b a)
      as [b1|e] eqn:Hstep; simpl in Hrun; [|discriminate].
    rewrite (IH _ _ Hrun). apply (cast_final_vote_frame _ _ _ _ _ Hstep).
Qed.

(** A final vote that returns no player eliminated no one. *)
Lemma final_voting_none_frame (o o' : GameOrchestrator) (suspect : string)
    (alive_players : list string) (recs : list VoteRecord) :
  _run_final_voting final_vote_decision o suspect alive_players = Ok (o', recs, None) ->
  day_frame o' = day_frame o.
Proof.
  unfold _run_final_voting.
  destruct (cast_final_votes _ _ _ _ _) as [b|e] eqn:Hcast; [|discriminate].
  apply cast_final_votes_frame in Hcast. cbn [b_orch] in Hcast.
  rewrite day_frame_reset_votes, !day_frame_observer_info, !day_frame_player_announce,
    day_frame_set_phase in Hcast.
  cbn [bind].
  destruct (vote_counts (game_state (b_orch b))) as [|item items].
  - intros [= <- _]. rewrite day_frame_observer_info, day_frame_player_announce. exact Hcast.
  - destruct (suspects_of (item :: items)) as [|s1 [|s2 more]].
    + intros [= <- _].
      rewrite day_frame_observer_info, !day_frame_player_announce. exact Hcast.
    + destruct (_eliminate_player (b_orch b) s1); cbn [bind]; discriminate.
    + intros [= <- _].
      rewrite day_frame_observer_info, !day_frame_player_announce. exact Hcast.
Qed.

Lemma defense_frame (o o' : GameOrchestrator) (suspect defense : string) :
  _run_defense_phase defend_self o suspect = Ok (o', defense) ->
  day_frame o' = day_frame o.
Proof.
  unfold _run_defense_phase.
  destruct (defend_self suspect _) as [text|e]; [|discriminate].
  cbn [bind]. intros [= <- _].
  rewrite day_frame_add_action, day_frame_observer_info, day_frame_player_announce,
    !day_frame_observer_info, day_frame_player_announce. reflexivity.
Qed.

End Frames.

Section Rounds.
Variable vote : string -> GameState -> list string -> result VoteResult.
Variable defend_self : string -> GameState -> result string.
Variable final_vote_decision :
  string -> GameState -> string -> list string -> result VoteDecision.

(** Peels the printing off a state and computes the fields under it. *)
Ltac peel :=
  repeat (rewrite ?game_state_observer_info, ?game_state_player_announce;
          cbn [game_state with_game_state set_voting_history set_suspects_on_trial
               players alive_players dead_players elimination_history voting_history
               round_number]).

(** The entry a tied initial vote appends to the voting history. *)
Definition tie_entry (day voting_round : nat) (recs : list VoteRecord)
    (suspects : list string) (max_votes : nat) : VotingRound :=
  mkVotingRound day voting_round recs [] None None (Some suspects) (Some max_votes) None.

Lemma body_initial_tie (o o' : GameOrchestrator) (alive_players : list string)
    (voting_round : nat) (suspects : list string) :
  voting_round_body vote defend_self final_vote_decision o alive_players voting_round
    = Ok (o', InitialTie suspects) ->
  standing o' = standing o /\
  round_number (game_state o') = round_number (game_state o) /\
  List.length suspects <> 1 /\
  exists recs max_votes,
    voting_history (game_state o') =
    (voting_history (game_state o) ++
     [tie_entry (round_number (game_state o)) voting_round recs suspects max_votes])%list.
Proof.
  unfold voting_round_body. cbv zeta.
  destruct (cast_initial_votes _ _ _ _) as [b|e] eqn:Hcast; [|discriminate].
  apply cast_initial_votes_frame in Hcast. cbn [b_orch] in Hcast.
  rewrite day_frame_reset_votes, !day_frame_observer_info, day_frame_player_announce
    in Hcast.
  pose proof (f_equal (fun x => fst (fst x)) Hcast) as Hst.
  pose proof (f_equal (fun x => snd (fst x)) Hcast) as Hvh.
  pose proof (f_equal snd Hcast) as Hrn.
  cbn [fst snd day_frame] in Hst, Hvh, Hrn. clear Hcast.
  cbn [bind].
  destruct (vote_counts (game_state (b_orch b))) as [|item items]; [discriminate|].
  assert (Htie : forall s,
            s = suspects_of (item :: items) -> List.length s <> 1 ->
            (let o1 := with_game_state (b_orch b)
                         (set_suspects_on_trial (game_state (b_orch b)) s) in
             let o2 := _observer_info
                         (_player_announce o1
                            (String (ascii_of_nat 10) EmptyString ++ "🤝 Tie between: "
                               ++ join ", " s ++ " with "
                               ++ str_of_nat (max_votes_of (item :: items)) ++ " votes each"))
                         ("Tie in round " ++ str_of_nat voting_round ++ ": " ++ list_repr s
                            ++ " with " ++ str_of_nat (max_votes_of (item :: items))
                            ++ " votes each") in
             let o3 := with_game_state o2
                         (set_voting_history (game_state o2)
                            (voting_history (game_state o2) ++
                             [tie_entry (round_number (game_state o)) voting_round
                                (b_records b) s (max_votes_of (item :: items))])) in
             (if voting_round =? 3
              then Ok (_observer_info
                         (_player_announce o3
                            "After 3 rounds of voting, still tied. No one is eliminated.")
                         "No elimination due to 3-round tie", InitialTie s)
              else Ok (_player_announce o3
                         ("Proceeding to voting round " ++ str_of_nat (voting_round + 1)),
                       InitialTie s)) = Ok (o', InitialTie suspects)) ->
            standing o' = standing o /\
            round_number (game_state o') = round_number (game_state o) /\
            List.length suspects <> 1 /\
            exists recs max_votes,
              voting_history (game_state o') =
              (voting_history (game_state o) ++
               [tie_entry (round_number (game_state o)) voting_round recs suspects
                  max_votes])%list).
  { intros s _ Hlen. cbv zeta.
    destruct (voting_round =? 3); intros [= <- <-].
    - split; [|split; [|split; [exact Hlen|]]].
      + rewrite <- Hst. unfold standing. peel. reflexivity.
      + rewrite <- Hrn. peel. reflexivity.
      + eexists _, _. peel. rewrite Hvh. reflexivity.
    - split; [|split; [|split; [exact Hlen|]]].
      + rewrite <- Hst. unfold standing. peel. reflexivity.
      + rewrite <- Hrn. peel. reflexivity.
      + eexists _, _. peel. rewrite Hvh. reflexivity. }
  destruct (suspects_of (item :: items)) as [|s1 [|s2 more]] eqn:Hs.
  - apply (Htie [] eq_refl). discriminate.
  - destruct (_run_defense_phase _ _ _) as [[o2 defense]|e]; [|discriminate].
    cbn [bind].
    destruct (_run_final_voting _ _ _ _) as [[[o3 recs] eliminated]|e]; [|discriminate].
    cbn [bind]. destruct (opt_truthy eliminated); discriminate.
  - apply (Htie (s1 :: s2 :: more) eq_refl). simpl. discriminate.
Qed.

(** A round whose final vote returned no one has eliminated no one. *)
Lemma body_not_eliminated (o o' : GameOrchestrator) (alive_players : list string)
    (voting_round : nat) :
  voting_round_body vote defend_self final_vote_decision o alive_players voting_round
    = Ok (o', NotEliminated None) ->
  standing o' = standing o.
Proof.
  unfold voting_round_body. cbv zeta.
  destruct (cast_initial_votes _ _ _ _) as [b|e] eqn:Hcast; [|discriminate].
  apply cast_initial_votes_frame in Hcast. cbn [b_orch] in Hcast.
  rewrite day_frame_reset_votes, !day_frame_observer_info, day_frame_player_announce
    in Hcast.
  cbn [bind].
  destruct (vote_counts (game_state (b_orch b))) as [|item items]; [discriminate|].
  destruct (suspects_of (item :: items)) as [|s1 [|s2 more]] eqn:Hs.
  - destruct (voting_round =? 3); discriminate.
  - destruct (_run_defense_phase _ _ _) as [[o2 defense]|e] eqn:Hdef; [|discriminate].
    cbn [bind].
    destruct (_run_final_voting _ _ _ _) as [[[o3 recs] eliminated]|e] eqn:Hfin;
      [|discriminate].
    cbn [bind]. destruct (opt_truthy eliminated); [discriminate|].
    intros [= <- ->].
    apply final_voting_none_frame in Hfin. apply defense_frame in Hdef.
    assert (Hframe : day_frame o3 = day_frame o).
    { rewrite Hfin, Hdef, <- Hcast.
      set (announced := _observer_info _ _).
      assert (Hann : day_frame announced =
                     day_frame (with_game_state (b_orch b)
                        (set_suspects_on_trial (game_state (b_orch b)) [s1]))).
      { unfold announced. rewrite day_frame_observer_info, day_frame_player_announce.
        reflexivity. }
      destruct (reasons_for_suspect _ _ _) as [|r0 rs].
      - rewrite Hann. reflexivity.
      - assert (Hfold : forall l acc,
                  day_frame (fold_left
                    (fun o0 reason => _player_announce o0 ("  - " ++ reason)) l acc)
                  = day_frame acc).
        { induction l as [|x l IH]; intros acc; simpl; [reflexivity|].
          rewrite IH. apply day_frame_player_announce. }
        rewrite Hfold, day_frame_player_announce, Hann. reflexivity. }
    exact (f_equal (fun x => fst (fst x)) Hframe).
  - destruct (voting_round =? 3); discriminate.
Qed.

End Rounds.

End VotingRounds.

Module VotingPhase.

Import VotingRounds.

(** The orchestrator as [_run_voting_phase] enters its loop. *)
Definition entered (o : GameOrchestrator) : GameOrchestrator :=
  let o := with_game_state o (set_phase (game_state o) DAY_VOTING) in
  let o := with_game_state o (reset_votes (game_state o)) in
  let o := _player_announce o (String (ascii_of_nat 10) EmptyString ++ "🗳️ Voting Phase") in
  let o := _observer_info o EmptyString in
  _observer_info o "Starting voting phase".

Definition voters (o : GameOrchestrator) : list string :=
  map name (get_alive_players (game_state (entered o))).

Lemma day_frame_entered (o : GameOrchestrator) : day_frame (entered o) = day_frame o.
Proof.
  unfold entered. cbv zeta.
  rewrite !day_frame_observer_info, day_frame_player_announce, day_frame_reset_votes.
  reflexivity.
Qed.

(** The sentence of the claim that fails: when the final vote of the first
    round ties, the day ends with nobody eliminated. *)
Definition final_tie_ends_day : Prop :=
  forall vote defend_self final_vote_decision o o1 o',
    voting_round_body vote defend_self final_vote_decision (entered o) (voters o) 1
      = Ok (o1, NotEliminated None) ->
    _run_voting_phase vote defend_self final_vote_decision o = Ok o' ->
    elimination_history (game_state o') = elimination_history (game_state o).

(** Four voters; the answers change once a defense has been heard. *)
Definition defenses (gs : GameState) : nat :=
  List.length (filter (fun a => String.eqb (action_type a) "defense") (action_history gs)).

Definition second_thoughts (agent_name : string) (gs : GameState) (_ : list string)
  : result VoteResult :=
  if String.eqb agent_name "Ben" then Ok (VoteDict (if defenses gs =? 0 then "Cat" else "Ann")
                                              "not me")
  else Ok (VoteDict "Ben" "too quiet").

Definition plead (_ : string) (_ : GameState) : result string := Ok "I am the doctor".

Definition swayed (agent_name : string) (gs : GameState) (_ : string) (_ : list string)
  : result VoteDecision :=
  if String.eqb agent_name "Ben" then Ok (mkVoteDecision "Ann" "she leads this")
  else if String.eqb agent_name "Dan" && (defenses gs =? 1)
       then Ok (mkVoteDecision "Ann" "Ben may be right")
       else if String.eqb agent_name "Ann" then Ok (mkVoteDecision "Ben" "unconvinced")
       else Ok (mkVoteDecision "Ben" "still him").


End VotingPhase.


Module ThreeTies.

(** Ann and Ben vote for each other, Cat and Dan too: a tie, every time. *)
Definition stubborn (agent_name : string) (_ : GameState) (_ : list string)
  : result VoteResult :=
  if String.eqb agent_name "Ann" then Ok (VoteStr "Ben")
  else if String.eqb agent_name "Ben" then Ok (VoteStr "Ann")
  else if String.eqb agent_name "Cat" then Ok (VoteStr "Dan")
  else Ok (VoteStr "Cat").

End ThreeTies.



(** ** Floats *)

Module Floats.

Local Open Scope Z_scope.

Lemma round_small (m : Z) : Z.abs m < 2 ^ 53 -> round_to_53_bits m = m.
Proof.
  intros H. unfold round_to_53_bits. cbv zeta.
  destruct (Z.leb_spec (Z.log2 (Z.abs m) - 52) 0) as [_|Hd]; [reflexivity|].
  exfalso.
  assert (Hpos : 0 < Z.abs m).
  { destruct (Z.eq_dec (Z.abs m) 0) as [E|E]; [rewrite E in Hd; simpl in Hd; lia|lia]. }
  pose proof (Z.log2_spec (Z.abs m) Hpos) as [Hlo _].
  assert (2 ^ 53 <= 2 ^ Z.log2 (Z.abs m)) by (apply Z.pow_le_mono_r; lia).
  lia.
Qed.

Lemma round_opp (m : Z) : round_to_53_bits (- m) = - round_to_53_bits m.
Proof.
  unfold round_to_53_bits. cbv zeta. rewrite Z.abs_opp, Z.sgn_opp.
  destruct (_ <=? 0); [reflexivity|]. lia.
Qed.

(** The parts of a positive number that has bits to drop. *)
Lemma round_parts (m : Z) :
  0 < m -> 0 < Z.log2 m - 52 ->
  let d := Z.log2 m - 52 in
  let q := m / 2 ^ d in
  let r := m mod 2 ^ d in
  let up := (2 ^ (d - 1) <? r) || ((r =? 2 ^ (d - 1)) && Z.odd q) in
  round_to_53_bits m = (if up then q + 1 else q) * 2 ^ d /\
  m = q * 2 ^ d + r /\ 0 <= r < 2 ^ d /\ 2 ^ 52 <= q < 2 ^ 53 /\
  2 ^ (52 + d) = 2 ^ 52 * 2 ^ d /\ 0 < 2 ^ d.
Proof.
  intros Hm Hd d q r up.
  assert (Hp : 0 < 2 ^ d) by (apply Z.pow_pos_nonneg; lia).
  assert (Hsplit : 2 ^ (52 + d) = 2 ^ 52 * 2 ^ d) by (apply Z.pow_add_r; lia).
  pose proof (Z.log2_spec m Hm) as [Hlo Hhi].
  replace (Z.log2 m) with (52 + d) in Hlo by (unfold d; lia).
  replace (Z.succ (Z.log2 m)) with (53 + d) in Hhi by (unfold d; lia).
  assert (Hsplit' : 2 ^ (53 + d) = 2 ^ 53 * 2 ^ d) by (apply Z.pow_add_r; lia).
  pose proof (Z.div_mod m (2 ^ d) ltac:(lia)) as Hdm.
  pose proof (Z.mod_pos_bound m (2 ^ d) Hp) as Hr.
  fold q r in Hdm, Hr.
  split.
  - unfold round_to_53_bits. cbv zeta. rewrite (Z.abs_eq m) by lia.
    fold d. destruct (Z.leb_spec d 0) as [H|_]; [unfold d in H; lia|].
    fold q r. fold up. rewrite (Z.sgn_pos m Hm). lia.
  - split; [lia|]. split; [exact Hr|]. split; [|split; [exact Hsplit|exact Hp]].
    rewrite Hsplit in Hlo. rewrite Hsplit' in Hhi. split.
    + apply Z.div_le_lower_bound; lia.
    + apply Z.div_lt_upper_bound; lia.
Qed.

(** A positive number is rounded within its binade. *)
Lemma round_binade (m : Z) :
  0 < m -> 2 ^ Z.log2 m <= round_to_53_bits m <= 2 ^ (Z.log2 m + 1).
Proof.
  intros Hm. pose proof (Z.log2_spec m Hm) as [Hlo Hhi].
  destruct (Z_le_gt_dec (Z.log2 m - 52) 0) as [Hd|Hd].
  - unfold round_to_53_bits. cbv zeta. rewrite (Z.abs_eq m) by lia.
    destruct (Z.leb_spec (Z.log2 m - 52) 0); [|lia].
    replace (Z.log2 m + 1) with (Z.succ (Z.log2 m)) by lia. lia.
  - destruct (round_parts m Hm ltac:(lia)) as (Hround & Hmq & Hr & Hq & Hsplit & Hp).
    cbv zeta in *. set (d := Z.log2 m - 52) in *.
    replace (Z.log2 m) with (52 + d) by (unfold d; lia).
    replace (52 + d + 1) with (53 + d) by lia.
    assert (Hsplit' : 2 ^ (53 + d) = 2 ^ 53 * 2 ^ d) by (apply Z.pow_add_r; lia).
    rewrite Hround, Hsplit, Hsplit'.
    destruct (_ || _); nia.
Qed.

Lemma round_monotone_pos (m m' : Z) :
  0 < m -> m <= m' -> round_to_53_bits m <= round_to_53_bits m'.
Proof.
  intros Hm Hle.
  assert (Hm' : 0 < m') by lia.
  pose proof (Z.log2_le_mono m m' Hle) as Hlog.
  destruct (Z.eq_dec (Z.log2 m) (Z.log2 m')) as [Heq|Hne].
  - destruct (Z_le_gt_dec (Z.log2 m - 52) 0) as [Hd|Hd].
    + unfold round_to_53_bits. cbv zeta. rewrite !Z.abs_eq by lia. rewrite <- Heq.
      destruct (Z.leb_spec (Z.log2 m - 52) 0); [exact Hle|lia].
    + destruct (round_parts m Hm ltac:(lia)) as (Hround & Hmq & Hr & Hq & _ & Hp).
      destruct (round_parts m' Hm' ltac:(lia)) as (Hround' & Hmq' & Hr' & Hq' & _ & _).
      cbv zeta in *. rewrite <- Heq in *. set (d := Z.log2 m - 52) in *.
      set (q := m / 2 ^ d) in *. set (q' := m' / 2 ^ d) in *.
      set (r := m mod 2 ^ d) in *. set (r' := m' mod 2 ^ d) in *.
      rewrite Hround, Hround'.
      assert (Hqq : q <= q') by (apply Z.div_le_mono; lia).
      destruct (Z.eq_dec q q') as [Eq|Nq].
      * rewrite <- Eq in *. assert (Hrr : r <= r') by lia.
        set (up := (2 ^ (d - 1) <? r) || ((r =? 2 ^ (d - 1)) && Z.odd q)).
        set (up' := (2 ^ (d - 1) <? r') || ((r' =? 2 ^ (d - 1)) && Z.odd q)).
        assert (Hup : up = true -> up' = true).
        { unfold up, up'. rewrite !orb_true_iff, !andb_true_iff, !Z.ltb_lt, !Z.eqb_eq.
          intros [H|[H Hodd]]; [left; lia|].
          destruct (Z.eq_dec r' (2 ^ (d - 1))) as [E|E]; [right; auto|left; lia]. }
        destruct up, up'; lia.
      * assert (q + 1 <= q') by lia.
        destruct (_ || _); destruct (_ || _); nia.
  - pose proof (round_binade m Hm) as [_ Hhi].
    pose proof (round_binade m' Hm') as [Hlo _].
    assert (2 ^ (Z.log2 m + 1) <= 2 ^ Z.log2 m') by (apply Z.pow_le_mono_r; lia).
    lia.
Qed.

Lemma round_zero : round_to_53_bits 0 = 0.
Proof. reflexivity. Qed.

Lemma round_pos (m : Z) : 0 < m -> 0 < round_to_53_bits m.
Proof.
  intros Hm. pose proof (round_binade m Hm) as [Hlo _].
  assert (0 < 2 ^ Z.log2 m) by (apply Z.pow_pos_nonneg; [lia|apply Z.log2_nonneg]).
  lia.
Qed.

(** Rounding keeps the order. *)
Lemma round_monotone (m m' : Z) :
  m <= m' -> round_to_53_bits m <= round_to_53_bits m'.
Proof.
  intros Hle.
  destruct (Z_lt_le_dec 0 m) as [Hm|Hm].
  - apply round_monotone_pos; assumption.
  - destruct (Z.eq_dec m 0) as [->|Hm0].
    + rewrite round_zero. destruct (Z.eq_dec m' 0) as [->|Hm'].
      * rewrite round_zero. lia.
      * pose proof (round_pos m' ltac:(lia)). lia.
    + assert (Hneg : round_to_53_bits m < 0).
      { pose proof (round_pos (- m) ltac:(lia)) as H. rewrite round_opp in H. lia. }
      destruct (Z_lt_le_dec m' 0) as [Hm'|Hm'].
      * pose proof (round_monotone_pos (- m') (- m) ltac:(lia) ltac:(lia)) as H.
        rewrite !round_opp in H. lia.
      * destruct (Z.eq_dec m' 0) as [->|Hm'0].
        -- rewrite round_zero. lia.
        -- pose proof (round_pos m' ltac:(lia)). lia.
Qed.

Lemma round_abs (m : Z) : Z.abs (round_to_53_bits m) = round_to_53_bits (Z.abs m).
Proof.
  destruct (Z_lt_le_dec m 0) as [Hm|Hm].
  - rewrite (Z.abs_neq m) by lia. rewrite round_opp.
    pose proof (round_pos (- m) ltac:(lia)) as H. rewrite round_opp in H. lia.
  - rewrite (Z.abs_eq m) by lia.
    destruct (Z.eq_dec m 0) as [->|Hm0]; [reflexivity|].
    pose proof (round_pos m ltac:(lia)). lia.
Qed.

(** The least magnitude that is too large for a float: halfway between the
    largest float and [2 ** 1024]. *)
Definition too_large : Z := 2 ^ 1024 - 2 ^ 970.

Lemma round_at_too_large : round_to_53_bits too_large = 2 ^ 1024.
Proof. vm_compute. reflexivity. Qed.

Lemma round_below_too_large : round_to_53_bits (too_large - 1) = 2 ^ 1024 - 2 ^ 971.
Proof. vm_compute. reflexivity. Qed.

(** An integer has a float exactly when its magnitude is below [too_large]. *)
Lemma float_of_int_range (n : Z) :
  (Z.abs n < too_large -> float_of_int n = Ok (round_to_53_bits n)) /\
  (too_large <= Z.abs n -> float_of_int n = Raise "OverflowError").
Proof.
  unfold float_of_int. cbv zeta. rewrite round_abs. split; intros H.
  - pose proof (round_monotone (Z.abs n) (too_large - 1) ltac:(lia)) as Hm.
    rewrite round_below_too_large in Hm.
    destruct (Z.leb_spec (2 ^ 1024) (round_to_53_bits (Z.abs n))) as [Hb|Hb]; [|reflexivity].
    exfalso. assert (0 < 2 ^ 971) by (apply Z.pow_pos_nonneg; lia). lia.
  - pose proof (round_monotone too_large (Z.abs n) H) as Hm.
    rewrite round_at_too_large in Hm.
    destruct (Z.leb_spec (2 ^ 1024) (round_to_53_bits (Z.abs n))) as [Hb|Hb]; [reflexivity|].
    lia.
Qed.

Lemma float_of_int_small (n : Z) : Z.abs n < 2 ^ 53 -> float_of_int n = Ok n.
Proof.
  intros H. destruct (float_of_int_range n) as [Hok _].
  rewrite Hok, round_small by (try exact H; unfold too_large;
    assert (2 ^ 53 < 2 ^ 1024 - 2 ^ 970) by (vm_compute; reflexivity); lia).
  reflexivity.
Qed.

(** *** Rounding, from the numbers that a float can hold

    A float holds an integer exactly when it is a number of fewer than 54 bits
    times a power of two. *)
Definition representable (x : Z) : Prop :=
  exists k e, 0 <= e /\ Z.abs k < 2 ^ 53 /\ x = k * 2 ^ e.

(** No float is nearer to [m] than [x]. *)
Definition nearest (m x : Z) : Prop :=
  representable x /\
  forall y, representable y -> Z.abs (x - m) <= Z.abs (y - m).

(** The significand of [x], taken with 53 bits, is even. *)
Definition even_significand (x : Z) : Prop :=
  exists k e, 0 <= e /\ 2 ^ 52 <= Z.abs k < 2 ^ 53 /\ Z.even k = true /\ x = k * 2 ^ e.

(** When another float is as near, the significand of [x] is even. *)
Definition ties_to_even (m x : Z) : Prop :=
  forall y, representable y -> y <> x -> Z.abs (y - m) = Z.abs (x - m) ->
  even_significand x.

(** [x] is [m] as a float. *)
Definition rounds_to (m x : Z) : Prop := nearest m x /\ ties_to_even m x.

Lemma representable_opp (x : Z) : representable x -> representable (- x).
Proof.
  intros (k & e & He & Hk & ->). exists (- k), e.
  split; [exact He|]. split; [rewrite Z.abs_opp; exact Hk|]. lia.
Qed.

Lemma even_significand_opp (x : Z) : even_significand x -> even_significand (- x).
Proof.
  intros (k & e & He & Hk & Hev & ->). exists (- k), e.
  split; [exact He|]. split; [rewrite Z.abs_opp; exact Hk|].
  split; [rewrite Z.even_opp; exact Hev|]. lia.
Qed.

(** Between two neighbours of 53 bits at the same power of two there is no
    float. *)
Lemma no_float_between (q d y : Z) :
  0 < d -> 2 ^ 52 <= q -> representable y ->
  q * 2 ^ d < y < (q + 1) * 2 ^ d -> False.
Proof.
  intros Hd Hq (k & e & He & Hk & ->) [Hlo Hhi].
  assert (Hp : 0 < 2 ^ d) by (apply Z.pow_pos_nonneg; lia).
  assert (Hpe : 0 < 2 ^ e) by (apply Z.pow_pos_nonneg; lia).
  destruct (Z_lt_le_dec e d) as [Hlt|Hge].
  - assert (Hed : 2 ^ e * 2 <= 2 ^ d).
    { replace d with (e + 1 + (d - e - 1)) by lia.
      rewrite !Z.pow_add_r by lia.
      assert (0 < 2 ^ (d - e - 1)) by (apply Z.pow_pos_nonneg; lia).
      change (2 ^ 1) with 2. nia. }
    assert (Hk' : k < 2 ^ 53) by lia.
    assert (q * 2 ^ d < 2 ^ 53 * 2 ^ e) by nia.
    change (2 ^ 53) with (2 ^ 52 * 2) in H. nia.
  - assert (Hsplit : 2 ^ e = 2 ^ (e - d) * 2 ^ d).
    { rewrite <- Z.pow_add_r by lia. f_equal. lia. }
    rewrite Hsplit in Hlo, Hhi.
    assert (Hpp : 0 < 2 ^ (e - d)) by (apply Z.pow_pos_nonneg; lia).
    assert (q < k * 2 ^ (e - d)) by nia.
    assert (k * 2 ^ (e - d) < q + 1) by nia.
    lia.
Qed.

Lemma round_nearest_pos (m : Z) :
  0 < m ->
  nearest m (round_to_53_bits m) /\ ties_to_even m (round_to_53_bits m).
Proof.
  intros Hm. pose proof (Z.log2_spec m Hm) as [Hlo Hhi].
  destruct (Z_le_gt_dec (Z.log2 m - 52) 0) as [Hd|Hd].
  - assert (Hsmall : m < 2 ^ 53).
    { assert (2 ^ Z.succ (Z.log2 m) <= 2 ^ 53) by (apply Z.pow_le_mono_r; lia). lia. }
    rewrite round_small by lia. split; [split|].
    + exists m, 0. split; [lia|]. split; [lia|]. change (2 ^ 0) with 1. lia.
    + intros y _. lia.
    + intros y _ Hne Hd'. exfalso. lia.
  - destruct (round_parts m Hm ltac:(lia)) as (Hround & Hmq & Hr & Hq & _ & Hp).
    cbv zeta in *. set (d := Z.log2 m - 52) in *.
    set (q := m / 2 ^ d) in *. set (r := m mod 2 ^ d) in *.
    assert (Hhalf : 2 ^ d = 2 * 2 ^ (d - 1)).
    { replace d with (1 + (d - 1)) at 1 by lia. rewrite Z.pow_add_r by lia. reflexivity. }
    set (h := 2 ^ (d - 1)) in *.
    set (up := (h <? r) || ((r =? h) && Z.odd q)) in *.
    assert (Hup : (up = true /\ (h < r \/ (r = h /\ Z.odd q = true))) \/
                  (up = false /\ r <= h /\ (r = h -> Z.odd q = false))).
    { unfold up. destruct (Z.ltb_spec h r) as [H1|H1]; cbn [orb].
      - left. split; [reflexivity|left; exact H1].
      - destruct (Z.eqb_spec r h) as [H2|H2]; cbn [andb].
        + destruct (Z.odd q) eqn:Hodd.
          * left. split; [reflexivity|right; auto].
          * right. split; [reflexivity|]. split; [lia|auto].
        + right. split; [reflexivity|]. split; [lia|]. intros E. contradiction. }
    clearbody up.
    assert (Hfar : forall y, representable y ->
              y <= q * 2 ^ d \/ (q + 1) * 2 ^ d <= y).
    { intros y Hy. destruct (Z_le_gt_dec y (q * 2 ^ d)) as [H|H]; [left; exact H|].
      destruct (Z_le_gt_dec ((q + 1) * 2 ^ d) y) as [H'|H']; [right; exact H'|].
      exfalso. apply (no_float_between q d y); try lia. exact Hy. }
    assert (Hrep_up : representable ((q + 1) * 2 ^ d) /\
                      (Z.odd q = true -> even_significand ((q + 1) * 2 ^ d))).
    { destruct (Z.eq_dec (q + 1) (2 ^ 53)) as [E|E].
      - assert (Hx : (q + 1) * 2 ^ d = 2 ^ 52 * 2 ^ (d + 1)).
        { rewrite E, Z.pow_add_r by lia. change (2 ^ 53) with (2 ^ 52 * 2 ^ 1). lia. }
        split.
        + exists (2 ^ 52), (d + 1). split; [lia|]. split; [vm_compute; reflexivity|exact Hx].
        + intros _. exists (2 ^ 52), (d + 1). split; [lia|].
          split; [vm_compute; split; congruence|]. split; [reflexivity|exact Hx].
      - split.
        + exists (q + 1), d. split; [lia|]. split; [lia|reflexivity].
        + intros Hodd. exists (q + 1), d. split; [lia|]. split; [lia|].
          split; [|reflexivity].
          rewrite Z.even_add. rewrite <- Z.negb_odd, Hodd. reflexivity. }
    assert (Hrep_down : representable (q * 2 ^ d) /\
                        (Z.odd q = false -> even_significand (q * 2 ^ d))).
    { split.
      - exists q, d. split; [lia|]. split; [lia|reflexivity].
      - intros Hodd. exists q, d. split; [lia|]. split; [lia|].
        split; [|reflexivity]. rewrite <- Z.negb_odd, Hodd. reflexivity. }
    destruct Hup as [[Hu Hwhy]|[Hu (Hle & Hwhy)]]; rewrite Hu in Hround; rewrite Hround.
    + split; [split; [exact (proj1 Hrep_up)|]|].
      * intros y Hy. destruct (Hfar y Hy); destruct Hwhy as [Hw|[Hw _]]; lia.
      * intros y Hy Hne Hdist. apply (proj2 Hrep_up).
        destruct Hwhy as [Hw|[_ Hw]]; [|exact Hw].
        exfalso. destruct (Hfar y Hy); lia.
    + split; [split; [exact (proj1 Hrep_down)|]|].
      * intros y Hy. destruct (Hfar y Hy); lia.
      * intros y Hy Hne Hdist. apply (proj2 Hrep_down). apply Hwhy.
        destruct (Hfar y Hy); lia.
Qed.

(** [round_to_53_bits] rounds to the nearest float, a tie to the even
    significand. *)
Lemma round_nearest (m : Z) : rounds_to m (round_to_53_bits m).
Proof.
  unfold rounds_to.
  destruct (Z_lt_le_dec 0 m) as [Hm|Hm]; [exact (round_nearest_pos m Hm)|].
  destruct (Z.eq_dec m 0) as [->|Hm0].
  - rewrite round_zero. split; [split|].
    + exists 0, 0. split; [lia|]. split; [vm_compute; reflexivity|reflexivity].
    + intros y _. lia.
    + intros y _ Hne Hd. exfalso. lia.
  - destruct (round_nearest_pos (- m) ltac:(lia)) as [[Hrep Hnear] Htie].
    rewrite round_opp in Hrep, Hnear, Htie.
    split; [split|].
    + apply representable_opp in Hrep. rewrite Z.opp_involutive in Hrep. exact Hrep.
    + intros y Hy. specialize (Hnear (- y) (representable_opp y Hy)). lia.
    + intros y Hy Hne Hd.
      assert (He : even_significand (- round_to_53_bits m)).
      { apply (Htie (- y) (representable_opp y Hy)); lia. }
      apply even_significand_opp in He. rewrite Z.opp_involutive in He. exact He.
Qed.

End Floats.

(** ** Urgency and ranking *)

Module Ranking.

Local Open Scope Q_scope.

(** [x] does not rank below [y]: its adjusted urgency is at least that of [y]. *)
Definition not_below (x y : SpeakingAgent * Q) : Prop :=
  sa_adjusted (fst y) <= sa_adjusted (fst x).

Lemma key_geb_true (x y : SpeakingAgent * Q) :
  key_geb (sa_adjusted (fst x), snd x) (sa_adjusted (fst y), snd y) = true ->
  not_below x y.
Proof.
  unfold key_geb, not_below. simpl. intros H. apply orb_true_iff in H.
  destruct H as [H|H].
  - apply negb_true_iff in H. apply Qlt_le_weak. apply Qnot_le_lt.
    intros Hle. apply Qle_bool_iff in Hle. congruence.
  - apply andb_true_iff in H. destruct H as [H _]. apply Qeq_bool_iff in H.
    rewrite H. apply Qle_refl.
Qed.

Lemma key_geb_false (x y : SpeakingAgent * Q) :
  key_geb (sa_adjusted (fst x), snd x) (sa_adjusted (fst y), snd y) = false ->
  not_below y x.
Proof.
  unfold key_geb, not_below. simpl. intros H. apply orb_false_iff in H.
  destruct H as [H _]. apply negb_false_iff in H. apply Qle_bool_iff. exact H.
Qed.

Lemma insert_desc_in (x z : SpeakingAgent * Q) (l : list (SpeakingAgent * Q)) :
  In z (insert_desc x l) <-> z = x \/ In z l.
Proof.
  induction l as [|y l IH]; simpl.
  - split; [intros [H|[]]; left; symmetry; exact H|intros [H|[]]; left; symmetry; exact H].
  - destruct (key_geb _ _); simpl.
    + split; [intros [H|H]; [left; symmetry; exact H|right; exact H]
              |intros [H|H]; [left; symmetry; exact H|right; exact H]].
    + rewrite IH. split.
      * intros [H|[H|H]]; auto.
      * intros [H|[H|H]]; auto.
Qed.

Lemma insert_desc_sorted (x : SpeakingAgent * Q) (l : list (SpeakingAgent * Q)) :
  StronglySorted not_below l -> StronglySorted not_below (insert_desc x l).
Proof.
  induction l as [|y l IH]; intros Hs; simpl.
  - constructor; constructor.
  - inversion Hs as [|? ? Hs' Hall]; subst.
    destruct (key_geb _ _) eqn:Hk.
    + apply key_geb_true in Hk. constructor; [exact Hs|].
      constructor; [exact Hk|].
      rewrite Forall_forall in *. intros z Hz. specialize (Hall z Hz).
      unfold not_below in *. eapply Qle_trans; eassumption.
    + apply key_geb_false in Hk. constructor; [apply IH; exact Hs'|].
      rewrite Forall_forall in *. intros z Hz. apply insert_desc_in in Hz.
      destruct Hz as [->|Hz]; [exact Hk|exact (Hall z Hz)].
Qed.

Lemma sort_desc_sorted (l : list (SpeakingAgent * Q)) :
  StronglySorted not_below (sort_desc l).
Proof.
  induction l as [|x l IH]; simpl; [constructor|].
  apply insert_desc_sorted. exact IH.
Qed.

Lemma sort_desc_in (l : list (SpeakingAgent * Q)) (z : SpeakingAgent * Q) :
  In z (sort_desc l) <-> In z l.
Proof.
  induction l as [|x l IH]; simpl; [reflexivity|].
  rewrite insert_desc_in, IH. split; intros [H|H]; auto.
Qed.

Lemma sorted_split (l1 l2 : list (SpeakingAgent * Q)) (a b : SpeakingAgent * Q) :
  StronglySorted not_below (l1 ++ a :: l2) -> In b l2 -> not_below a b.
Proof.
  induction l1 as [|x l1 IH]; simpl; intros Hs Hb.
  - inversion Hs as [|? ? _ Hall]; subst. rewrite Forall_forall in Hall. exact (Hall b Hb).
  - inversion Hs as [|? ? Hs' _]; subst. exact (IH Hs' Hb).
Qed.

Lemma with_draws_fst (random : nat -> nat -> Q) (iteration : nat) (l : list SpeakingAgent) :
  forall position, map fst (with_draws random iteration position l) = l.
Proof.
  induction l as [|x l IH]; intros position; simpl; [reflexivity|].
  rewrite IH. reflexivity.
Qed.

(** In the ranking an earlier speaker has an adjusted urgency at least that
    of a later one, and every ranked speaker is one of the speakers. *)
Lemma ranked_descending (random : nat -> nat -> Q) (iteration : nat)
    (speakers before mid after' : list SpeakingAgent) (a b : SpeakingAgent) :
  ranked random iteration speakers = (before ++ a :: mid ++ b :: after')%list ->
  sa_adjusted b <= sa_adjusted a /\ In a speakers /\ In b speakers.
Proof.
  unfold ranked. intros H.
  assert (Hin : forall x, In x (before ++ a :: mid ++ b :: after')%list -> In x speakers).
  { intros x Hx. rewrite <- H in Hx. apply in_map_iff in Hx.
    destruct Hx as (z & <- & Hz). apply (proj1 (sort_desc_in _ _)) in Hz.
    rewrite <- (with_draws_fst random iteration speakers 0).
    apply in_map. exact Hz. }
  pose proof (sort_desc_sorted (with_draws random iteration 0 speakers)) as Hs.
  apply map_eq_app in H. destruct H as (sb & rest & Hsplit & _ & Hrest).
  apply map_eq_cons in Hrest. destruct Hrest as (a' & rest' & -> & Ha & Hrest).
  apply map_eq_app in Hrest. destruct Hrest as (sm & rest'' & -> & _ & Hrest).
  apply map_eq_cons in Hrest. destruct Hrest as (b' & sa' & -> & Hb & _).
  rewrite Hsplit in Hs.
  assert (Hab : not_below a' b').
  { apply (sorted_split sb (sm ++ b' :: sa') a' b' Hs).
    apply in_or_app. right. left. reflexivity. }
  unfold not_below in Hab. rewrite Ha, Hb in Hab.
  split; [exact Hab|]. split; apply Hin.
  - apply in_or_app. right. left. reflexivity.
  - apply in_or_app. right. right. apply in_or_app. right. left. reflexivity.
Qed.

Lemma ranked_in (random : nat -> nat -> Q) (iteration : nat)
    (speakers : list SpeakingAgent) (s : SpeakingAgent) :
  In s (ranked random iteration speakers) <-> In s speakers.
Proof.
  unfold ranked. rewrite <- (with_draws_fst random iteration speakers 0) at 2.
  rewrite !in_map_iff. split; intros (z & Hz & Hin); exists z; (split; [exact Hz|]);
    apply sort_desc_in; exact Hin.
Qed.

Lemma Qhalves_le (x y : Z) : (x # 2 <= y # 2)%Q <-> (x <= y)%Z.
Proof. unfold Qle. simpl. lia. Qed.

Lemma Qhalves (raw c : Z) :
  ((2 * raw - c)%Z # 2) == inject_Z raw - inject_Z c * (1 # 2).
Proof.
  unfold Qeq, Qminus, Qplus, Qopp, Qmult, inject_Z.
  cbn [Qnum Qden Pos.mul Z.pos_sub]. lia.
Qed.

(** What the float arithmetic of the penalty gives: the exception exactly when
    the urgency or the count is too large for a float. *)
Lemma adjusted_urgency_cases (raw : Z) (speak_count : nat) :
  ((Z.abs raw < Floats.too_large)%Z /\ (Z.of_nat speak_count < Floats.too_large)%Z /\
   adjusted_urgency raw speak_count =
     Ok (Qmax 1 (round_to_53_bits
                   (2 * round_to_53_bits raw - round_to_53_bits (Z.of_nat speak_count))%Z
                 # 2))) \/
  (((Floats.too_large <= Z.abs raw)%Z \/ (Floats.too_large <= Z.of_nat speak_count)%Z) /\
   adjusted_urgency raw speak_count = Raise "OverflowError").
Proof.
  unfold adjusted_urgency.
  destruct (Floats.float_of_int_range (Z.of_nat speak_count)) as [Hc_ok Hc_no].
  destruct (Floats.float_of_int_range raw) as [Hu_ok Hu_no].
  rewrite (Z.abs_eq (Z.of_nat speak_count)) in Hc_ok, Hc_no by lia.
  destruct (Z_lt_le_dec (Z.of_nat speak_count) Floats.too_large) as [Hc|Hc].
  - rewrite (Hc_ok Hc). cbn [bind].
    destruct (Z_lt_le_dec (Z.abs raw) Floats.too_large) as [Hu|Hu].
    + rewrite (Hu_ok Hu). cbn [bind]. left. auto.
    + rewrite (Hu_no Hu). cbn [bind]. right. auto.
  - rewrite (Hc_no Hc). cbn [bind]. right. auto.
Qed.

(** Where the floats are exact the adjusted urgency is the number of the
    formula. *)
Lemma adjusted_urgency_exact (raw : Z) (speak_count : nat) :
  (Z.abs raw + Z.of_nat speak_count < 2 ^ 52)%Z ->
  exists adjusted,
    adjusted_urgency raw speak_count = Ok adjusted /\
    adjusted == Qmax 1 (inject_Z raw - inject_Z (Z.of_nat speak_count) * (1 # 2)).
Proof.
  intros Hsmall. unfold adjusted_urgency.
  rewrite !Floats.float_of_int_small by lia. cbn [bind].
  rewrite Floats.round_small by lia.
  eexists. split; [reflexivity|].
  apply Q.max_compat; [reflexivity|apply Qhalves].
Qed.

(** More speeches never give the greater adjusted urgency, and where the
    floats are exact they give an equal one only at the floor. *)
Lemma adjusted_urgency_monotone (raw : Z) (more fewer : nat) (a b : Q) :
  (fewer < more)%nat ->
  adjusted_urgency raw more = Ok a ->
  adjusted_urgency raw fewer = Ok b ->
  a <= b /\
  ((Z.abs raw + Z.of_nat more < 2 ^ 52)%Z -> b <= a -> a == 1 /\ b == 1).
Proof.
  intros Hlt Ha Hb. split.
  - destruct (adjusted_urgency_cases raw more) as [(_ & _ & Ha')|(_ & Ha')];
      [|congruence].
    destruct (adjusted_urgency_cases raw fewer) as [(_ & _ & Hb')|(_ & Hb')];
      [|congruence].
    rewrite Ha' in Ha. rewrite Hb' in Hb. injection Ha as <-. injection Hb as <-.
    apply Q.max_le_compat_l. apply Qhalves_le. apply Floats.round_monotone.
    pose proof (Floats.round_monotone (Z.of_nat fewer) (Z.of_nat more) ltac:(lia)).
    lia.
  - intros Hsmall Hle.
    destruct (adjusted_urgency_exact raw more Hsmall) as (a' & Ha' & Hae).
    destruct (adjusted_urgency_exact raw fewer ltac:(lia)) as (b' & Hb' & Hbe).
    rewrite Ha' in Ha. rewrite Hb' in Hb. injection Ha as <-. injection Hb as <-.
    rewrite Hae, Hbe in *.
    assert (Hp : inject_Z (Z.of_nat fewer) < inject_Z (Z.of_nat more)).
    { rewrite <- Zlt_Qlt. lia. }
    set (x := inject_Z raw - inject_Z (Z.of_nat more) * (1 # 2)) in *.
    set (y := inject_Z raw - inject_Z (Z.of_nat fewer) * (1 # 2)) in *.
    assert (Hxy : x < y) by (unfold x, y; lra).
    destruct (Q.max_spec 1 x) as [[Hx Hmx]|[Hx Hmx]];
      destruct (Q.max_spec 1 y) as [[Hy Hmy]|[Hy Hmy]];
      rewrite Hmx, Hmy in *; split; lra.
Qed.

(** The response of a speaker. *)
Definition spoken_response (s : SpeakingAgent) : string * DiscussionResponse :=
  (sa_agent s, sa_response s).

(** The loop over the responses returns the responses that ask to speak, in
    order, each with its adjusted urgency; it raises exactly when the urgency
    or the count of one of them is too large for a float. *)
Lemma speaking_agents_of_cases (counts : dict nat)
    (responses : list (string * DiscussionResponse)) :
  (exists speakers,
     speaking_agents_of counts responses = Ok speakers /\
     map spoken_response speakers = filter (fun x => speak (snd x)) responses /\
     (forall s, In s speakers ->
        adjusted_urgency (urgency (sa_response s)) (dict_get_default counts (sa_agent s) 0%nat)
        = Ok (sa_adjusted s)) /\
     (forall agent resp, In (agent, resp) responses -> speak resp = true ->
        (Z.abs (urgency resp) < Floats.too_large)%Z /\
        (Z.of_nat (dict_get_default counts agent 0%nat) < Floats.too_large)%Z)) \/
  (speaking_agents_of counts responses = Raise "OverflowError" /\
   exists agent resp, In (agent, resp) responses /\ speak resp = true /\
     ((Floats.too_large <= Z.abs (urgency resp))%Z \/
      (Floats.too_large <= Z.of_nat (dict_get_default counts agent 0%nat))%Z)).
Proof.
  induction responses as [|[agent resp] rest IH].
  - left. exists []. simpl. repeat split; try reflexivity; intros; contradiction.
  - cbn [speaking_agents_of filter snd]. destruct (speak resp) eqn:Hsp.
    + destruct (adjusted_urgency_cases (urgency resp) (dict_get_default counts agent 0%nat))
        as [(Hu & Hc & Hadj)|(Hover & Hadj)]; rewrite Hadj; cbn [bind].
      * destruct IH as [(speakers & Hrun & Hmap & Hall & Hfit)|(Hrun & a & r & Hin & Hs & Ho)];
          rewrite Hrun; cbn [bind].
        -- left. eexists. split; [reflexivity|]. split; [|split].
           ++ cbn [map spoken_response sa_agent sa_response]. rewrite Hmap. reflexivity.
           ++ intros s [<-|Hs]; [exact Hadj|exact (Hall s Hs)].
           ++ intros a r [Heq|Hin] Hs; [injection Heq as <- <-; auto|exact (Hfit a r Hin Hs)].
        -- right. split; [reflexivity|]. exists a, r. split; [right; exact Hin|auto].
      * right. split; [reflexivity|]. exists agent, resp. split; [left; reflexivity|auto].
    + destruct IH as [(speakers & Hrun & Hmap & Hall & Hfit)|(Hrun & a & r & Hin & Hs & Ho)].
      * left. exists speakers. split; [exact Hrun|]. split; [exact Hmap|].
        split; [exact Hall|].
        intros a r [Heq|Hin] Hs; [injection Heq as <- <-; congruence|exact (Hfit a r Hin Hs)].
      * right. split; [exact Hrun|]. exists a, r. split; [right; exact Hin|auto].
Qed.

Lemma speaking_agents_of_in (counts : dict nat)
    (responses : list (string * DiscussionResponse)) (speakers : list SpeakingAgent)
    (s : SpeakingAgent) :
  speaking_agents_of counts responses = Ok speakers ->
  In s speakers ->
  In (sa_agent s, sa_response s) responses /\
  speak (sa_response s) = true /\
  adjusted_urgency (urgency (sa_response s)) (dict_get_default counts (sa_agent s) 0%nat)
  = Ok (sa_adjusted s).
Proof.
  intros Hrun Hs.
  destruct (speaking_agents_of_cases counts responses)
    as [(speakers' & Hrun' & Hmap & Hall & _)|(Hrun' & _)]; [|congruence].
  rewrite Hrun in Hrun'. injection Hrun' as <-.
  assert (Hin : In (spoken_response s) (filter (fun x => speak (snd x)) responses)).
  { rewrite <- Hmap. apply in_map. exact Hs. }
  apply filter_In in Hin. destruct Hin as [Hin Hsp].
  split; [exact Hin|]. split; [exact Hsp|exact (Hall s Hs)].
Qed.

End Ranking.


(** ** The discussion loop *)

Module DiscussionLoop.

Definition transcript (st : Discussion) : list GameAction :=
  discussion_messages (game_state (d_orch st)).

(** The loop goes on from this state. *)
Definition continuing (max_total_rounds : nat) (st : Discussion) : Prop :=
  total_rounds st < max_total_rounds /\ consecutive_silent_rounds st < 3.

(** How often an agent has spoken so far in the phase. *)
Definition spoken (st : Discussion) (agent : string) : nat :=
  dict_get_default (speaking_counts (d_orch st)) agent 0.

(** What a failed or declined request leaves in the list of responses. *)
Definition reply_of (r : result Reply) : Reply :=
  match r with Ok reply => reply | Raise _ => NoReply end.

(** A reply that asks to speak. *)
Definition asks_to_speak (r : Reply) : bool :=
  match r with
  | NoReply => false
  | Structured response => speak response
  | Legacy text => str_truthy text
  end.

(** The response that a reply stands for. *)
Definition response_of (r : Reply) : DiscussionResponse :=
  match r with
  | NoReply => mkDiscussionResponse false EmptyString 0
  | Structured response => response
  | Legacy text => mkDiscussionResponse true text 3
  end.

Lemma speaking_counts_observer_info (o : GameOrchestrator) (m : string) :
  speaking_counts (_observer_info o m) = speaking_counts o.
Proof. unfold _observer_info. destruct (observer_mode o); reflexivity. Qed.

Lemma speaking_counts_player_announce (o : GameOrchestrator) (m : string) :
  speaking_counts (_player_announce o m) = speaking_counts o.
Proof. unfold _player_announce. destruct (observer_only o); reflexivity. Qed.

Lemma counter_add_same (c : dict nat) (agent : string) :
  dict_get_default (counter_add c agent) agent 0 = dict_get_default c agent 0 + 1.
Proof.
  unfold counter_add, dict_get_default at 1.
  rewrite NightActions.dict_get_set, String.eqb_refl. reflexivity.
Qed.

Lemma counter_add_other (c : dict nat) (agent other : string) :
  other <> agent ->
  dict_get_default (counter_add c agent) other 0 = dict_get_default c other 0.
Proof.
  intros Hne. unfold counter_add, dict_get_default at 1.
  rewrite NightActions.dict_get_set.
  destruct (String.eqb_spec agent other) as [E|_]; [congruence|reflexivity].
Qed.

Lemma fresh_counts (names : list string) :
  forall (d : dict nat) (a : string),
    dict_get_default d a 0 = 0 ->
    dict_get_default (fold_left (fun d n => dict_set d n 0) names d) a 0 = 0.
Proof.
  induction names as [|n names IH]; intros d a Hd; simpl; [exact Hd|].
  apply IH. unfold dict_get_default. rewrite NightActions.dict_get_set.
  destruct (String.eqb n a); [reflexivity|exact Hd].
Qed.

(** The responses kept, seen from the replies. *)
Lemma accepted_speaks (completed : list (string * Reply)) (agent : string) (reply : Reply) :
  In (agent, reply) completed -> asks_to_speak reply = true ->
  In (agent, response_of reply) (accepted completed) /\ speak (response_of reply) = true.
Proof.
  intros Hin Hasks. split.
  - unfold accepted. apply in_flat_map. exists (agent, reply). split; [exact Hin|].
    destruct reply as [|response|text]; simpl in *.
    + discriminate Hasks.
    + left. reflexivity.
    + rewrite Hasks. left. reflexivity.
  - destruct reply as [|response|text]; simpl in *; [discriminate Hasks|exact Hasks|reflexivity].
Qed.

Lemma accepted_asked (completed : list (string * Reply)) (agent : string)
    (resp : DiscussionResponse) :
  In (agent, resp) (accepted completed) -> speak resp = true ->
  exists reply, In (agent, reply) completed /\ asks_to_speak reply = true /\
    resp = response_of reply.
Proof.
  intros Hin Hsp. unfold accepted in Hin. apply in_flat_map in Hin.
  destruct Hin as ([a reply] & Hin & Hx). exists reply.
  destruct reply as [|response|text]; simpl in Hx.
  - contradiction.
  - destruct Hx as [[= <- <-]|[]]. auto.
  - destruct (str_truthy text) eqn:Ht; [|contradiction].
    destruct Hx as [[= <- <-]|[]]. auto.
Qed.

Section Loop.
Variable participate_in_discussion : nat -> string -> GameState -> result Reply.
Variable as_completed : nat -> list (string * Reply) -> list (string * Reply).
Variable random : nat -> nat -> Q.

Definition round_of : list string -> Discussion -> result Discussion :=
  discussion_round participate_in_discussion as_completed random.

(** The state after [n] passes of the loop body, when none of them raises. *)
Fixpoint after (n : nat) (alive_agents : list string) (st : Discussion)
  : result Discussion :=
  match n with
  | 0 => Ok st
  | S n' => st' <- after n' alive_agents st ;; round_of alive_agents st'
  end.

(** The replies of the pass that starts from a state, in the order in which
    they complete. *)
Definition replies (alive_agents : list string) (st : Discussion) : list (string * Reply) :=
  as_completed (d_iterations st)
    (map (fun a => (a, reply_of (participate_in_discussion (d_iterations st) a
                                   (game_state (d_orch st)))))
       alive_agents).

(** Somebody asks to speak in the pass that starts from a state. *)
Definition someone_asks (alive_agents : list string) (st : Discussion) : bool :=
  existsb (fun x => asks_to_speak (snd x)) (replies alive_agents st).

(** A reply of the pass asks to speak with an urgency, or from an agent with a
    count of speeches, that is too large for a float. *)
Definition too_large_for_a_float (alive_agents : list string) (st : Discussion) : Prop :=
  exists agent reply,
    In (agent, reply) (replies alive_agents st) /\ asks_to_speak reply = true /\
    ((Floats.too_large <= Z.abs (urgency (response_of reply)))%Z \/
     (Floats.too_large <= Z.of_nat (spoken st agent))%Z).

(** What a pass that completes does.  With somebody asking to speak it is a
    round: one of those who ask speaks, the comment goes to the transcript,
    the rounds are one more and the silent rounds in a row are none.  With
    nobody asking it is a silent round: one more in a row, and nothing else
    changes. *)
Definition pass (alive_agents : list string) (st st' : Discussion) : Prop :=
  d_iterations st' = S (d_iterations st) /\
  if someone_asks alive_agents st then
    total_rounds st' = total_rounds st + 1 /\
    consecutive_silent_rounds st' = 0 /\
    exists agent reply,
      In (agent, reply) (replies alive_agents st) /\ asks_to_speak reply = true /\
      transcript st' =
        (transcript st ++
         [mkGameAction agent "discussion" None (Some (comment (response_of reply)))
            (round_number (game_state (d_orch st)))])%list /\
      spoken st' agent = spoken st agent + 1 /\
      (forall other, other <> agent -> spoken st' other = spoken st other)
  else
    total_rounds st' = total_rounds st /\
    consecutive_silent_rounds st' = consecutive_silent_rounds st + 1 /\
    transcript st' = transcript st /\
    (forall agent, spoken st' agent = spoken st agent).

Lemma get_agent_responses_spec (iteration : nat) (agents : list string) (gs : GameState) :
  forall o,
    let out := get_agent_responses participate_in_discussion iteration agents gs o in
    game_state (fst out) = game_state o /\
    speaking_counts (fst out) = speaking_counts o /\
    snd out = map (fun a => (a, reply_of (participate_in_discussion iteration a gs))) agents.
Proof.
  induction agents as [|a rest IH]; intros o; simpl.
  - auto.
  - destruct (participate_in_discussion iteration a gs) as [reply|e]; simpl.
    + specialize (IH o). destruct (get_agent_responses _ _ _ _ o) as [o1 rs].
      simpl in *. destruct IH as (H1 & H2 & H3). rewrite H3. auto.
    + specialize (IH (_observer_info o ("Error getting response from " ++ a ++ ": " ++ e))).
      destruct (get_agent_responses _ _ _ _ _) as [o1 rs].
      simpl in *. destruct IH as (H1 & H2 & H3).
      rewrite H1, H2, H3, game_state_observer_info.
      unfold _observer_info. destruct (observer_mode o); auto.
Qed.

(** A pass raises exactly when a reply that asks to speak is too large for a
    float; otherwise it completes as a round or as a silent round. *)
Lemma round_cases (alive_agents : list string) (st : Discussion) :
  (too_large_for_a_float alive_agents st /\
   round_of alive_agents st = Raise "OverflowError") \/
  (~ too_large_for_a_float alive_agents st /\
   exists st', round_of alive_agents st = Ok st' /\ pass alive_agents st st').
Proof.
  unfold round_of, discussion_round. cbv zeta.
  pose proof (get_agent_responses_spec (d_iterations st) alive_agents
                (game_state (d_orch st)) (d_orch st)) as Hg.
  destruct (get_agent_responses _ _ _ _ _) as [o1 responses].
  simpl in Hg. destruct Hg as (Hgs & Hcounts & Hresp).
  assert (Hreplies : as_completed (d_iterations st) responses = replies alive_agents st).
  { rewrite Hresp. reflexivity. }
  rewrite Hreplies, Hcounts.
  destruct (Ranking.speaking_agents_of_cases (speaking_counts (d_orch st))
              (accepted (replies alive_agents st)))
    as [(speakers & Hrun & Hmap & Hall & Hfit)|(Hrun & agent & resp & Hin & Hsp & Hover)];
    rewrite Hrun; cbn [bind].
  - right. split.
    + intros (agent & reply & Hin & Hasks & Hover).
      destruct (accepted_speaks _ _ _ Hin Hasks) as [Hacc Hsp].
      destruct (Hfit _ _ Hacc Hsp) as [Hu Hc]. unfold spoken in Hover. lia.
    + assert (Hspeaker : forall s, In s speakers ->
                exists reply, In (sa_agent s, reply) (replies alive_agents st) /\
                  asks_to_speak reply = true /\ sa_response s = response_of reply).
      { intros s Hs.
        assert (Hf : In (Ranking.spoken_response s)
                       (filter (fun x => speak (snd x)) (accepted (replies alive_agents st)))).
        { rewrite <- Hmap. apply in_map. exact Hs. }
        apply filter_In in Hf. destruct Hf as [Hacc Hsp].
        exact (accepted_asked _ _ _ Hacc Hsp). }
      destruct (ranked random (d_iterations st) speakers) as [|top rest] eqn:Hranked.
      * assert (Hnone : someone_asks alive_agents st = false).
        { destruct (someone_asks alive_agents st) eqn:Hs; [|reflexivity]. exfalso.
          unfold someone_asks in Hs. apply existsb_exists in Hs.
          destruct Hs as ([a r] & Hin & Hasks). simpl in Hasks.
          destruct (accepted_speaks _ _ _ Hin Hasks) as [Hacc Hsp].
          assert (Hf : In (a, response_of r)
                         (filter (fun x => speak (snd x))
                            (accepted (replies alive_agents st)))).
          { apply filter_In. split; [exact Hacc|exact Hsp]. }
          rewrite <- Hmap in Hf. apply in_map_iff in Hf. destruct Hf as (s & _ & Hs).
          apply (Ranking.ranked_in random (d_iterations st)) in Hs.
          rewrite Hranked in Hs. exact Hs. }
        eexists. split; [reflexivity|]. unfold pass. rewrite Hnone.
        unfold transcript, spoken.
        cbn [d_iterations total_rounds consecutive_silent_rounds d_orch].
        split; [reflexivity|]. split; [reflexivity|]. split; [reflexivity|].
        rewrite game_state_observer_info, speaking_counts_observer_info.
        destruct (_ <? 3);
          [rewrite game_state_player_announce, speaking_counts_player_announce|];
          rewrite ?Hgs, ?Hcounts; auto.
      * assert (Htop : In top speakers).
        { apply (Ranking.ranked_in random (d_iterations st)). rewrite Hranked.
          left. reflexivity. }
        destruct (Hspeaker top Htop) as (reply & Hin & Hasks & Hresp_top).
        assert (Hsome : someone_asks alive_agents st = true).
        { unfold someone_asks. apply existsb_exists. exists (sa_agent top, reply).
          split; [exact Hin|exact Hasks]. }
        eexists. split; [reflexivity|]. unfold pass. rewrite Hsome.
        unfold transcript, spoken.
        cbn [d_iterations total_rounds consecutive_silent_rounds d_orch].
        split; [reflexivity|]. split; [reflexivity|]. split; [reflexivity|].
        exists (sa_agent top), reply. split; [exact Hin|]. split; [exact Hasks|].
        cbn [game_state with_game_state set_discussion_messages discussion_messages
             speaking_counts].
        rewrite !game_state_observer_info, !game_state_player_announce,
          !speaking_counts_observer_info, !speaking_counts_player_announce.
        cbn [game_state with_speaking_counts speaking_counts].
        rewrite ?Hgs, ?Hcounts, ?Hresp_top.
        split; [reflexivity|]. split.
        -- apply counter_add_same.
        -- intros other Hne. apply counter_add_other. exact Hne.
  - left. split; [|reflexivity].
    destruct (accepted_asked _ _ _ Hin Hsp) as (reply & Hin' & Hasks & ->).
    exists agent, reply. split; [exact Hin'|]. split; [exact Hasks|exact Hover].
Qed.

Lemma after_head (alive_agents : list string) (st : Discussion) :
  forall n,
    after (S n) alive_agents st =
    (st' <- round_of alive_agents st ;; after n alive_agents st').
Proof.
  induction n as [|n IH].
  - simpl. destruct (round_of alive_agents st); reflexivity.
  - change (after (S (S n)) alive_agents st)
      with (s <- after (S n) alive_agents st ;; round_of alive_agents s).
    rewrite IH. destruct (round_of alive_agents st) as [st'|e]; reflexivity.
Qed.

Definition measure (max_total_rounds : nat) (st : Discussion) : nat :=
  3 * (max_total_rounds - total_rounds st) + (3 - consecutive_silent_rounds st).

Lemma continuing_iff (max_total_rounds : nat) (st : Discussion) :
  (total_rounds st <? max_total_rounds) && (consecutive_silent_rounds st <? 3) = true <->
  continuing max_total_rounds st.
Proof.
  unfold continuing. rewrite andb_true_iff, !Nat.ltb_lt. reflexivity.
Qed.

(** No agent has spoken more often than there were rounds. *)
Definition counts_bounded (st : Discussion) : Prop :=
  forall agent, spoken st agent <= total_rounds st.

Lemma pass_keeps (max_total_rounds : nat) (alive_agents : list string) (st st' : Discussion) :
  continuing max_total_rounds st -> counts_bounded st -> pass alive_agents st st' ->
  total_rounds st' <= max_total_rounds /\ consecutive_silent_rounds st' <= 3 /\
  counts_bounded st' /\
  measure max_total_rounds st' < measure max_total_rounds st /\
  d_iterations st' = d_iterations st + 1 /\
  List.length (transcript st') + total_rounds st =
  List.length (transcript st) + total_rounds st'.
Proof.
  intros [Ht Hs] Hb (Hi & Hp). unfold measure, counts_bounded in *.
  destruct (someone_asks alive_agents st).
  - destruct Hp as (H1 & H2 & agent & reply & _ & _ & Htr & Hsame & Hother).
    rewrite Htr, length_app. cbn [List.length].
    split; [lia|]. split; [lia|]. split; [|repeat split; lia].
    intros a. destruct (string_dec a agent) as [->|Hne].
    + rewrite Hsame. specialize (Hb agent). lia.
    + rewrite (Hother a Hne). specialize (Hb a). lia.
  - destruct Hp as (H1 & H2 & Htr & Hsame). rewrite Htr.
    split; [lia|]. split; [lia|]. split; [|repeat split; lia].
    intros a. rewrite Hsame. specialize (Hb a). lia.
Qed.

(** With fuel for the measure the loop ends: at the first state from which it
    does not go on, or at the first pass that raises. *)
Lemma discussion_loop_ends (max_total_rounds : nat) (alive_agents : list string) :
  forall fuel st,
    total_rounds st <= max_total_rounds ->
    consecutive_silent_rounds st <= 3 ->
    counts_bounded st ->
    measure max_total_rounds st <= fuel ->
    exists n final,
      n <= measure max_total_rounds st /\
      after n alive_agents st = Ok final /\
      d_iterations final = d_iterations st + n /\
      List.length (transcript final) + total_rounds st =
        List.length (transcript st) + total_rounds final /\
      counts_bounded final /\
      (forall m, m < n ->
         exists s s',
           after m alive_agents st = Ok s /\ after (S m) alive_agents st = Ok s' /\
           continuing max_total_rounds s /\ ~ too_large_for_a_float alive_agents s /\
           pass alive_agents s s') /\
      (((total_rounds final = max_total_rounds \/ consecutive_silent_rounds final = 3) /\
        discussion_loop participate_in_discussion as_completed random fuel
          max_total_rounds alive_agents st = Some (Ok final)) \/
       (continuing max_total_rounds final /\ too_large_for_a_float alive_agents final /\
        discussion_loop participate_in_discussion as_completed random fuel
          max_total_rounds alive_agents st = Some (Raise "OverflowError"))).
Proof.
  induction fuel as [|fuel IH]; intros st Ht Hs Hb Hfuel.
  - exists 0, st. unfold measure in *. cbn [discussion_loop after].
    destruct ((total_rounds st <? max_total_rounds) && _) eqn:Hc.
    + apply continuing_iff in Hc. destruct Hc. lia.
    + split; [lia|]. split; [reflexivity|]. split; [lia|]. split; [lia|].
      split; [exact Hb|]. split; [intros m Hm; lia|].
      left. split; [lia|reflexivity].
  - cbn [discussion_loop]. destruct ((total_rounds st <? max_total_rounds) && _) eqn:Hc.
    + apply continuing_iff in Hc.
      destruct (round_cases alive_agents st) as [(Hover & Hraise)|(Hfits & st' & Hok & Hpass)].
      * exists 0, st. cbn [after]. fold (round_of alive_agents st). rewrite Hraise.
        split; [lia|]. split; [reflexivity|]. split; [lia|]. split; [lia|].
        split; [exact Hb|]. split; [intros m Hm; lia|].
        right. split; [exact Hc|]. split; [exact Hover|reflexivity].
      * fold (round_of alive_agents st). rewrite Hok.
        destruct (pass_keeps max_total_rounds alive_agents st st' Hc Hb Hpass)
          as (Ht' & Hs' & Hb' & Hm' & Hi' & Hl').
        destruct (IH st' Ht' Hs' Hb' ltac:(lia))
          as (n & final & Hn & Hafter & Hit & Hlen & Hbf & Hbefore & Hend).
        exists (S n), final.
        split; [lia|]. split; [rewrite after_head, Hok; exact Hafter|].
        split; [lia|]. split; [lia|]. split; [exact Hbf|]. split; [|exact Hend].
        intros [|m] Hm.
        -- exists st, st'. cbn [after bind]. rewrite Hok. auto.
        -- destruct (Hbefore m ltac:(lia)) as (s & s' & H1 & H2 & H3).
           exists s, s'. rewrite !after_head, Hok. cbn [bind]. auto.
    + exists 0, st. cbn [after].
      split; [lia|]. split; [reflexivity|]. split; [lia|]. split; [lia|].
      split; [exact Hb|]. split; [intros m Hm; lia|].
      left. split; [|reflexivity].
      apply not_true_iff_false in Hc. rewrite continuing_iff in Hc.
      unfold continuing in Hc. lia.
Qed.

(** More fuel does not change what the loop returns. *)
Lemma discussion_loop_more_fuel (max_total_rounds : nat) (alive_agents : list string) :
  forall fuel st r,
    discussion_loop participate_in_discussion as_completed random fuel max_total_rounds
      alive_agents st = Some r ->
    forall fuel', fuel <= fuel' ->
      discussion_loop participate_in_discussion as_completed random fuel' max_total_rounds
        alive_agents st = Some r.
Proof.
  induction fuel as [|fuel IH]; intros st r Hrun fuel' Hle.
  - simpl in Hrun. destruct fuel'; simpl;
      destruct ((total_rounds st <? max_total_rounds) && _); congruence.
  - destruct fuel' as [|fuel']; [lia|]. simpl in *.
    destruct ((total_rounds st <? max_total_rounds) && _); [|exact Hrun].
    destruct (discussion_round _ _ _ alive_agents st) as [st'|e]; [|exact Hrun].
    apply (IH st' r Hrun). lia.
Qed.

(** Nobody asks to speak, whatever the pass. *)
Definition nobody_speaks : Prop :=
  (forall iteration agent gs,
     asks_to_speak (reply_of (participate_in_discussion iteration agent gs)) = false) /\
  (forall iteration l x, In x (as_completed iteration l) -> In x l).

(** The replies are those of the agents, and every urgency among them has a
    float. *)
Definition urgencies_in_range : Prop :=
  (forall iteration agent gs response,
     participate_in_discussion iteration agent gs = Ok (Structured response) ->
     (Z.abs (urgency response) < Floats.too_large)%Z) /\
  (forall iteration l x, In x (as_completed iteration l) -> In x l).

Lemma nobody_asks (alive_agents : list string) (st : Discussion) :
  nobody_speaks -> someone_asks alive_agents st = false.
Proof.
  intros [Hquiet Hsub]. unfold someone_asks.
  destruct (existsb _ _) eqn:He; [|reflexivity].
  apply existsb_exists in He. destruct He as (x & Hx & Hasks).
  unfold replies in Hx. apply Hsub in Hx. apply in_map_iff in Hx.
  destruct Hx as (a & <- & _). simpl in Hasks. rewrite Hquiet in Hasks. discriminate Hasks.
Qed.

Lemma in_range_fits (max_total_rounds : nat) (alive_agents : list string) (st : Discussion) :
  urgencies_in_range -> (Z.of_nat max_total_rounds < Floats.too_large)%Z ->
  counts_bounded st -> total_rounds st <= max_total_rounds ->
  ~ too_large_for_a_float alive_agents st.
Proof.
  intros [Hrange Hsub] Hbudget Hb Ht (agent & reply & Hin & Hasks & Hover).
  unfold replies in Hin. apply Hsub in Hin. apply in_map_iff in Hin.
  destruct Hin as (a & [= <- Hreply] & _).
  specialize (Hb a).
  destruct Hover as [Hover|Hover]; [|lia].
  destruct (participate_in_discussion (d_iterations st) a (game_state (d_orch st)))
    as [[|response|text]|e] eqn:Hp; simpl in Hreply; subst reply; simpl in Hover, Hasks.
  - discriminate Hasks.
  - specialize (Hrange _ _ _ _ Hp). lia.
  - assert (3 < Floats.too_large)%Z by (vm_compute; reflexivity). lia.
  - discriminate Hasks.
Qed.

End Loop.

(** The sentence of the claim that fails: the passes of the loop stay within
    the budget of rounds. *)
Definition rounds_within_budget : Prop :=
  forall participate_in_discussion as_completed random fuel o st,
    _run_discussion_phase participate_in_discussion as_completed random fuel o
      = Some (Ok st) ->
    d_iterations st <=
    max_discussion_rounds o *
    List.length (discussion_agents (game_state (d_orch (discussion_start o)))).

(** Silence in the even passes; in the odd ones Ann alone asks to speak. *)
Definition every_other (iteration : nat) (agent : string) (_ : GameState) : result Reply :=
  if Nat.even iteration then Ok NoReply
  else if String.eqb agent "Ann"
       then Ok (Structured (mkDiscussionResponse true "I have a hunch" 3))
       else Ok (Structured (mkDiscussionResponse false "nothing to add" 1)).

Definition in_order (_ : nat) (l : list (string * Reply)) : list (string * Reply) := l.

Definition no_luck (_ : nat) (_ : nat) : Q := 0.

(** Four alive players, one round each. *)
Definition short_day : GameOrchestrator :=
  mkGameOrchestrator
    (NightResolution.quiet_state NightResolution.four_players None None) 1 true false [] [].


End DiscussionLoop.


Module SilentDay.

Definition mute (_ : nat) (_ : string) (_ : GameState) : result Reply := Raise "TimeoutError".

Lemma mute_is_quiet :
  DiscussionLoop.nobody_speaks mute DiscussionLoop.in_order.
Proof. split; [intros i a gs; reflexivity|intros i l x H; exact H]. Qed.

(** A silent pass, then Ben speaks, then silence: the silent rounds in a row
    are counted again from the speech. *)
Definition one_speech (iteration : nat) (agent : string) (_ : GameState) : result Reply :=
  if (iteration =? 1) && String.eqb agent "Ben"
  then Ok (Structured (mkDiscussionResponse true "it was not me" 4))
  else Ok (Structured (mkDiscussionResponse false "nothing to add" 1)).

Lemma one_speech_in_range :
  DiscussionLoop.urgencies_in_range one_speech DiscussionLoop.in_order.
Proof.
  split; [|intros i l x H; exact H].
  intros i a gs response. unfold one_speech.
  destruct (_ && _); intros [= <-]; vm_compute; reflexivity.
Qed.

(** Cat asks to speak with an urgency of 310 digits. *)
Definition shouting (_ : nat) (agent : string) (_ : GameState) : result Reply :=
  if String.eqb agent "Cat"
  then Ok (Structured (mkDiscussionResponse true "LISTEN" (10 ^ 309)))
  else Ok (Structured (mkDiscussionResponse false "nothing to add" 1)).

Lemma shouting_raises :
  _run_discussion_phase shouting DiscussionLoop.in_order DiscussionLoop.no_luck 27
    DiscussionLoop.short_day = Some (Raise "OverflowError").
Proof. vm_compute. reflexivity. Qed.

End SilentDay.


(** ** The fairness penalty *)

Module Fairness.

Definition spoken (counts : dict nat) (s : SpeakingAgent) : nat :=
  dict_get_default counts (sa_agent s) 0.

(** The number of the formula: max(1, raw urgency - 0.5 x times spoken). *)
Definition formula (raw : Z) (speak_count : nat) : Q :=
  Qmax 1 (inject_Z raw - inject_Z (Z.of_nat speak_count) * (1 # 2)).

(** The first sentence of the claim: the adjusted urgency of every speaker is
    the number of the formula. *)
Definition adjusted_is_the_formula : Prop :=
  forall counts responses speakers s,
    speaking_agents_of counts responses = Ok speakers -> In s speakers ->
    (sa_adjusted s == formula (urgency (sa_response s)) (spoken counts s))%Q.

(** The second sentence of the claim: of two speakers with the same raw
    urgency, the one who has spoken more is never ranked first. *)
Definition frequent_speaker_never_first : Prop :=
  forall random iteration counts responses speakers before a mid b after',
    speaking_agents_of counts responses = Ok speakers ->
    ranked random iteration speakers = (before ++ a :: mid ++ b :: after')%list ->
    urgency (sa_response a) = urgency (sa_response b) ->
    ~ spoken counts a > spoken counts b.

(** Ann has spoken once, Ben not yet. *)
Definition counts_so_far : dict nat := [("Ann", 1); ("Ben", 0)].

(** Both ask to speak with that urgency. *)
Definition both_ask (raw : Z) : list (string * DiscussionResponse) :=
  [("Ann", mkDiscussionResponse true "and another thing" raw);
   ("Ben", mkDiscussionResponse true "may I" raw)].

(** [random.random()] gives 0.9 for Ann and 0.1 for Ben. *)
Definition draws (_ : nat) (position : nat) : Q :=
  match position with 0 => 9 # 10 | _ => 1 # 10 end.


End Fairness.


Module FairnessExample.

Definition ann : SpeakingAgent :=
  mkSpeakingAgent "Ann" (mkDiscussionResponse true "and another thing" 3) (5 # 2).

Definition ben : SpeakingAgent :=
  mkSpeakingAgent "Ben" (mkDiscussionResponse true "may I" 3) (6 # 2).

End FairnessExample.


(** ** A request to the language model that fails *)

Module Failures.

(** What [generate_response] returns for a request that raised. *)
Definition error_text : string := "ERROR: Could not generate response".

(** A night decision without a target: none at all, or a dictionary that
    lacks the key. *)
Definition no_target (decision : option NightDict) : Prop :=
  match decision with
  | Some d => nd_target d = None
  | None => True
  end.

Lemma error_text_has_no_field :
  search_field "target" error_text = None /\ search_field "reason" error_text = None /\
  search_field "speak" error_text = None /\ search_field "comment" error_text = None /\
  search_field "urgency" error_text = None /\ json_text_of error_text = error_text.
Proof. repeat split; vm_compute; reflexivity. Qed.

Lemma closest_match_of_nothing (candidates : list string) (fallback : string) :
  ~ In EmptyString candidates ->
  closest_match candidates EmptyString fallback = fallback.
Proof.
  induction candidates as [|c rest IH]; intros Hne; [reflexivity|].
  cbn [closest_match]. destruct c as [|a c].
  - exfalso. apply Hne. left. reflexivity.
  - cbn. apply IH. intros H. apply Hne. right. exact H.
Qed.

Lemma player_of_name (gs : GameState) (agent : string) :
  In agent (map name (players gs)) -> exists p, get_player_by_name gs agent = Some p.
Proof.
  unfold get_player_by_name. induction (players gs) as [|q ps IH]; simpl; [contradiction|].
  intros [<-|H].
  - rewrite String.eqb_refl. eauto.
  - destruct (String.eqb (name q) agent); [eauto|exact (IH H)].
Qed.

Section Requests.
Variable chat_completion : string -> result string.
Variable json_loads : string -> result (option NightDict).
Variable int_of_str : string -> option Z.
Variable night_prompt : string -> GameState -> string.
Variable discussion_prompt : string -> GameState -> string.
Variable vote_prompt : string -> GameState -> list string -> string.
Variable final_vote_prompt : string -> GameState -> string -> list string -> string.

(** The request for this prompt raises. *)
Definition failed (prompt : string) : Prop := exists e, chat_completion prompt = Raise e.

Lemma generate_response_failed (prompt e : string) :
  chat_completion prompt = Raise e ->
  generate_response chat_completion prompt = (["Error generating response: " ++ e], error_text).
Proof. intros H. unfold generate_response. rewrite H. reflexivity. Qed.

Lemma generate_vote_decision_failed (prompt e : string) :
  chat_completion (structured_prompt prompt VoteDecision_fields) = Raise e ->
  generate_vote_decision chat_completion prompt =
  (["Error generating response: " ++ e], mkVoteDecision EmptyString EmptyString).
Proof.
  intros H. unfold generate_vote_decision.
  rewrite (generate_response_failed _ e H). reflexivity.
Qed.

Lemma generate_discussion_response_failed (prompt e : string) :
  chat_completion (structured_prompt prompt DiscussionResponse_fields) = Raise e ->
  generate_discussion_response chat_completion int_of_str prompt =
  (["Error generating response: " ++ e], mkDiscussionResponse false EmptyString 0).
Proof.
  intros H. unfold generate_discussion_response.
  rewrite (generate_response_failed _ e H). reflexivity.
Qed.

Lemma generate_json_response_failed (prompt e : string) :
  json_loads error_text = Raise "JSONDecodeError" ->
  chat_completion prompt = Raise e ->
  generate_json_response chat_completion json_loads prompt =
  (["Error generating response: " ++ e;
    "Failed to parse JSON response: " ++ error_text],
   Ok (Some (mkNightDict None None))).
Proof.
  intros Hjson H. unfold generate_json_response.
  rewrite (generate_response_failed _ e H).
  replace (json_text_of error_text) with error_text by (vm_compute; reflexivity).
  rewrite Hjson. reflexivity.
Qed.

Lemma night_decision_failed (agent : string) (gs : GameState) :
  json_loads error_text = Raise "JSONDecodeError" ->
  In agent (map name (players gs)) ->
  failed (night_prompt agent gs) ->
  exists decision,
    agent_make_night_decision chat_completion json_loads night_prompt agent gs = Ok decision /\
    no_target decision.
Proof.
  intros Hjson Hin [e He]. destruct (player_of_name gs agent Hin) as [p Hp].
  unfold agent_make_night_decision. rewrite Hp.
  destruct (night_choices (role p) agent gs).
  - exists None. split; [reflexivity|exact I].
  - rewrite (generate_json_response_failed _ e Hjson He).
    exists (Some (mkNightDict None None)). split; reflexivity.
Qed.

Lemma alive_agent_is_a_player (gs : GameState) (r : Role) (p : Player) (rest : list Player) :
  alive_agents_of_role gs r = p :: rest -> In (name p) (map name (players gs)).
Proof.
  intros H. apply in_map.
  assert (Hin : In p (alive_agents_of_role gs r)) by (rewrite H; left; reflexivity).
  unfold alive_agents_of_role in Hin. apply filter_In in Hin. exact (proj1 Hin).
Qed.

End Requests.

(** The orchestrator prints the exception of a discussion request in the
    observer log and goes on. *)
Lemma get_agent_responses_logged
    (participate_in_discussion : nat -> string -> GameState -> result Reply)
    (iteration : nat) (gs : GameState) (agents : list string) :
  forall o,
    let out := get_agent_responses participate_in_discussion iteration agents gs o in
    observer_mode (fst out) = observer_mode o /\
    (forall entry, In entry (console o) -> In entry (console (fst out))) /\
    (forall agent e,
       In agent agents -> participate_in_discussion iteration agent gs = Raise e ->
       observer_mode o = true ->
       In (Observer ("Error getting response from " ++ agent ++ ": " ++ e))
          (console (fst out))).
Proof.
  induction agents as [|a rest IH]; intros o; cbn [get_agent_responses].
  - cbn. split; [reflexivity|]. split; [auto|]. intros agent e [].
  - destruct (participate_in_discussion iteration a gs) as [reply|e0] eqn:Ha.
    + specialize (IH o). destruct (get_agent_responses _ _ _ _ o) as [o1 rs].
      cbn [fst] in *. destruct IH as (Hmode & Hkeep & Hlog).
      split; [exact Hmode|]. split; [exact Hkeep|].
      intros agent e [<-|Hin] He Hobs; [congruence|exact (Hlog agent e Hin He Hobs)].
    + set (o0 := _observer_info o ("Error getting response from " ++ a ++ ": " ++ e0)).
      specialize (IH o0). destruct (get_agent_responses _ _ _ _ o0) as [o1 rs].
      cbn [fst] in *. destruct IH as (Hmode & Hkeep & Hlog).
      assert (Hmode0 : observer_mode o0 = observer_mode o).
      { unfold o0, _observer_info. destruct (observer_mode o) eqn:Hm; [|exact Hm].
        cbn. exact Hm. }
      assert (Hkeep0 : forall entry, In entry (console o) -> In entry (console o0)).
      { intros entry Hentry. unfold o0, _observer_info.
        destruct (observer_mode o); [|exact Hentry].
        cbn. apply in_or_app. left. exact Hentry. }
      split; [congruence|]. split; [auto|].
      intros agent e [<-|Hin] He Hobs.
      * rewrite Ha in He. injection He as <-. apply Hkeep.
        unfold o0, _observer_info. rewrite Hobs. cbn.
        apply in_or_app. right. left. reflexivity.
      * apply (Hlog agent e Hin He). congruence.
Qed.

(** The sentence of the claim that fails: a request that raises in a vote
    leaves the tally as it was. *)
Definition failed_vote_is_an_abstention : Prop :=
  forall chat_completion vote_prompt alive_players b agent_name b',
    (exists e,
       chat_completion
         (structured_prompt
            (vote_prompt agent_name (game_state (b_orch b))
               (candidates_of alive_players agent_name))
            VoteDecision_fields) = Raise e) ->
    cast_initial_vote (agent_vote_result chat_completion vote_prompt) alive_players b
      agent_name = Ok b' ->
    votes (game_state (b_orch b')) = votes (game_state (b_orch b)) /\
    vote_counts (game_state (b_orch b')) = vote_counts (game_state (b_orch b)).

(** The prompts of the examples name the agent who asks. *)
Definition asked_at_night (agent : string) (_ : GameState) : string :=
  "night, asked by " ++ agent.

Definition asked_to_discuss (agent : string) (_ : GameState) : string :=
  "discussion, asked by " ++ agent.

Definition asked_to_vote (agent : string) (_ : GameState) (_ : list string) : string :=
  "vote, asked by " ++ agent.

Definition asked_to_defend (agent : string) (_ : GameState) : string :=
  "defense, asked by " ++ agent.

Definition asked_to_vote_again (agent : string) (_ : GameState) (_ : string)
    (_ : list string) : string :=
  "final vote, asked by " ++ agent.

(** Every request of Ben times out; the others get an answer that names
    Ben. *)
Definition ben_times_out (prompt : string) : result string :=
  if str_contains "asked by Ben" prompt then Raise "TimeoutError"
  else if String.prefix "night" prompt
       then Ok "{ target: Ben }"
       else Ok ("- target: Ben" ++ newline ++ "- reason: too loud" ++ newline
                ++ "- speak: no" ++ newline ++ "- urgency: 2").

(** A [json.loads] that knows one answer. *)
Definition one_answer (text : string) : result (option NightDict) :=
  if String.eqb text "{ target: Ben }"
  then Ok (Some (mkNightDict (Some (JString "Ben")) None))
  else Raise "JSONDecodeError".

Definition digits_only (value : string) : option Z :=
  if String.eqb value "2" then Some 2%Z else None.

(** The four players on a day, with an empty ballot. *)
Definition day : GameOrchestrator :=
  mkGameOrchestrator
    (mkGameState NightResolution.four_players DAY_DISCUSSION 1
       ["Ann"; "Ben"; "Cat"; "Dan"] [] ["Cat"] None None None [] [] [] [] [] [] [] [] [] None)
    1 true false [] [].

Definition empty_ballot : Ballot := mkBallot day [] [].

Lemma failed_vote_is_a_vote :
  ~ failed_vote_is_an_abstention /\
  ben_times_out
    (structured_prompt
       (asked_to_vote "Ben" (game_state day) (candidates_of ["Ann"; "Ben"; "Cat"; "Dan"] "Ben"))
       VoteDecision_fields) = Raise "TimeoutError" /\
  exists b',
    cast_initial_vote (agent_vote_result ben_times_out asked_to_vote)
      ["Ann"; "Ben"; "Cat"; "Dan"] empty_ballot "Ben" = Ok b' /\
    votes (game_state (b_orch b')) = [("Ben", "Ann")] /\
    vote_counts (game_state (b_orch b')) = [("Ann", 1)].
Proof.
  assert (Hfail : ben_times_out
            (structured_prompt
               (asked_to_vote "Ben" (game_state day)
                  (candidates_of ["Ann"; "Ben"; "Cat"; "Dan"] "Ben"))
               VoteDecision_fields) = Raise "TimeoutError").
  { vm_compute. reflexivity. }
  assert (Hrun : exists b',
            cast_initial_vote (agent_vote_result ben_times_out asked_to_vote)
              ["Ann"; "Ben"; "Cat"; "Dan"] empty_ballot "Ben" = Ok b' /\
            votes (game_state (b_orch b')) = [("Ben", "Ann")] /\
            vote_counts (game_state (b_orch b')) = [("Ann", 1)]).
  { eexists. split; [vm_compute; reflexivity|]. split; reflexivity. }
  split; [|split; [exact Hfail|exact Hrun]].
  intros Hclaim. destruct Hrun as (b' & Hrun & Hvotes & _).
  destruct (Hclaim ben_times_out asked_to_vote ["Ann"; "Ben"; "Cat"; "Dan"] empty_ballot
              "Ben" b' (ex_intro _ "TimeoutError" Hfail) Hrun) as [Hsame _].
  rewrite Hvotes in Hsame. discriminate Hsame.
Qed.

End Failures.

(** C6 (as amended): a request to the language model that raises is caught in
    the interface, which prints the error and hands the text
    "ERROR: Could not generate response" to the agent, and the game goes on.
    At night the agent's decision then has no target: no proposal of a member
    of the mafia is collected, and the doctor and the detective do nothing. In
    the discussion the agent's response does not ask to speak; an exception
    that a discussion request itself raises is caught by the orchestrator,
    printed in the observer log and taken as no response.  In the initial and
    in the final vote the failure is not an abstention: with names that are
    not empty, the vote is tallied for the first candidate of the voter's
    list. *)
Theorem failed_request_outcomes
    (chat_completion : string -> result string)
    (json_loads : string -> result (option NightDict))
    (int_of_str : string -> option Z)
    (night_prompt discussion_prompt : string -> GameState -> string)
    (vote_prompt : string -> GameState -> list string -> string)
    (final_vote_prompt : string -> GameState -> string -> list string -> string) :
  json_loads Failures.error_text = Raise "JSONDecodeError" ->
  let failed := Failures.failed chat_completion in
  let make_night_decision :=
    agent_make_night_decision chat_completion json_loads night_prompt in
  let participate :=
    agent_participate_in_discussion chat_completion int_of_str discussion_prompt in
  let vote := agent_vote_result chat_completion vote_prompt in
  let final_vote_decision := agent_final_vote_decision chat_completion final_vote_prompt in
  (forall prompt e,
     chat_completion prompt = Raise e ->
     generate_response chat_completion prompt =
       (["Error generating response: " ++ e], Failures.error_text)) /\
  (forall agent gs,
     In agent (map name (players gs)) -> failed (night_prompt agent gs) ->
     exists decision,
       make_night_decision agent gs = Ok decision /\ Failures.no_target decision) /\
  (forall agent rest o proposals,
     In agent (map name (players (game_state o))) ->
     failed (night_prompt agent (game_state o)) ->
     collect_proposals make_night_decision (agent :: rest) o proposals =
     collect_proposals make_night_decision rest o proposals) /\
  (forall o doctor others,
     alive_agents_of_role (game_state o) DOCTOR = doctor :: others ->
     failed (night_prompt (name doctor) (game_state o)) ->
     _doctor_night_action make_night_decision o = Ok o) /\
  (forall o detective others,
     alive_agents_of_role (game_state o) DETECTIVE = detective :: others ->
     failed (night_prompt (name detective) (game_state o)) ->
     _detective_night_action make_night_decision o = Ok o) /\
  (forall agent gs,
     failed (structured_prompt (discussion_prompt agent gs) DiscussionResponse_fields) ->
     exists reply,
       participate agent gs = Ok reply /\ DiscussionLoop.asks_to_speak reply = false) /\
  (forall (requests : nat -> string -> GameState -> result Reply) iteration agents gs o,
     let out := get_agent_responses requests iteration agents gs o in
     game_state (fst out) = game_state o /\
     snd out =
       map (fun a => (a, DiscussionLoop.reply_of (requests iteration a gs))) agents /\
     (forall agent e,
        In agent agents -> requests iteration agent gs = Raise e ->
        DiscussionLoop.reply_of (requests iteration agent gs) = NoReply /\
        (observer_mode o = true ->
         In (Observer ("Error getting response from " ++ agent ++ ": " ++ e))
            (console (fst out))))) /\
  (forall alive_players b agent_name first others,
     candidates_of alive_players agent_name = first :: others ->
     ~ In EmptyString alive_players ->
     failed (structured_prompt
               (vote_prompt agent_name (game_state (b_orch b)) (first :: others))
               VoteDecision_fields) ->
     cast_initial_vote vote alive_players b agent_name
       = Ok (record_initial_vote b agent_name first EmptyString) /\
     votes (game_state (b_orch (record_initial_vote b agent_name first EmptyString))) =
       dict_set (votes (game_state (b_orch b))) agent_name first /\
     vote_counts (game_state (b_orch (record_initial_vote b agent_name first EmptyString))) =
       counter_add (vote_counts (game_state (b_orch b))) first) /\
  (forall suspect alive_players b agent_name first others,
     candidates_of alive_players agent_name = first :: others ->
     ~ In EmptyString alive_players -> In agent_name alive_players ->
     failed (structured_prompt
               (final_vote_prompt agent_name (game_state (b_orch b)) suspect
                  (first :: others))
               VoteDecision_fields) ->
     exists b',
       cast_final_vote final_vote_decision suspect alive_players b agent_name = Ok b' /\
       votes (game_state (b_orch b')) =
         dict_set (votes (game_state (b_orch b))) agent_name first /\
       vote_counts (game_state (b_orch b')) =
         counter_add (vote_counts (game_state (b_orch b))) first).
Proof.
  intros Hjson failed make_night_decision participate vote final_vote_decision.
  assert (Hnight : forall agent gs,
            In agent (map name (players gs)) -> failed (night_prompt agent gs) ->
            exists decision,
              make_night_decision agent gs = Ok decision /\ Failures.no_target decision).
  { intros agent gs Hin Hfail.
    exact (Failures.night_decision_failed chat_completion json_loads night_prompt agent gs
             Hjson Hin Hfail). }
  assert (Hcandidates : forall alive_players agent_name first others,
            candidates_of alive_players agent_name = first :: others ->
            ~ In EmptyString alive_players ->
            ~ In EmptyString (first :: others) /\ first <> EmptyString).
  { intros alive_players agent_name first others Hc Hne.
    assert (Hsub : forall c, In c (first :: others) -> In c alive_players).
    { intros c Hin. rewrite <- Hc in Hin. unfold candidates_of in Hin.
      apply filter_In in Hin. exact (proj1 Hin). }
    split.
    - intros H. apply Hne. apply Hsub. exact H.
    - intros ->. apply Hne. apply Hsub. left. reflexivity. }
  split; [|split; [|split; [|split; [|split; [|split; [|split; [|split]]]]]]].
  - intros prompt e He. exact (Failures.generate_response_failed chat_completion prompt e He).
  - exact Hnight.
  - intros agent rest o proposals Hin Hfail.
    destruct (Hnight agent (game_state o) Hin Hfail) as (decision & Hd & Hno).
    cbn [collect_proposals]. rewrite Hd. cbn [bind].
    destruct decision as [d|]; [|reflexivity].
    simpl in Hno. rewrite Hno. reflexivity.
  - intros o doctor others Halive Hfail.
    destruct (Hnight (name doctor) (game_state o)
                (Failures.alive_agent_is_a_player _ _ _ _ Halive) Hfail)
      as (decision & Hd & Hno).
    unfold _doctor_night_action. rewrite Halive, Hd. cbn [bind].
    destruct decision as [d|]; [|reflexivity].
    simpl in Hno. rewrite Hno. reflexivity.
  - intros o detective others Halive Hfail.
    destruct (Hnight (name detective) (game_state o)
                (Failures.alive_agent_is_a_player _ _ _ _ Halive) Hfail)
      as (decision & Hd & Hno).
    unfold _detective_night_action. rewrite Halive, Hd. cbn [bind].
    destruct decision as [d|]; [|reflexivity].
    simpl in Hno. rewrite Hno. reflexivity.
  - intros agent gs [e He]. unfold participate, agent_participate_in_discussion.
    destruct (phase gs); try (exists NoReply; split; reflexivity).
    rewrite (Failures.generate_discussion_response_failed chat_completion int_of_str _ e He).
    eexists. split; reflexivity.
  - intros requests iteration agents gs o out.
    destruct (DiscussionLoop.get_agent_responses_spec requests iteration agents gs o)
      as (Hgs & _ & Hout).
    destruct (Failures.get_agent_responses_logged requests iteration gs agents o)
      as (_ & _ & Hlog).
    split; [exact Hgs|]. split; [exact Hout|].
    intros agent e Hin He. split; [rewrite He; reflexivity|].
    intros Hobs. exact (Hlog agent e Hin He Hobs).
  - intros alive_players b agent_name first others Hc Hne [e He].
    destruct (Hcandidates _ _ _ _ Hc Hne) as [Hnone Hfirst].
    pose proof (OutsideVotes.initial_outside_vote
                  (fun agent gs candidates =>
                     snd (generate_vote_decision chat_completion
                            (vote_prompt agent gs candidates)))
                  alive_players b agent_name first others) as H.
    cbv zeta beta in H. rewrite Hc in H.
    rewrite (Failures.generate_vote_decision_failed chat_completion _ e He) in H.
    cbn [snd vd_target vd_reason] in H.
    rewrite (Failures.closest_match_of_nothing _ first Hnone) in H.
    assert (Hout : str_in EmptyString (first :: others) = false).
    { destruct (str_in EmptyString (first :: others)) eqn:Hs; [|reflexivity].
      apply str_in_iff in Hs. contradiction. }
    split; [exact (H eq_refl Hout)|].
    rewrite Votes.game_state_record_initial_vote.
    apply OutsideVotes.tally_vote_fields.
  - intros suspect alive_players b agent_name first others Hc Hne Hagent [e He].
    destruct (Hcandidates _ _ _ _ Hc Hne) as [Hnone Hfirst].
    assert (Hout : str_in EmptyString (first :: others) = false).
    { destruct (str_in EmptyString (first :: others)) eqn:Hs; [|reflexivity].
      apply str_in_iff in Hs. contradiction. }
    pose proof (OutsideVotes.final_outside_vote final_vote_decision suspect alive_players b
                  agent_name first others (mkVoteDecision EmptyString EmptyString)) as H.
    cbv zeta in H. rewrite Hc in H. cbn [vd_target] in H.
    rewrite (Failures.closest_match_of_nothing _ first Hnone) in H.
    apply H.
    + unfold final_vote_decision, agent_final_vote_decision.
      rewrite (Failures.generate_vote_decision_failed chat_completion _ e He). reflexivity.
    + reflexivity.
    + exact Hout.
    + intros <-. contradiction.
    + destruct first; [contradiction|reflexivity].
Qed.

Lemma failed_request_outcomes_witness :
  (exists b',
     cast_initial_vote (agent_vote_result Failures.ben_times_out Failures.asked_to_vote)
       ["Ann"; "Ben"; "Cat"; "Dan"] Failures.empty_ballot "Ben" = Ok b' /\
     votes (game_state (b_orch b')) = [("Ben", "Ann")]) /\
  (exists b',
     cast_final_vote
       (agent_final_vote_decision Failures.ben_times_out Failures.asked_to_vote_again)
       "Cat" ["Ann"; "Ben"; "Cat"; "Dan"] Failures.empty_ballot "Ben" = Ok b' /\
     votes (game_state (b_orch b')) = [("Ben", "Ann")]) /\
  _doctor_night_action
    (agent_make_night_decision Failures.ben_times_out Failures.one_answer
       Failures.asked_at_night)
    Failures.day = Ok Failures.day /\
  (exists o',
     _run_voting_phase (agent_vote_result Failures.ben_times_out Failures.asked_to_vote)
       (agent_defend_self Failures.ben_times_out Failures.asked_to_defend)
       (agent_final_vote_decision Failures.ben_times_out Failures.asked_to_vote_again)
       Failures.day = Ok o' /\
     elimination_history (game_state o') = ["Ben"] /\
     In "  Ben: ERROR: Could not generate response" (announcements (console o'))).
Proof.
  destruct (failed_request_outcomes Failures.ben_times_out Failures.one_answer
              Failures.digits_only Failures.asked_at_night Failures.asked_to_discuss
              Failures.asked_to_vote Failures.asked_to_vote_again eq_refl)
    as (_ & _ & _ & Hdoctor & _ & _ & _ & Hvote & Hfinal).
  split; [|split; [|split]].
  - destruct (Hvote ["Ann"; "Ben"; "Cat"; "Dan"] Failures.empty_ballot "Ben" "Ann"
                ["Cat"; "Dan"] eq_refl) as (Hrun & Hvotes & _).
    + intros H. simpl in H. intuition discriminate.
    + exists "TimeoutError". vm_compute. reflexivity.
    + eexists. split; [exact Hrun|]. rewrite Hvotes. reflexivity.
  - destruct (Hfinal "Cat" ["Ann"; "Ben"; "Cat"; "Dan"] Failures.empty_ballot "Ben" "Ann"
                ["Cat"; "Dan"] eq_refl) as (b' & Hrun & Hvotes & _).
    + intros H. simpl in H. intuition discriminate.
    + right. left. reflexivity.
    + exists "TimeoutError". vm_compute. reflexivity.
    + exists b'. split; [exact Hrun|]. rewrite Hvotes. reflexivity.
  - apply (Hdoctor Failures.day (mkPlayer "Ben" "loud" DOCTOR true 0) []).
    + reflexivity.
    + exists "TimeoutError". vm_compute. reflexivity.
  - eexists. split; [vm_compute; reflexivity|]. split; [reflexivity|].
    vm_compute. tauto.
Defined.
